(** * CodePulse: the generation service, the chat transcripts and the views

    A shallow embedding of [src/services/geminiService.ts] (the error
    classifier, the lazily built client, the retry loop, the role
    classifier and the exported generation functions), of the transcript
    handling of the two chat views ([MockInterview.processAIResponse] and
    [DoubtBuster.processAIResponse]) with their message forms, and of the
    handlers of the views that call the service ([App], [DreamCompanyView],
    [ResumeAnalyzerView], [CompanyInsightsView], [MachineCodingRound]) with
    the sidebar, with the properties proved of them.

    Conventions of the embedding.
    - A JavaScript string is a Rocq [string]: a sequence of code units, each
      below 256.  [toLowerCase] and [trim] are the ECMAScript functions on
      that range.
    - A result of [Math.random()] is a rational number and arithmetic on
      such numbers is exact; the properties that need it assume that every
      draw lies in the half-open unit interval.
    - A thrown value is a [Thrown]; a computation that may throw ends in a
      [Completion].
    - The remote service, the environment variables and the engine's
      [JSON.parse] form a [World]; the module-level client, the counters of
      the calls made so far and the log of observable events form a
      [State].
    - The state variables of a React component form a record; a handler is
      a function from that record (and the [State] of the service, when it
      calls the service) to the record after the handler has run to the
      end. *)

From Stdlib Require Import String Ascii List Bool Arith ZArith QArith Qabs Qround Lia Lqa.
Import ListNotations.
Local Close Scope Q_scope.
Local Open Scope string_scope.
Local Open Scope list_scope.
Local Open Scope nat_scope.

(** ** JavaScript strings *)

Module Js.

(** [String.prototype.toLowerCase] on one code unit below 256: the Latin
    capitals [A-Z] and the Latin-1 capitals U+00C0..U+00DE (U+00D7, the
    multiplication sign, apart) move up by 32. *)
Definition toLowerCase_unit (c : ascii) : ascii :=
  let n := nat_of_ascii c in
  if ((65 <=? n) && (n <=? 90)) ||
     ((192 <=? n) && (n <=? 222) && negb (n =? 215))
  then ascii_of_nat (n + 32) else c.

Fixpoint toLowerCase (s : string) : string :=
  match s with
  | EmptyString => EmptyString
  | String c s' => String (toLowerCase_unit c) (toLowerCase s')
  end.

(** [String.prototype.toUpperCase] is used by prompt wording only and is not
    needed here. *)

(** ECMAScript WhiteSpace and LineTerminator code units below 256: TAB, LF,
    VT, FF, CR, SP and NBSP. *)
Definition isWhiteSpace (c : ascii) : bool :=
  let n := nat_of_ascii c in
  ((9 <=? n) && (n <=? 13)) || (n =? 32) || (n =? 160).

Fixpoint trimStart (s : string) : string :=
  match s with
  | EmptyString => EmptyString
  | String c s' => if isWhiteSpace c then trimStart s' else s
  end.

Fixpoint trimEnd (s : string) : string :=
  match s with
  | EmptyString => EmptyString
  | String c s' =>
      match trimEnd s' with
      | EmptyString => if isWhiteSpace c then EmptyString else String c EmptyString
      | t => String c t
      end
  end.

(** [String.prototype.trim]. *)
Definition trim (s : string) : string := trimEnd (trimStart s).

(** [s.startsWith(p)]. *)
Definition startsWith (s p : string) : bool := String.prefix p s.

(** [s.includes(p)]: [p] occurs in [s] at some position. *)
Fixpoint includes (s p : string) : bool :=
  startsWith s p ||
  match s with
  | EmptyString => false
  | String _ s' => includes s' p
  end.

(** ToBoolean of a string: only the empty string is falsy. *)
Definition truthy_string (s : string) : bool :=
  match s with EmptyString => false | _ => true end.

(** ToBoolean of a value that is a string or [undefined]. *)
Definition truthy_opt (o : option string) : bool :=
  match o with Some s => truthy_string s | None => false end.

(** Every code unit of [s] is white space. *)
Fixpoint allWhiteSpace (s : string) : bool :=
  match s with
  | EmptyString => true
  | String c s' => isWhiteSpace c && allWhiteSpace s'
  end.

End Js.
Import Js.

(** ** Thrown values and completions *)

(** What a [catch] clause can receive, and what [handleApiError] takes as
    its [unknown] argument: an instance of [Error] with its message, a value
    that is no instance of [Error], or [null] (the initial [lastError]). *)
Inductive Thrown : Type :=
  | JsError (message : string)
  | JsNonError (description : string)
  | JsNull.

Definition message_of (e : Thrown) : string :=
  match e with JsError m => m | _ => EmptyString end.

Inductive Completion (A : Type) : Type :=
  | Normal (a : A)
  | Throw (e : Thrown).
Arguments Normal {A} a.
Arguments Throw {A} e.

(** ** The error classifier ([handleApiError], geminiService.ts 43-66) *)

Definition msg_unavailable : string :=
  "The AI is currently unavailable. Please try again in a moment.".
Definition msg_invalid_key : string :=
  "Invalid API key. Please check your Google AI API key configuration.".
Definition msg_quota : string :=
  "API quota exceeded. Please try again later or check your billing status.".
Definition msg_invalid_request : string :=
  "Invalid request. Please check your input and try again.".
Definition msg_service_unavailable : string :=
  "AI service temporarily unavailable. Please try again later.".
Definition msg_safety : string :=
  "Request blocked by safety filters. Please modify your input.".
Definition msg_unexpected (original : string) : string :=
  ("Unexpected error: " ++ original)%string.

(** The sentences of the categories that have a fixed one. *)
Definition fixed_sentences : list string :=
  [msg_unavailable; msg_invalid_key; msg_quota; msg_invalid_request;
   msg_service_unavailable; msg_safety].

(** The message of the [Error] that [handleApiError] builds.  The
    [console.error] line of the source writes a diagnostic and has no other
    effect; it is left out, and with it the [context] argument's only use. *)
Definition handleApiError_message (error : Thrown) : string :=
  match error with
  | JsError message =>
      if truthy_string message then
        let msg := toLowerCase message in
        if includes msg "api key not valid" then msg_invalid_key
        else if includes msg "quota" || includes msg "429" then msg_quota
        else if includes msg "400" then msg_invalid_request
        else if includes msg "500" || includes msg "503" then msg_service_unavailable
        else if includes msg "safety" then msg_safety
        else msg_unexpected message
      else msg_unavailable
  | _ => msg_unavailable
  end.

Definition handleApiError (error : Thrown) (context : string) : Thrown :=
  JsError (handleApiError_message error).

(** ** The role classifier ([getRoleCategory], geminiService.ts 315-319) *)

Inductive RoleCategory : Type := tech | content.

Definition contentKeywords : list string :=
  ["writer"; "content"; "editor"; "copywriter"; "author"; "writing";
   "marketing"; "copywriting"].

Definition getRoleCategory (jobRole : string) : RoleCategory :=
  let lowerJobRole := toLowerCase jobRole in
  if existsb (fun kw => includes lowerJobRole kw) contentKeywords
  then content else tech.

(** The spec's words for the classifier: a keyword occurs in the job role
    as a substring, letter case disregarded. *)
Definition occurs_ignoring_case (kw s : string) : Prop :=
  exists pre mid post,
    s = (pre ++ mid ++ post)%string /\ toLowerCase mid = toLowerCase kw.

Definition names_content_domain (jobRole : string) : Prop :=
  exists kw, In kw contentKeywords /\ occurs_ignoring_case kw jobRole.

(** ** JavaScript values, as [JSON.parse] returns them *)

(** A number is kept by the decimal value of its literal. *)
#[warnings="-register-all"]
Inductive JsValue : Type :=
  | JUndefined
  | JNull
  | JBool (b : bool)
  | JNumber (q : Q)
  | JString (s : string)
  | JArray (items : list JsValue)
  | JObject (props : list (string * JsValue)).

(** ToBoolean.  A literal whose value rounds to zero in binary64 (at most
    2^-1075 in magnitude) is falsy, as are [undefined], [null], [false] and
    the empty string; arrays and objects are truthy. *)
Definition truthy (v : JsValue) : bool :=
  match v with
  | JUndefined | JNull => false
  | JBool b => b
  | JNumber q => negb (Qle_bool (Qabs q) (1 # (2 ^ 1075)))
  | JString s => truthy_string s
  | JArray _ | JObject _ => true
  end.

(** [a || b]. *)
Definition js_or (a b : JsValue) : JsValue := if truthy a then a else b.

(** The last binding of [key] among the properties written in the text: a
    later member of a JSON object replaces an earlier one of the same name. *)
Fixpoint lookup_prop (key : string) (props : list (string * JsValue)) : JsValue :=
  match props with
  | [] => JUndefined
  | (k, v) :: rest =>
      match lookup_prop key rest with
      | JUndefined => if String.eqb k key then v else JUndefined
      | later => later
      end
  end.

(** [v.key] for a [key] that no prototype defines (such as
    [generalQuestions]): a [TypeError] on [undefined] and [null], the own
    property of an object, [undefined] on everything else. *)
Definition getProp (v : JsValue) (key : string) : Completion JsValue :=
  match v with
  | JUndefined =>
      Throw (JsError ("Cannot read properties of undefined (reading '" ++ key ++ "')")%string)
  | JNull =>
      Throw (JsError ("Cannot read properties of null (reading '" ++ key ++ "')")%string)
  | JObject props => Normal (lookup_prop key props)
  | _ => Normal JUndefined
  end.

(** ** Schema descriptors (geminiService.ts 120-252) *)

(** The [description] fields are wording for the service and are left out. *)
#[warnings="-register-all"]
Inductive Schema : Type :=
  | SString
  | SNumber
  | SArray (items : Schema)
  | SObject (properties : list (string * Schema)) (required : list string).

Definition questionItemSchema : Schema :=
  SObject [("question", SString); ("answer", SString)] ["question"; "answer"].

Definition systemDesignQuestionSchema : Schema :=
  SObject [("question", SString); ("answer", SString)] ["question"; "answer"].

Definition questionsSchema : Schema :=
  SObject [("generalQuestions", SArray questionItemSchema);
           ("technicalQuestions", SArray questionItemSchema)]
          ["generalQuestions"; "technicalQuestions"].

Definition codingChallengesSchema : Schema :=
  SArray
    (SObject
       [("title", SString); ("problem", SString); ("examples", SString);
        ("solutions",
         SObject [("javascript", SString); ("python", SString);
                  ("java", SString); ("cpp", SString)]
                 ["javascript"; "python"; "java"; "cpp"])]
       ["title"; "problem"; "examples"; "solutions"]).

Definition machineCodingSchema : Schema :=
  SObject [("title", SString); ("problem", SString)] ["title"; "problem"].

Definition systemDesignQuestionsSchema : Schema :=
  SArray systemDesignQuestionSchema.

Definition machineCodingSolutionSchema : Schema :=
  SObject [("solutionGuide", SString)] ["solutionGuide"].

Definition resumeAnalysisSchema : Schema :=
  SObject
    [("matchScore", SNumber); ("atsFriendliness", SString);
     ("resumeSummary", SString); ("overallFeedback", SString);
     ("strengths", SString); ("improvementSuggestions", SString);
     ("jdKeywords", SArray SString); ("missingKeywords", SArray SString)]
    ["matchScore"; "atsFriendliness"; "resumeSummary"; "overallFeedback";
     "strengths"; "improvementSuggestions"; "jdKeywords"; "missingKeywords"].

(** What it means for a value to satisfy a schema descriptor, in the spec's
    words (field names, types, required-ness, nested arrays and objects): a
    value of the declared type, every required field present, every
    declared field that is present satisfying its own descriptor.  The
    source has no such check; this is the yardstick by which the
    properties about conformance are measured. *)
Fixpoint conforms (sch : Schema) (v : JsValue) {struct sch} : bool :=
  match sch, v with
  | SString, JString _ => true
  | SNumber, JNumber _ => true
  | SArray items, JArray vs => forallb (conforms items) vs
  | SObject properties required, JObject props =>
      forallb (fun key =>
                 match lookup_prop key props with
                 | JUndefined => false
                 | _ => true
                 end) required
      && forallb (fun kv =>
                    match lookup_prop (fst kv) props with
                    | JUndefined => true
                    | field => conforms (snd kv) field
                    end) properties
  | _, _ => false
  end.

(** ** The world outside the service *)

(** The wording of a prompt is not modelled.  A prompt is recorded by the
    template it instantiates, the role category that selects its wording
    and the two random choices made while it is built: the persona preamble
    ([getVariedPromptPrefixes]) and, where the template has one, the framing
    of the context block ([getContextualVariations]). *)
Inductive PromptTemplate : Type :=
  | QuestionsPrompt | ChallengesPrompt | MachineCodingPrompt
  | RandomQuestionsPrompt | SystemDesignPrompt | RandomChallengesPrompt
  | RandomMachineCodingPrompt
  | SolutionPrompt | CompanyInsightsPrompt | ResumeAnalysisPrompt.

Record Prompt : Type := {
  template : PromptTemplate;
  wording : option RoleCategory;
  persona : Z;
  framing : option Z
}.

(** The [config] of a [generateContent] request. *)
Inductive Config : Type :=
  | StructuredConfig (responseSchema : Schema) (temperature topP : Q) (topK : Z)
  | GroundedConfig (temperature : Q).

Record Request : Type := {
  model : string;
  contents : Prompt;
  config : Config
}.

Record GroundingChunk : Type := {
  web_uri : option string;
  web_title : option string
}.

(** What of a response the service functions read: [response.text] and the
    grounding chunks of the first candidate (none when any link of
    [candidates?.[0]?.groundingMetadata?.groundingChunks] is missing). *)
Record Response : Type := {
  text : option string;
  groundingChunks : list GroundingChunk
}.

Inductive Reply : Type :=
  | Rejects (e : Thrown)
  | Responds (r : Response).

(** The environment of one run: the two configuration variables, the
    engine's [JSON.parse], the outcome of the n-th request sent to the
    service and the n-th result of [Math.random()]. *)
Record World : Type := {
  env_API_KEY : option string;
  env_GEMINI_API_KEY : option string;
  JSON_parse : string -> Completion JsValue;
  service : nat -> Reply;
  Math_random : nat -> Q
}.

(** [Math.random()] stays in the half-open unit interval. *)
Definition random_in_unit (W : World) : Prop :=
  forall n, (0 <= Math_random W n)%Q /\ (Math_random W n < 1)%Q.

Record GoogleGenAI : Type := { apiKey : string }.

Inductive Event : Type :=
  | NetworkRequest (r : Request)
  | JsonParse (jsonText : string)
  | ConsoleWarn (attempt : nat) (error : Thrown)
  | SetTimeout (ms : Q).

(** The module-level [ai], the number of requests sent and of random draws
    made so far, and the events so far, oldest first. *)
Record State : Type := {
  ai : option GoogleGenAI;
  requests : nat;
  draws : nat;
  trace : list Event
}.

Definition initial : State :=
  {| ai := None; requests := 0; draws := 0; trace := [] |}.

(** The events a run adds to a trace that it extends. *)
Definition added (before after : list Event) : list Event :=
  skipn (length before) after.

(** ** Computations: state passing with exceptions *)

Definition M (A : Type) : Type := State -> Completion A * State.

Definition ret {A} (a : A) : M A := fun st => (Normal a, st).

Definition throw {A} (e : Thrown) : M A := fun st => (Throw e, st).

Definition bind {A B} (c : M A) (k : A -> M B) : M B :=
  fun st =>
    match c st with
    | (Normal a, st') => k a st'
    | (Throw e, st') => (Throw e, st')
    end.

(** [try { c } catch (error) { handler error }]. *)
Definition tryCatch {A} (c : M A) (handler : Thrown -> M A) : M A :=
  fun st =>
    match c st with
    | (Normal a, st') => (Normal a, st')
    | (Throw e, st') => handler e st'
    end.

Definition lift {A} (r : Completion A) : M A := fun st => (r, st).

Definition emit (ev : Event) : M unit :=
  fun st =>
    (Normal tt,
     {| ai := ai st; requests := requests st; draws := draws st;
        trace := trace st ++ [ev] |}).

Declare Scope js_scope.
Delimit Scope js_scope with js.
Notation "x <- c ;; k" := (bind c (fun x => k))
  (at level 61, c at next level, right associativity) : js_scope.
Notation "c ;; k" := (bind c (fun _ => k))
  (at level 61, right associativity) : js_scope.
Local Open Scope js_scope.

(** [await new Promise(resolve => setTimeout(resolve, ms))]. *)
Definition sleep (ms : Q) : M unit := emit (SetTimeout ms).

(** Line 304: [(1000 * attempt) + Math.random() * 1000]. *)
Definition backoff (attempt : nat) (r : Q) : Q :=
  (inject_Z (1000 * Z.of_nat attempt) + r * inject_Z 1000)%Q.

Definition prefixes_length : Z := 5.
Definition variations_length : Z := 5.

Record FullInterviewPrep : Type := {
  fip_roleCategory : RoleCategory;
  fip_generalQuestions : JsValue;
  fip_technicalQuestions : JsValue;
  fip_codingChallenges : JsValue;
  fip_machineCoding : JsValue
}.

Record RandomizedPrepSet : Type := {
  rps_roleCategory : RoleCategory;
  rps_generalQuestions : JsValue;
  rps_technicalQuestions : JsValue;
  rps_systemDesignQuestions : JsValue;
  rps_codingChallenges : JsValue;
  rps_machineCoding : JsValue
}.

Record GroundingSource : Type := { uri : string; title : string }.

Record CompanyInsights : Type := {
  ci_content : string;
  ci_sources : list GroundingSource
}.

Inductive DifficultyLevel : Type := Fresher | Junior | MidLevel | Senior.

Record Chat : Type := {
  chat_client : GoogleGenAI;
  chat_model : string;
  chat_systemInstruction : string
}.

(** ** The service ([src/services/geminiService.ts]) *)

Section Service.

Variable W : World.

(** [Math.random()]: the next draw. *)
Definition random : M Q :=
  fun st =>
    (Normal (Math_random W (draws st)),
     {| ai := ai st; requests := requests st; draws := S (draws st);
        trace := trace st |}).

(** [await client.models.generateContent(request)]: the request goes out,
    and the service rejects it or answers. *)
Definition generateContent (client : GoogleGenAI) (request : Request) : M Response :=
  fun st =>
    let st' := {| ai := ai st; requests := S (requests st); draws := draws st;
                  trace := trace st ++ [NetworkRequest request] |} in
    match service W (requests st) with
    | Rejects e => (Throw e, st')
    | Responds r => (Normal r, st')
    end.

(** [JSON.parse(jsonText)]. *)
Definition parse (jsonText : string) : M JsValue :=
  emit (JsonParse jsonText) ;; lift (JSON_parse W jsonText).

(** Line 26: [process.env.API_KEY || process.env.GEMINI_API_KEY], the first
    of the two that is a non-empty string. *)
Definition API_KEY : option string :=
  if truthy_opt (env_API_KEY W) then env_API_KEY W else env_GEMINI_API_KEY W.

Definition msg_not_configured : string :=
  "API_KEY is not configured. Please ensure GEMINI_API_KEY is set in your .env file.".

(** Lines 20-34: the memoised client, built on first use. *)
Definition getAiClient : M GoogleGenAI :=
  fun st =>
    match ai st with
    | Some client => (Normal client, st)
    | None =>
        match API_KEY with
        | Some key =>
            if negb (truthy_string key) then (Throw (JsError msg_not_configured), st)
            else
              let client := {| apiKey := key |} in
              (Normal client,
               {| ai := Some client; requests := requests st;
                  draws := draws st; trace := trace st |})
        | None => (Throw (JsError msg_not_configured), st)
        end
    end.

(** Lines 73-88: the markers are text for the prompts; what remains of
    building them is the two calls of [Math.random()]. *)
Definition generateUniqueMarkers : M unit :=
  _ <- random ;; _ <- random ;; ret tt.

(** Lines 93-103: [Math.floor(Math.random() * prefixes.length)]. *)
Definition getVariedPromptPrefixes : M Z :=
  r <- random ;; ret (Qfloor (r * inject_Z prefixes_length)).

(** Lines 108-118: [Math.floor(Math.random() * variations.length)]. *)
Definition getContextualVariations : M Z :=
  r <- random ;; ret (Qfloor (r * inject_Z variations_length)).

(** A template literal that calls [getVariedPromptPrefixes()] and then
    [getContextualVariations(contextInfo)]. *)
Definition framedPrompt (t : PromptTemplate) (roleCategory : RoleCategory) : M Prompt :=
  p <- getVariedPromptPrefixes ;;
  f <- getContextualVariations ;;
  ret {| template := t; wording := Some roleCategory; persona := p; framing := Some f |}.

(** A template literal that calls [getVariedPromptPrefixes()] only. *)
Definition plainPrompt (t : PromptTemplate) : M Prompt :=
  p <- getVariedPromptPrefixes ;;
  ret {| template := t; wording := None; persona := p; framing := None |}.

(** Lines 282-293: what one attempt does with the response, the spec's
    [parseAndValidate]. *)
Definition parseResponse (response : Response) : M JsValue :=
  match text response with
  | None => throw (JsError "Empty response from AI service")
  | Some responseText =>
      if negb (truthy_string responseText) then
        throw (JsError "Empty response from AI service")
      else
        let jsonText := trim responseText in
        if negb (startsWith jsonText "{") && negb (startsWith jsonText "[") then
          throw (JsError "Invalid JSON response format")
        else parse jsonText
  end.

(** Lines 265-293: the body of the [try] block, one attempt. *)
Definition attemptOnce (prompt : Prompt) (schema : Schema) : M JsValue :=
  client <- getAiClient ;;
  r1 <- random ;;
  r2 <- random ;;
  r3 <- random ;;
  let uniqueConfig :=
    StructuredConfig schema
      ((9 # 10) + r1 * (3 # 10))%Q
      ((85 # 100) + r2 * (1 # 10))%Q
      (Qfloor (r3 * inject_Z 20) + 30)%Z in
  response <- generateContent client
                {| model := "gemini-2.5-flash"; contents := prompt;
                   config := uniqueConfig |} ;;
  parseResponse response.

(** Lines 263-309: the loop over [attempt = 1 .. maxRetries] and the
    [throw] after it.  [attempts] is what is left of [1 .. maxRetries];
    the [break] of the last attempt leaves the loop for the final [throw]. *)
Fixpoint retryLoop (prompt : Prompt) (schema : Schema) (maxRetries : nat)
    (attempts : list nat) (lastError : Thrown) : M JsValue :=
  match attempts with
  | [] => throw (handleApiError lastError "generateAndParse")
  | attempt :: later =>
      tryCatch (attemptOnce prompt schema)
        (fun error =>
           emit (ConsoleWarn attempt error) ;;
           if attempt =? maxRetries then
             throw (handleApiError error "generateAndParse")
           else
             r <- random ;;
             sleep (backoff attempt r) ;;
             retryLoop prompt schema maxRetries later error)
  end.

Definition generateAndParse (prompt : Prompt) (schema : Schema)
    (maxRetries : nat) (contextId : option string) : M JsValue :=
  retryLoop prompt schema maxRetries (seq 1 maxRetries) JsNull.

(** Line 592: the company name between double quotes (code unit 34). *)
Definition msg_no_insights (companyName : string) : string :=
  ("Unable to generate insights for "
     ++ String (ascii_of_nat 34) companyName
     ++ String (ascii_of_nat 34) EmptyString)%string.

(** [!s?.trim()] for an argument whose type is [string]. *)
Definition blank (s : string) : bool := negb (truthy_string (trim s)).

(** Lines 333-402: the markers and the three prompts, built in this order
    before the first call. *)
Definition fullPrepPrompts (roleCategory : RoleCategory)
    : M (Prompt * Prompt * Prompt) :=
  generateUniqueMarkers ;;
  questionsPrompt <- framedPrompt QuestionsPrompt roleCategory ;;
  challengesPrompt <- framedPrompt ChallengesPrompt roleCategory ;;
  machineCodingPrompt <- framedPrompt MachineCodingPrompt roleCategory ;;
  ret (questionsPrompt, challengesPrompt, machineCodingPrompt).

(** Lines 324-427. *)
Definition generateFullInterviewPrep (jobRole : string)
    (jobDescription resume : option string) : M FullInterviewPrep :=
  if blank jobRole then throw (JsError "Job role is required")
  else
    let roleCategory := getRoleCategory jobRole in
    prompts <- fullPrepPrompts roleCategory ;;
    let '(questionsPrompt, challengesPrompt, machineCodingPrompt) := prompts in
    tryCatch
      (questionsResult <-
         generateAndParse questionsPrompt questionsSchema 2 (Some "questions") ;;
       sleep (inject_Z 2000) ;;
       codingChallengesResult <-
         generateAndParse challengesPrompt codingChallengesSchema 2 (Some "challenges") ;;
       sleep (inject_Z 2000) ;;
       machineCodingResult <-
         generateAndParse machineCodingPrompt machineCodingSchema 2 (Some "machine") ;;
       generalQuestions <- lift (getProp questionsResult "generalQuestions") ;;
       technicalQuestions <- lift (getProp questionsResult "technicalQuestions") ;;
       ret {| fip_roleCategory := roleCategory;
              fip_generalQuestions := js_or generalQuestions (JArray []);
              fip_technicalQuestions := js_or technicalQuestions (JArray []);
              fip_codingChallenges := js_or codingChallengesResult (JArray []);
              fip_machineCoding := js_or machineCodingResult (JObject []) |})
      (fun error => throw (handleApiError error "generateFullInterviewPrep")).

(** Lines 442-496: the markers and the four prompts. *)
Definition randomizedPrompts (roleCategory : RoleCategory)
    : M (Prompt * Prompt * Prompt * Prompt) :=
  generateUniqueMarkers ;;
  questionsPrompt <- framedPrompt RandomQuestionsPrompt roleCategory ;;
  systemDesignPrompt <- framedPrompt SystemDesignPrompt roleCategory ;;
  challengesPrompt <- framedPrompt RandomChallengesPrompt roleCategory ;;
  machineCodingPrompt <- framedPrompt RandomMachineCodingPrompt roleCategory ;;
  ret (questionsPrompt, systemDesignPrompt, challengesPrompt, machineCodingPrompt).

(** Lines 432-523. *)
Definition generateRandomizedPrepSet (jobRole : string)
    (difficulty : DifficultyLevel)
    (jobDescription resume : option string) : M RandomizedPrepSet :=
  if blank jobRole then throw (JsError "Job role is required")
  else
    let roleCategory := getRoleCategory jobRole in
    prompts <- randomizedPrompts roleCategory ;;
    let '(questionsPrompt, systemDesignPrompt, challengesPrompt, machineCodingPrompt) :=
      prompts in
    tryCatch
      (questionsResult <-
         generateAndParse questionsPrompt questionsSchema 2 (Some "random-questions") ;;
       sleep (inject_Z 1500) ;;
       systemDesignResult <-
         generateAndParse systemDesignPrompt systemDesignQuestionsSchema 2 (Some "system-design") ;;
       sleep (inject_Z 1500) ;;
       codingChallengesResult <-
         generateAndParse challengesPrompt codingChallengesSchema 2 (Some "random-challenges") ;;
       sleep (inject_Z 1500) ;;
       machineCodingResult <-
         generateAndParse machineCodingPrompt machineCodingSchema 2 (Some "random-machine") ;;
       generalQuestions <- lift (getProp questionsResult "generalQuestions") ;;
       technicalQuestions <- lift (getProp questionsResult "technicalQuestions") ;;
       ret {| rps_roleCategory := roleCategory;
              rps_generalQuestions := js_or generalQuestions (JArray []);
              rps_technicalQuestions := js_or technicalQuestions (JArray []);
              rps_systemDesignQuestions := js_or systemDesignResult (JArray []);
              rps_codingChallenges := js_or codingChallengesResult (JArray []);
              rps_machineCoding := js_or machineCodingResult (JObject []) |})
      (fun error => throw (handleApiError error "generateRandomizedPrepSet")).

(** Lines 528-554. *)
Definition generateMachineCodingSolution (problemTitle problemDescription : string)
    : M JsValue :=
  if blank problemTitle || blank problemDescription then
    throw (JsError "Both problem title and description are required")
  else
    generateUniqueMarkers ;;
    prompt <- plainPrompt SolutionPrompt ;;
    tryCatch
      (generateAndParse prompt machineCodingSolutionSchema 2 (Some "solution"))
      (fun error => throw (handleApiError error "generateMachineCodingSolution")).

(** Lines 559-610. *)
Definition generateCompanyInsights (companyName : string) : M CompanyInsights :=
  if blank companyName then throw (JsError "Company name is required")
  else
    generateUniqueMarkers ;;
    prompt <- plainPrompt CompanyInsightsPrompt ;;
    tryCatch
      (client <- getAiClient ;;
       response <- generateContent client
                     {| model := "gemini-2.5-flash"; contents := prompt;
                        config := GroundedConfig (8 # 10) |} ;;
       match text response with
       | None => throw (JsError (msg_no_insights companyName))
       | Some content_text =>
           if negb (truthy_string content_text) then
             throw (JsError (msg_no_insights companyName))
           else
             let sources :=
               filter (fun source =>
                         truthy_string (uri source) && truthy_string (title source))
                 (map (fun chunk =>
                         {| uri := match web_uri chunk with
                                   | Some u => u | None => EmptyString end;
                            title := match web_title chunk with
                                     | Some t => t | None => EmptyString end |})
                    (groundingChunks response)) in
             ret {| ci_content := content_text; ci_sources := sources |}
       end)
      (fun error => throw (handleApiError error "generateCompanyInsights")).

(** Lines 615-641. *)
Definition analyzeResume (resume jobDescription : string) : M JsValue :=
  if blank resume || blank jobDescription then
    throw (JsError "Both resume and job description are required")
  else
    generateUniqueMarkers ;;
    prompt <- plainPrompt ResumeAnalysisPrompt ;;
    tryCatch
      (generateAndParse prompt resumeAnalysisSchema 2 (Some "resume-analysis"))
      (fun error => throw (handleApiError error "analyzeResume")).

(** Lines 646-649. *)
Definition createChat (chatModel systemInstruction : string) : M Chat :=
  client <- getAiClient ;;
  ret {| chat_client := client; chat_model := chatModel;
         chat_systemInstruction := systemInstruction |}.

End Service.

(** ** The chat transcripts of the two chat views *)

Module ChatView.

Inductive Role : Type := User | Model.

(** The closure stored under [onRetry]:
    [() => processAIResponse(message, true)], kept by what it captures. *)
Inductive RetryAction : Type :=
  | Resend (message : string).

(** [ChatMessage] of [src/types.ts]. *)
Record ChatMessage : Type := {
  role : Role;
  text : string;
  isError : option bool;
  onRetry : option RetryAction
}.

(** One fragment of a streamed response; [chunk.text] may be [undefined]. *)
Record Chunk : Type := { chunk_text : option string }.

(** What [chat.sendMessageStream] does with one message: the call rejects,
    or a stream yields [chunks] in order and then ends, or fails with
    [failure]. *)
Inductive StreamOutcome : Type :=
  | SendRejected (e : Thrown)
  | Streamed (chunks : list Chunk) (failure : option Thrown).

Definition is_model (r : Role) : bool :=
  match r with Model => true | User => false end.

Definition flag_set (f : option bool) : bool :=
  match f with Some b => b | None => false end.

(** [s + chunk.text]: [undefined] is written out by string concatenation. *)
Definition plus_text (s : string) (t : option string) : string :=
  match t with
  | Some t' => (s ++ t')%string
  | None => (s ++ "undefined")%string
  end.

(** [l[i] = x] on a copy of [l], for an index inside the array. *)
Fixpoint assign {A} (i : nat) (x : A) (l : list A) : list A :=
  match l, i with
  | [], _ => []
  | _ :: rest, O => x :: rest
  | y :: rest, S i' => y :: assign i' x rest
  end.

(** The state updater applied for each chunk (MockInterview 132-143,
    DoubtBuster 285-292).  On an empty transcript the last index is -1,
    [newMessages[-1]] is [undefined], and reading its [role] throws. *)
Definition appendChunk (chunk : Chunk) (prev : list ChatMessage)
    : Completion (list ChatMessage) :=
  let newMessages := prev in
  let lastMessageIndex := length newMessages - 1 in
  match nth_error newMessages lastMessageIndex with
  | None => Throw (JsError "Cannot read properties of undefined (reading 'role')")
  | Some lastMessage =>
      if is_model (role lastMessage) && negb (flag_set (isError lastMessage)) then
        Normal (assign lastMessageIndex
                  {| role := role lastMessage;
                     text := plus_text (text lastMessage) (chunk_text chunk);
                     isError := isError lastMessage;
                     onRetry := onRetry lastMessage |}
                  newMessages)
      else Normal newMessages
  end.

(** [for await (const chunk of result) setMessages(...)]: the updaters run
    in the order of the chunks. *)
Fixpoint streamInto (chunks : list Chunk) (messages : list ChatMessage)
    : Completion (list ChatMessage) :=
  match chunks with
  | [] => Normal messages
  | chunk :: later =>
      match appendChunk chunk messages with
      | Normal messages' => streamInto later messages'
      | Throw e => Throw e
      end
  end.

(** [prev.slice(0, -1)]. *)
Definition dropLast (prev : list ChatMessage) : list ChatMessage := removelast prev.

Definition emptyModelMessage : ChatMessage :=
  {| role := Model; text := EmptyString; isError := None; onRetry := None |}.

(** The message pushed by the [catch] clause; [question] is the sentence the
    view adds after the classified message. *)
Definition errorMessage (view question : string) (error : Thrown) (message : string)
    : ChatMessage :=
  {| role := Model;
     text := (message_of (handleApiError error view) ++ question)%string;
     isError := Some true;
     onRetry := Some (Resend message) |}.

(** The [try] and [catch] of [processAIResponse], on the transcript: the
    empty model message, the chunks, and the error message when the call or
    the stream fails.  A [Throw] is an error raised inside a state updater,
    which no [catch] of the view receives. *)
Definition exchange (view question message : string) (outcome : StreamOutcome)
    (messages : list ChatMessage) : Completion (list ChatMessage) :=
  match outcome with
  | SendRejected e => Normal (messages ++ [errorMessage view question e message])
  | Streamed chunks failure =>
      match streamInto chunks (messages ++ [emptyModelMessage]) with
      | Throw e => Throw e
      | Normal streamed =>
          match failure with
          | None => Normal streamed
          | Some e => Normal (streamed ++ [errorMessage view question e message])
          end
      end
  end.

(** The text of a model message after the chunks of a stream. *)
Definition streamedText (start : string) (chunks : list Chunk) : string :=
  fold_left plus_text (map chunk_text chunks) start.

(** The model message that a stream has written so far. *)
Definition partialMessage (chunks : list Chunk) : ChatMessage :=
  {| role := Model; text := streamedText EmptyString chunks;
     isError := None; onRetry := None |}.

(** A message with its text replaced. *)
Definition withText (m : ChatMessage) (t : string) : ChatMessage :=
  {| role := role m; text := t; isError := isError m; onRetry := onRetry m |}.

(** The last message is one that chunks are appended to. *)
Definition streamable (m : ChatMessage) : bool :=
  is_model (role m) && negb (flag_set (isError m)).

Module MockInterview.

(** The state that [processAIResponse] reads and writes: the [chat],
    [messages] and [isThinking] state variables and the two refs. *)
Record State : Type := {
  chat : option Chat;
  messages : list ChatMessage;
  isThinking : bool;
  processingMessage : bool;
  lastProcessedMessage : string
}.

Definition question : string :=
  " Would you like to retry sending your last message?".

(** MockInterview, lines 102-160, with the outcome of the one
    [sendMessageStream] call it makes. *)
Definition processAIResponse (message : string) (isRetry : bool)
    (outcome : StreamOutcome) (st : State) : Completion State :=
  match chat st with
  | None => Normal st
  | Some _ =>
      if negb isRetry && String.eqb message (lastProcessedMessage st) then Normal st
      else if negb isRetry && processingMessage st then Normal st
      else
        let lastProcessed := if isRetry then lastProcessedMessage st else message in
        let prev := if isRetry then dropLast (messages st) else messages st in
        match exchange "MockInterview.processAIResponse" question message outcome prev with
        | Throw e => Throw e
        | Normal messages' =>
            Normal {| chat := chat st;
                      messages := messages';
                      isThinking := false;
                      processingMessage :=
                        if isRetry then processingMessage st else false;
                      lastProcessedMessage := lastProcessed |}
        end
  end.

(** Calling the closure stored under [onRetry]. *)
Definition retry (action : RetryAction) (outcome : StreamOutcome) (st : State)
    : Completion State :=
  match action with
  | Resend message => processAIResponse message true outcome st
  end.

End MockInterview.

Module DoubtBuster.

Record State : Type := {
  chat : option Chat;
  messages : list ChatMessage;
  isThinking : bool;
  lastProcessedMessage : string
}.

Definition question : string := " Would you like to try that again?".

(** DoubtBuster, lines 274-305. *)
Definition processAIResponse (message : string) (isRetry : bool)
    (outcome : StreamOutcome) (st : State) : Completion State :=
  match chat st with
  | None => Normal st
  | Some _ =>
      if negb isRetry && String.eqb message (lastProcessedMessage st) then Normal st
      else
        let lastProcessed := if isRetry then lastProcessedMessage st else message in
        let prev := if isRetry then dropLast (messages st) else messages st in
        match exchange "DoubtBuster.processAIResponse" question message outcome prev with
        | Throw e => Throw e
        | Normal messages' =>
            Normal {| chat := chat st;
                      messages := messages';
                      isThinking := false;
                      lastProcessedMessage := lastProcessed |}
        end
  end.

Definition retry (action : RetryAction) (outcome : StreamOutcome) (st : State)
    : Completion State :=
  match action with
  | Resend message => processAIResponse message true outcome st
  end.

End DoubtBuster.

End ChatView.

(** ** The views that call the service *)

(** [err instanceof Error ? err.message : fallback], the [catch] of each
    view. *)
Definition errorText (err : Thrown) (fallback : string) : string :=
  match err with
  | JsError message => message
  | _ => fallback
  end.

(** [s.split(sep)] for a separator of one code unit: the pieces between the
    separators, of which there is always at least one. *)
Fixpoint split (sep : ascii) (s : string) : list string :=
  match s with
  | EmptyString => [EmptyString]
  | String c rest =>
      if Ascii.eqb c sep then EmptyString :: split sep rest
      else
        match split sep rest with
        | piece :: pieces => String c piece :: pieces
        | [] => [String c EmptyString]
        end
  end.

Definition isSome {A} (o : option A) : bool :=
  match o with Some _ => true | None => false end.

(** *** The root component ([App]) and the sidebar ([Tabs.tsx])

    An [async] handler is modelled from its call to the settling of the
    promise it awaits, with no other handler in between: the part before
    the [await] reads the state, the part after it only calls setters. *)
Module App.

Inductive Tab : Type :=
  | TabHome | TabQA | TabPracticalChallenges | TabCompanyInsights
  | TabMockInterview | TabDreamCompany | TabResumeAnalyzer | TabDoubtBuster
  | TabUserManual.

Definition Tab_eqb (a b : Tab) : bool :=
  match a, b with
  | TabHome, TabHome | TabQA, TabQA
  | TabPracticalChallenges, TabPracticalChallenges
  | TabCompanyInsights, TabCompanyInsights
  | TabMockInterview, TabMockInterview | TabDreamCompany, TabDreamCompany
  | TabResumeAnalyzer, TabResumeAnalyzer | TabDoubtBuster, TabDoubtBuster
  | TabUserManual, TabUserManual => true
  | _, _ => false
  end.

(** The state variables of [App], lines 32-47. *)
Record View : Type := {
  jobRole : string;
  jobDescription : string;
  resume : string;
  prepData : option FullInterviewPrep;
  isLoading : bool;
  isRefreshing : bool;
  error : option string;
  activeTab : Tab;
  qaKey : nat;
  codingKey : nat
}.

Definition initialView : View :=
  {| jobRole := EmptyString; jobDescription := EmptyString; resume := EmptyString;
     prepData := None; isLoading := false; isRefreshing := false; error := None;
     activeTab := TabHome; qaKey := 0; codingKey := 0 |}.

Definition setPrepData (x : option FullInterviewPrep) (a : View) : View :=
  {| jobRole := jobRole a; jobDescription := jobDescription a; resume := resume a;
     prepData := x; isLoading := isLoading a; isRefreshing := isRefreshing a;
     error := error a; activeTab := activeTab a; qaKey := qaKey a;
     codingKey := codingKey a |}.

Definition setIsLoading (x : bool) (a : View) : View :=
  {| jobRole := jobRole a; jobDescription := jobDescription a; resume := resume a;
     prepData := prepData a; isLoading := x; isRefreshing := isRefreshing a;
     error := error a; activeTab := activeTab a; qaKey := qaKey a;
     codingKey := codingKey a |}.

Definition setIsRefreshing (x : bool) (a : View) : View :=
  {| jobRole := jobRole a; jobDescription := jobDescription a; resume := resume a;
     prepData := prepData a; isLoading := isLoading a; isRefreshing := x;
     error := error a; activeTab := activeTab a; qaKey := qaKey a;
     codingKey := codingKey a |}.

Definition setError (x : option string) (a : View) : View :=
  {| jobRole := jobRole a; jobDescription := jobDescription a; resume := resume a;
     prepData := prepData a; isLoading := isLoading a; isRefreshing := isRefreshing a;
     error := x; activeTab := activeTab a; qaKey := qaKey a;
     codingKey := codingKey a |}.

Definition setActiveTab (x : Tab) (a : View) : View :=
  {| jobRole := jobRole a; jobDescription := jobDescription a; resume := resume a;
     prepData := prepData a; isLoading := isLoading a; isRefreshing := isRefreshing a;
     error := error a; activeTab := x; qaKey := qaKey a;
     codingKey := codingKey a |}.

Definition setQaKey (f : nat -> nat) (a : View) : View :=
  {| jobRole := jobRole a; jobDescription := jobDescription a; resume := resume a;
     prepData := prepData a; isLoading := isLoading a; isRefreshing := isRefreshing a;
     error := error a; activeTab := activeTab a; qaKey := f (qaKey a);
     codingKey := codingKey a |}.

Definition setCodingKey (f : nat -> nat) (a : View) : View :=
  {| jobRole := jobRole a; jobDescription := jobDescription a; resume := resume a;
     prepData := prepData a; isLoading := isLoading a; isRefreshing := isRefreshing a;
     error := error a; activeTab := activeTab a; qaKey := qaKey a;
     codingKey := f (codingKey a) |}.

(** Lines 75-91: what [handleGenerate] does once the promise has settled. *)
Definition handleGenerate_settled (outcome : Completion FullInterviewPrep) (a : View)
    : View :=
  setIsLoading false
    match outcome with
    | Normal data =>
        setActiveTab TabQA
          (setCodingKey (fun k => k + 1) (setQaKey (fun k => k + 1)
             (setPrepData (Some data) a)))
    | Throw err => setError (Some (errorText err "An unknown error occurred.")) a
    end.

(** Lines 113-126: the same for [handleRefresh]. *)
Definition handleRefresh_settled (outcome : Completion FullInterviewPrep) (a : View)
    : View :=
  setIsRefreshing false
    match outcome with
    | Normal data =>
        setCodingKey (fun k => k + 1) (setQaKey (fun k => k + 1)
          (setPrepData (Some data) a))
    | Throw err =>
        setError (Some (errorText err "An unknown error occurred while refreshing.")) a
    end.

Section Handlers.

Variable W : World.

(** Lines 65-92. *)
Definition handleGenerate (a : View) (st : State) : View * State :=
  if blank (jobRole a) then (setError (Some "Please enter a job role.") a, st)
  else
    let pending := setPrepData None (setError None (setIsLoading true a)) in
    let run := generateFullInterviewPrep W (jobRole a) (Some (jobDescription a))
                 (Some (resume a)) st in
    (handleGenerate_settled (fst run) pending, snd run).

(** Lines 107-127. *)
Definition handleRefresh (a : View) (st : State) : View * State :=
  if blank (jobRole a) then (a, st)
  else
    let pending := setError None (setIsRefreshing true a) in
    let run := generateFullInterviewPrep W (jobRole a) (Some (jobDescription a))
                 (Some (resume a)) st in
    (handleRefresh_settled (fst run) pending, snd run).

End Handlers.

(** What [renderContent] (lines 133-185) puts on the page, by component and
    the props that depend on the state. *)
Inductive Screen : Type :=
  | Home (isLoading : bool) (error : option string)
  | DoubtBuster
  | ResumeAnalyzerView
  | DreamCompanyView
  | CompanyInsightsView (jobRole : string)
  | MockInterview
  | UserManual
  | LoadingSpinner
  | ErrorMessage (message : string)
  | Nothing
  | InterviewPrepDisplay (generalQuestions technicalQuestions : JsValue)
      (contentKey : nat) (isRefreshing : bool)
  | CodingChallengeDisplay (challenges machineCoding : JsValue)
      (roleCategory : RoleCategory) (contentKey : nat) (isRefreshing : bool).

Definition renderContent (a : View) : Screen :=
  match activeTab a with
  | TabHome => Home (isLoading a) (error a)
  | TabDoubtBuster => DoubtBuster
  | TabResumeAnalyzer => ResumeAnalyzerView
  | TabDreamCompany => DreamCompanyView
  | TabCompanyInsights => CompanyInsightsView (jobRole a)
  | TabMockInterview => MockInterview
  | TabUserManual => UserManual
  | tab =>
      if isLoading a then LoadingSpinner
      else
        match prepData a with
        | None =>
            match error a with
            | Some message => if truthy_string message then ErrorMessage message else Nothing
            | None => Nothing
            end
        | Some data =>
            match tab with
            | TabQA =>
                InterviewPrepDisplay (fip_generalQuestions data)
                  (fip_technicalQuestions data) (qaKey a) (isRefreshing a)
            | TabPracticalChallenges =>
                CodingChallengeDisplay (fip_codingChallenges data)
                  (fip_machineCoding data) (fip_roleCategory data) (codingKey a)
                  (isRefreshing a)
            | _ => Nothing
            end
        end
  end.

(** [Tabs.tsx], line 24. *)
Definition ALWAYS_ENABLED_TABS : list Tab :=
  [TabHome; TabMockInterview; TabDreamCompany; TabCompanyInsights;
   TabResumeAnalyzer; TabDoubtBuster; TabUserManual].

(** [Tabs.tsx], line 64. *)
Definition isDisabled (disabled : bool) (name : Tab) : bool :=
  disabled && negb (existsb (Tab_eqb name) ALWAYS_ENABLED_TABS).

(** The [disabled] prop that [App] gives the sidebar, line 194. *)
Definition disabled (a : View) : bool :=
  negb (isSome (prepData a)) && negb (isLoading a).

End App.

(** *** The randomized practice view ([RandomizeChallengesView.tsx]) *)
Module DreamCompanyView.

Definition difficultyName (diff : DifficultyLevel) : string :=
  match diff with
  | Fresher => "Fresher"
  | Junior => "Junior"
  | MidLevel => "Mid-Level"
  | Senior => "Senior"
  end.

(** Lines 27-39. *)
Record View : Type := {
  data : option RandomizedPrepSet;
  isLoading : bool;
  error : option string;
  contentKey : nat;
  jobRoleInput : string;
  difficulty : DifficultyLevel;
  generatedFor : option string;
  lastGeneratedParams : option (string * DifficultyLevel)
}.

Definition initialView : View :=
  {| data := None; isLoading := false; error := None; contentKey := 0;
     jobRoleInput := EmptyString; difficulty := Fresher; generatedFor := None;
     lastGeneratedParams := None |}.

(** Line 57: [`${role} (${diff})`]. *)
Definition label (role : string) (diff : DifficultyLevel) : string :=
  (role ++ " (" ++ difficultyName diff ++ ")")%string.

Section Handlers.

Variable W : World.

(** Lines 46-69. *)
Definition generateSet (role : string) (diff : DifficultyLevel) (v : View)
    (st : State) : View * State :=
  if blank role then
    ({| data := data v; isLoading := isLoading v;
        error := Some "Please enter a job role to generate a practice set.";
        contentKey := contentKey v; jobRoleInput := jobRoleInput v;
        difficulty := difficulty v; generatedFor := generatedFor v;
        lastGeneratedParams := lastGeneratedParams v |}, st)
  else
    let run := generateRandomizedPrepSet W role diff None None st in
    (match fst run with
     | Normal result =>
         {| data := Some result; isLoading := false; error := None;
            contentKey := contentKey v + 1; jobRoleInput := jobRoleInput v;
            difficulty := difficulty v; generatedFor := Some (label role diff);
            lastGeneratedParams := Some (role, diff) |}
     | Throw err =>
         {| data := None; isLoading := false;
            error := Some (errorText err
                             "An unknown error occurred while generating challenges.");
            contentKey := contentKey v; jobRoleInput := jobRoleInput v;
            difficulty := difficulty v; generatedFor := generatedFor v;
            lastGeneratedParams := lastGeneratedParams v |}
     end, snd run).

(** Lines 71-74. *)
Definition handleSubmit (v : View) (st : State) : View * State :=
  generateSet (jobRoleInput v) (difficulty v) v st.

(** Lines 76-78. *)
Definition handleRetry (v : View) (st : State) : View * State :=
  generateSet (jobRoleInput v) (difficulty v) v st.

(** Lines 80-84. *)
Definition handleRefresh (v : View) (st : State) : View * State :=
  match lastGeneratedParams v with
  | Some (role, diff) => generateSet role diff v st
  | None => (v, st)
  end.

(** What the user can do to the view: type in the job role box, pick a
    difficulty, and set off one of the three handlers. *)
Inductive Action : Type :=
  | TypeJobRole (value : string)
  | PickDifficulty (level : DifficultyLevel)
  | Submit
  | Retry
  | Refresh.

Definition step (action : Action) (v : View) (st : State) : View * State :=
  match action with
  | TypeJobRole value =>
      ({| data := data v; isLoading := isLoading v; error := error v;
          contentKey := contentKey v; jobRoleInput := value;
          difficulty := difficulty v; generatedFor := generatedFor v;
          lastGeneratedParams := lastGeneratedParams v |}, st)
  | PickDifficulty level =>
      ({| data := data v; isLoading := isLoading v; error := error v;
          contentKey := contentKey v; jobRoleInput := jobRoleInput v;
          difficulty := level; generatedFor := generatedFor v;
          lastGeneratedParams := lastGeneratedParams v |}, st)
  | Submit => handleSubmit v st
  | Retry => handleRetry v st
  | Refresh => handleRefresh v st
  end.

Fixpoint session (actions : list Action) (v : View) (st : State) : View * State :=
  match actions with
  | [] => (v, st)
  | action :: later =>
      let next := step action v st in
      session later (fst next) (snd next)
  end.

End Handlers.

(** What holds of the view between two actions: it is not loading; a set on
    screen was generated for the remembered role, whose category it has; the
    remembered role is not blank and the heading names it and its
    difficulty; before the first success there is no heading and the
    content key is 0; and an error is the view's own sentence or a sentence
    of the classifier. *)
Definition consistent (v : View) : Prop :=
  isLoading v = false /\
  (forall set,
      data v = Some set ->
      exists role diff,
        lastGeneratedParams v = Some (role, diff) /\
        rps_roleCategory set = getRoleCategory role) /\
  (forall role diff,
      lastGeneratedParams v = Some (role, diff) ->
      blank role = false /\ generatedFor v = Some (label role diff)) /\
  (lastGeneratedParams v = None -> generatedFor v = None /\ contentKey v = 0) /\
  (forall message,
      error v = Some message ->
      message = "Please enter a job role to generate a practice set." \/
      exists e0, message = handleApiError_message e0).

End DreamCompanyView.

(** *** The resume analyzer ([ResumeAnalyzerView]) *)
Module ResumeAnalyzerView.

(** The state variables that [handleAnalyze] reads and writes. *)
Record View : Type := {
  resume : string;
  jobDescription : string;
  analysis : option JsValue;
  isLoading : bool;
  error : option string
}.

Section Handlers.

Variable W : World.

(** Lines 118-138. *)
Definition handleAnalyze (v : View) (st : State) : View * State :=
  if blank (resume v) || blank (jobDescription v) then
    ({| resume := resume v; jobDescription := jobDescription v;
        analysis := analysis v; isLoading := isLoading v;
        error := Some "Please paste both your resume and the job description." |}, st)
  else
    let run := analyzeResume W (resume v) (jobDescription v) st in
    (match fst run with
     | Normal result =>
         {| resume := resume v; jobDescription := jobDescription v;
            analysis := Some result; isLoading := false; error := None |}
     | Throw err =>
         {| resume := resume v; jobDescription := jobDescription v;
            analysis := None; isLoading := false;
            error := Some (errorText err "An unknown error occurred while analyzing.") |}
     end, snd run).

End Handlers.

End ResumeAnalyzerView.

(** *** The company insights view ([CompanyInsightsView]) *)
Module CompanyInsightsView.

(** Lines 32-39. *)
Definition extractCompanyName (role : string) : string :=
  if negb (truthy_string role) then EmptyString
  else
    let parts := split "@" role in
    if 1 <? length parts then
      match nth_error parts 1 with
      | Some part => trim part
      | None => EmptyString
      end
    else EmptyString.

(** Lines 42-46. *)
Record View : Type := {
  insights : option CompanyInsights;
  isLoading : bool;
  error : option string;
  searchTerm : string;
  searchedCompany : string
}.

Definition initialView : View :=
  {| insights := None; isLoading := false; error := None;
     searchTerm := EmptyString; searchedCompany := EmptyString |}.

Section Handlers.

Variable W : World.

(** Lines 52-70. *)
Definition fetchInsights (name : string) (v : View) (st : State) : View * State :=
  if negb (truthy_string name) then (v, st)
  else
    let run := generateCompanyInsights W name st in
    (match fst run with
     | Normal result =>
         {| insights := Some result; isLoading := false; error := None;
            searchTerm := searchTerm v; searchedCompany := name |}
     | Throw err =>
         {| insights := None; isLoading := false;
            error := Some (errorText err
                             "An unknown error occurred while fetching company insights.");
            searchTerm := searchTerm v; searchedCompany := name |}
     end, snd run).

(** Lines 76-88: the effect that runs when the [jobRole] prop changes. *)
Definition jobRoleChanged (jobRole : string) (v : View) (st : State) : View * State :=
  let name := extractCompanyName jobRole in
  let v1 := {| insights := insights v; isLoading := isLoading v; error := error v;
               searchTerm := name; searchedCompany := searchedCompany v |} in
  if truthy_string name then fetchInsights name v1 st
  else
    ({| insights := None; isLoading := false; error := None;
        searchTerm := name; searchedCompany := EmptyString |}, st).

(** Lines 91-94. *)
Definition handleSearch (v : View) (st : State) : View * State :=
  fetchInsights (searchTerm v) v st.

(** Lines 97-101. *)
Definition handleRetry (v : View) (st : State) : View * State :=
  if truthy_string (searchedCompany v) then fetchInsights (searchedCompany v) v st
  else (v, st).

End Handlers.

End CompanyInsightsView.

(** *** The message forms of the two chat views *)
Module ChatForm.

Import ChatView.

Definition userMessage (t : string) : ChatMessage :=
  {| role := User; text := t; isError := None; onRetry := None |}.

Module MockInterview.

Import ChatView.MockInterview.

(** MockInterview, lines 282-292, with the text in the input box and the
    outcome of the [sendMessageStream] call; the result is the state and
    the text left in the box. *)
Definition handleSendMessage (userInput : string) (outcome : StreamOutcome)
    (st : State) : Completion (State * string) :=
  if blank userInput || isThinking st || negb (isSome (chat st)) || processingMessage st
  then Normal (st, userInput)
  else
    let messageToSend := userInput in
    let newUserMessage := userMessage messageToSend in
    match processAIResponse messageToSend false outcome
            {| chat := chat st;
               messages := messages st ++ [newUserMessage];
               isThinking := isThinking st;
               processingMessage := processingMessage st;
               lastProcessedMessage := lastProcessedMessage st |} with
    | Normal st' => Normal (st', EmptyString)
    | Throw e => Throw e
    end.

End MockInterview.

Module DoubtBuster.

Import ChatView.DoubtBuster.

(** DoubtBuster, lines 393-400. *)
Definition handleSendMessage (userInput : string) (outcome : StreamOutcome)
    (st : State) : Completion (State * string) :=
  if blank userInput || isThinking st || negb (isSome (chat st))
  then Normal (st, userInput)
  else
    let newUserMessage := userMessage userInput in
    match processAIResponse (text newUserMessage) false outcome
            {| chat := chat st;
               messages := messages st ++ [newUserMessage];
               isThinking := isThinking st;
               lastProcessedMessage := lastProcessedMessage st |} with
    | Normal st' => Normal (st', EmptyString)
    | Throw e => Throw e
    end.

(** Line 381: the prompt of the "Explain This" feature. *)
Definition explainPrompt (textToExplain : string) : string :=
  ("Can you please explain the following clearly?"
     ++ String (ascii_of_nat 10) (String (ascii_of_nat 10) "---")
     ++ String (ascii_of_nat 10) textToExplain
     ++ String (ascii_of_nat 10) "---")%string.

(** Lines 378-387: the effect on [textToExplain], from a state in which no
    explanation is being processed; the result is the state and the new
    [textToExplain]. *)
Definition explainThis (textToExplain : option string) (outcome : StreamOutcome)
    (st : State) : Completion (State * option string) :=
  match textToExplain with
  | None => Normal (st, textToExplain)
  | Some t =>
      if truthy_string t && isSome (chat st) then
        let prompt := explainPrompt t in
        match processAIResponse prompt false outcome
                {| chat := chat st;
                   messages := messages st ++ [userMessage prompt];
                   isThinking := isThinking st;
                   lastProcessedMessage := lastProcessedMessage st |} with
        | Normal st' => Normal (st', None)
        | Throw e => Throw e
        end
      else Normal (st, textToExplain)
  end.

End DoubtBuster.

End ChatForm.

(** *** The machine coding round ([MachineCodingRound], CodingChallengeDisplay)

    The problem statement is a parsed value that nothing has compared with
    its schema, so the two arguments of the call are values, not
    necessarily strings. *)
Module MachineCodingRound.

(** [v?.trim()] as lines 529-531 of the service evaluate it: [undefined]
    on [undefined] and [null], the trimmed text of a string, and a
    [TypeError] on every other value, none of which has a [trim] method. *)
Definition optionalTrim (name : string) (v : JsValue) : Completion (option string) :=
  match v with
  | JUndefined | JNull => Normal None
  | JString s => Normal (Some (trim s))
  | _ => Throw (JsError (name ++ "?.trim is not a function")%string)
  end.

(** A value in which the test of the service finds nothing: [undefined],
    [null] or a string of white space. *)
Definition blankValue (v : JsValue) : bool :=
  match v with
  | JUndefined | JNull => true
  | JString s => blank s
  | _ => false
  end.

Record View : Type := {
  solution : option JsValue;
  isFetching : bool;
  error : option string
}.

Section Handlers.

Variable W : World.

(** [generateMachineCodingSolution(problemTitle, problemDescription)] for
    arguments that are values: the test of lines 529-531, left to right,
    and the function on strings once both are strings. *)
Definition generateMachineCodingSolution_of (problemTitle problemDescription : JsValue)
    : M JsValue :=
  t <- lift (optionalTrim "problemTitle" problemTitle) ;;
  if negb (truthy_opt t) then
    throw (JsError "Both problem title and description are required")
  else
    d <- lift (optionalTrim "problemDescription" problemDescription) ;;
    if negb (truthy_opt d) then
      throw (JsError "Both problem title and description are required")
    else
      match problemTitle, problemDescription with
      | JString title, JString description =>
          generateMachineCodingSolution W title description
      | _, _ => throw (JsError "Both problem title and description are required")
      end.

(** Lines 298-313 of the component. *)
Definition handleShowSolution (machineCoding : JsValue) (v : View) (st : State)
    : View * State :=
  let run :=
    (title <- lift (getProp machineCoding "title") ;;
     problem <- lift (getProp machineCoding "problem") ;;
     generateMachineCodingSolution_of title problem) st in
  (match fst run with
   | Normal result => {| solution := Some result; isFetching := false; error := None |}
   | Throw err =>
       {| solution := solution v; isFetching := false;
          error := Some (errorText err
                           "Couldn't fetch the solution. The AI might be busy, please try again.") |}
   end, snd run).

End Handlers.

End MachineCodingRound.

(** ** A reference engine

    The theorems below hold for every [JSON_parse] a world may carry.  The
    concrete worlds of the examples carry this reader of the JSON grammar
    (ECMA-404) over strings of code units below 256; an escape [\uXXXX]
    above that range is outside the strings of the embedding and is
    refused.  The message of the [SyntaxError] is the engine's own choice
    in JavaScript; the reference engine uses one fixed message. *)

Module JsonText.

Local Open Scope char_scope.

Definition is_ws (c : ascii) : bool :=
  match c with
  | " " | "009" | "010" | "013" => true
  | _ => false
  end.

Fixpoint skip_ws (s : string) : string :=
  match s with
  | String c rest => if is_ws c then skip_ws rest else s
  | EmptyString => EmptyString
  end.

Definition digit_value (c : ascii) : option Z :=
  let n := nat_of_ascii c in
  if ((48 <=? n) && (n <=? 57))%nat then Some (Z.of_nat (n - 48)) else None.

Definition hex_value (c : ascii) : option nat :=
  let n := nat_of_ascii c in
  if ((48 <=? n) && (n <=? 57))%nat then Some (n - 48)%nat
  else if ((97 <=? n) && (n <=? 102))%nat then Some (n - 87)%nat
  else if ((65 <=? n) && (n <=? 70))%nat then Some (n - 55)%nat
  else None.

(** The digits at the head of [s]: their value after [acc], how many there
    are, and what follows them. *)
Fixpoint digits (s : string) (acc : Z) (count : nat) : Z * nat * string :=
  match s with
  | String c rest =>
      match digit_value c with
      | Some d => digits rest (10 * acc + d)%Z (S count)
      | None => (acc, count, s)
      end
  | EmptyString => (acc, count, s)
  end.

(** [int]: a single [0], or a digit from 1 to 9 and the digits after it. *)
Definition int_part (s : string) : option (Z * string) :=
  match s with
  | String "0" rest => Some (0%Z, rest)
  | String c _ =>
      match digit_value c with
      | Some _ => let '(v, _, rest) := digits s 0%Z 0%nat in Some (v, rest)
      | None => None
      end
  | EmptyString => None
  end.

(** [frac]: nothing, or a point and at least one digit.  The result is the
    numerator and the number of decimal places. *)
Definition frac_part (s : string) : option (Z * nat * string) :=
  match s with
  | String "." rest =>
      match digits rest 0%Z 0%nat with
      | (_, O, _) => None
      | (v, n, rest') => Some (v, n, rest')
      end
  | _ => Some (0%Z, 0%nat, s)
  end.

(** [exp]: nothing, or [e] or [E], an optional sign and at least one digit. *)
Definition exp_part (s : string) : option (Z * string) :=
  let signed (negative : bool) (rest : string) :=
    match digits rest 0%Z 0%nat with
    | (_, O, _) => None
    | (v, _, rest') => Some (if negative then (- v)%Z else v, rest')
    end in
  match s with
  | String c rest =>
      if (Ascii.eqb c "e" || Ascii.eqb c "E")%bool then
        match rest with
        | String "-" rest' => signed true rest'
        | String "+" rest' => signed false rest'
        | _ => signed false rest
        end
      else Some (0%Z, s)
  | EmptyString => Some (0%Z, s)
  end.

Definition pow10 (n : Z) : Q := Qpower (inject_Z 10) n.

Definition number (s : string) : option (Q * string) :=
  let '(negative, s1) :=
    match s with
    | String "-" rest => (true, rest)
    | _ => (false, s)
    end in
  match int_part s1 with
  | None => None
  | Some (i, s2) =>
      match frac_part s2 with
      | None => None
      | Some (f, places, s3) =>
          match exp_part s3 with
          | None => None
          | Some (e, s4) =>
              let magnitude :=
                ((inject_Z i + inject_Z f * pow10 (- Z.of_nat places))
                 * pow10 e)%Q in
              Some (if negative then (- magnitude)%Q else magnitude, s4)
          end
      end
  end.

(** The characters of a string after its opening quote, up to the closing
    one. *)
Fixpoint string_body (s : string) : option (string * string) :=
  let cons (c : ascii) (r : option (string * string)) :=
    match r with
    | Some (body, rest) => Some (String c body, rest)
    | None => None
    end in
  match s with
  | EmptyString => None
  | String "034" rest => Some (EmptyString, rest)
  | String "092" (String e rest) =>
      match e with
      | "034" => cons "034" (string_body rest)
      | "092" => cons "092" (string_body rest)
      | "/" => cons "/" (string_body rest)
      | "b" => cons "008" (string_body rest)
      | "f" => cons "012" (string_body rest)
      | "n" => cons "010" (string_body rest)
      | "r" => cons "013" (string_body rest)
      | "t" => cons "009" (string_body rest)
      | "u" =>
          match rest with
          | String h1 (String h2 (String h3 (String h4 rest'))) =>
              match hex_value h1, hex_value h2, hex_value h3, hex_value h4 with
              | Some 0%nat, Some 0%nat, Some a, Some b =>
                  cons (ascii_of_nat (16 * a + b)) (string_body rest')
              | _, _, _, _ => None
              end
          | _ => None
          end
      | _ => None
      end
  | String "092" EmptyString => None
  | String c rest =>
      if (nat_of_ascii c <? 32)%nat then None else cons c (string_body rest)
  end.

Definition literal (word : string) (v : JsValue) (s : string)
    : option (JsValue * string) :=
  if String.prefix word s
  then Some (v, substring (String.length word) (String.length s - String.length word) s)
  else None.

Fixpoint value (fuel : nat) (s : string) {struct fuel} : option (JsValue * string) :=
  match fuel with
  | O => None
  | S fuel' =>
      match skip_ws s with
      | String "{" rest =>
          match skip_ws rest with
          | String "}" rest' => Some (JObject [], rest')
          | _ =>
              match members fuel' rest with
              | Some (props, rest') => Some (JObject props, rest')
              | None => None
              end
          end
      | String "[" rest =>
          match skip_ws rest with
          | String "]" rest' => Some (JArray [], rest')
          | _ =>
              match elements fuel' rest with
              | Some (items, rest') => Some (JArray items, rest')
              | None => None
              end
          end
      | String "034" rest =>
          match string_body rest with
          | Some (body, rest') => Some (JString body, rest')
          | None => None
          end
      | String "t" _ as s' => literal "true" (JBool true) s'
      | String "f" _ as s' => literal "false" (JBool false) s'
      | String "n" _ as s' => literal "null" JNull s'
      | s' =>
          match number s' with
          | Some (q, rest) => Some (JNumber q, rest)
          | None => None
          end
      end
  end

with elements (fuel : nat) (s : string) {struct fuel} : option (list JsValue * string) :=
  match fuel with
  | O => None
  | S fuel' =>
      match value fuel' s with
      | Some (v, rest) =>
          match skip_ws rest with
          | String "," rest' =>
              match elements fuel' rest' with
              | Some (vs, rest'') => Some (v :: vs, rest'')
              | None => None
              end
          | String "]" rest' => Some ([v], rest')
          | _ => None
          end
      | None => None
      end
  end

with members (fuel : nat) (s : string) {struct fuel}
    : option (list (string * JsValue) * string) :=
  match fuel with
  | O => None
  | S fuel' =>
      match skip_ws s with
      | String "034" rest =>
          match string_body rest with
          | Some (key, rest1) =>
              match skip_ws rest1 with
              | String ":" rest2 =>
                  match value fuel' rest2 with
                  | Some (v, rest3) =>
                      match skip_ws rest3 with
                      | String "," rest4 =>
                          match members fuel' rest4 with
                          | Some (props, rest5) => Some ((key, v) :: props, rest5)
                          | None => None
                          end
                      | String "}" rest4 => Some ([(key, v)], rest4)
                      | _ => None
                      end
                  | None => None
                  end
              | _ => None
              end
          | None => None
          end
      | _ => None
      end
  end.

(** A JSON text: one value with white space around it and nothing else. *)
Definition read (s : string) : option JsValue :=
  match value (2 * String.length s + 2) s with
  | Some (v, rest) =>
      match skip_ws rest with
      | EmptyString => Some v
      | _ => None
      end
  | None => None
  end.

End JsonText.

Definition reference_JSON_parse (jsonText : string) : Completion JsValue :=
  match JsonText.read jsonText with
  | Some v => Normal v
  | None => Throw (JsError "Unexpected token in JSON")
  end.

(** ** Reading a run *)

(** The state after [await new Promise(resolve => setTimeout(resolve, ms))]. *)
Definition slept (ms : Q) (st : State) : State := snd (sleep ms st).

(** The state after the [console.warn] of a failed attempt. *)
Definition warned (attempt : nat) (error : Thrown) (st : State) : State :=
  snd (emit (ConsoleWarn attempt error) st).

(** The state after the jitter is drawn and the back-off wait is over. *)
Definition backedOff (W : World) (attempt : nat) (st : State) : State :=
  snd ((r <- random W ;; sleep (backoff attempt r)) st).

(** The attempt numbers of the warnings among some events, and the waits
    among them, in order. *)
Definition warnings (evs : list Event) : list nat :=
  flat_map (fun ev => match ev with ConsoleWarn a _ => [a] | _ => [] end) evs.

Definition timeouts (evs : list Event) : list Q :=
  flat_map (fun ev => match ev with SetTimeout ms => [ms] | _ => [] end) evs.

Definition network (evs : list Event) : list Request :=
  flat_map (fun ev => match ev with NetworkRequest r => [r] | _ => [] end) evs.

Definition parsed (evs : list Event) : list string :=
  flat_map (fun ev => match ev with JsonParse t => [t] | _ => [] end) evs.

(** The milliseconds asked of the timers among some events, added up. *)
Definition waited (evs : list Event) : Q :=
  fold_right Qplus 0%Q (timeouts evs).

(** The state after [n] more calls of [Math.random()]. *)
Definition drawn (n : nat) (st : State) : State :=
  {| ai := ai st; requests := requests st; draws := n + draws st;
     trace := trace st |}.

(** A run from [st] that throws an [Error] with the given message and has
    sent no request to the service. *)
Definition fails_unsent {A} (run : Completion A * State) (st : State)
    (sentence : string) : Prop :=
  fst run = Throw (JsError sentence) /\
  requests (snd run) = requests st /\
  network (added (trace st) (trace (snd run))) = [].


(** No credential in the configuration. *)
Definition credential_absent (W : World) : Prop :=
  truthy_opt (API_KEY W) = false.

(** ** Concrete worlds for the examples *)

Definition says (t : string) : Reply :=
  Responds {| text := Some t; groundingChunks := [] |}.

(** A world with the reference engine in which the service gives the
    listed replies in turn and [fallback] after them, and every random draw
    is one half. *)
Definition scripted (key : option string) (replies : list Reply) (fallback : Reply)
    : World :=
  {| env_API_KEY := None;
     env_GEMINI_API_KEY := key;
     JSON_parse := reference_JSON_parse;
     service := fun n => nth n replies fallback;
     Math_random := fun _ => (1 # 2)%Q |}.

(** The prompts that [fullPrepPrompts] builds for a tech role when every
    random draw is one half: the third of the five personas and framings. *)
Definition halfPrompt (t : PromptTemplate) : Prompt :=
  {| template := t; wording := Some tech; persona := 2%Z; framing := Some 2%Z |}.

(** A grounded answer with three chunks, of which only the first has both a
    uri and a title. *)
Definition groundedAnswer : Reply :=
  Responds
    {| text := Some "Acme builds rockets.";
       groundingChunks :=
         [ {| web_uri := Some "https://acme.example/about"; web_title := Some "About Acme" |};
           {| web_uri := Some "https://acme.example/news"; web_title := None |};
           {| web_uri := None; web_title := None |} ] |}.

Definition overloaded : Reply := Rejects (JsError "503 Service Unavailable").

Definition aPrompt : Prompt :=
  {| template := SolutionPrompt; wording := None; persona := 0%Z; framing := None |}.

(** A chat session and the state of each view in the middle of a
    conversation, for the examples. *)
Definition aChat : Chat :=
  {| chat_client := {| apiKey := "key" |};
     chat_model := "gemini-2.5-flash";
     chat_systemInstruction := "You are an expert interviewer." |}.

Definition userSays (t : string) : ChatView.ChatMessage :=
  {| ChatView.role := ChatView.User; ChatView.text := t;
     ChatView.isError := None; ChatView.onRetry := None |}.

Definition modelSays (t : string) : ChatView.ChatMessage :=
  {| ChatView.role := ChatView.Model; ChatView.text := t;
     ChatView.isError := None; ChatView.onRetry := None |}.

Definition fragment (t : string) : ChatView.Chunk :=
  {| ChatView.chunk_text := Some t |}.

Definition interviewInProgress : ChatView.MockInterview.State :=
  {| ChatView.MockInterview.chat := Some aChat;
     ChatView.MockInterview.messages :=
       [modelSays "Tell me about yourself."; userSays "I build compilers."];
     ChatView.MockInterview.isThinking := false;
     ChatView.MockInterview.processingMessage := false;
     ChatView.MockInterview.lastProcessedMessage := EmptyString |}.

Definition doubtInProgress : ChatView.DoubtBuster.State :=
  {| ChatView.DoubtBuster.chat := Some aChat;
     ChatView.DoubtBuster.messages :=
       [modelSays "What are you confused about?"; userSays "What is a monad?"];
     ChatView.DoubtBuster.isThinking := false;
     ChatView.DoubtBuster.lastProcessedMessage := EmptyString |}.

(** * Properties *)

(** ** Strings *)

Arguments startsWith : simpl never.

Lemma startsWith_iff (s p : string) :
  startsWith s p = true <-> exists post, s = (p ++ post)%string.
Proof.
  unfold startsWith. revert s. induction p as [|a p IH]; intros s; simpl.
  - split; [intros _; now exists s | intros _; now destruct s].
  - destruct s as [|b s]; simpl.
    + split; [discriminate | intros [post H]; discriminate].
    + destruct (ascii_dec a b) as [->|Hab].
      * rewrite IH. split; intros [post H]; exists post.
        -- now rewrite H.
        -- now injection H.
      * split; [discriminate | intros [post H]; injection H; intros _ E].
        now elim Hab.
Qed.

Lemma includes_iff (s p : string) :
  includes s p = true <-> exists pre post, s = (pre ++ p ++ post)%string.
Proof.
  split.
  - induction s as [|c s IH]; simpl; rewrite orb_true_iff; intros [H|H].
    + apply startsWith_iff in H as [post H]. now exists EmptyString, post.
    + discriminate.
    + apply startsWith_iff in H as [post H]. now exists EmptyString, post.
    + destruct (IH H) as (pre & post & E).
      exists (String c pre), post. simpl. now rewrite E.
  - intros (pre & post & E). subst s.
    induction pre as [|c pre IH]; simpl.
    + assert (H : startsWith (p ++ post) p = true)
        by (apply startsWith_iff; now exists post).
      destruct (p ++ post)%string; simpl; rewrite H; reflexivity.
    + rewrite IH. apply orb_true_r.
Qed.

Lemma toLowerCase_app (a b : string) :
  toLowerCase (a ++ b) = (toLowerCase a ++ toLowerCase b)%string.
Proof. induction a as [|c a IH]; simpl; [reflexivity | now rewrite IH]. Qed.

(** A split of the lowered string comes from a split of the string. *)
Lemma toLowerCase_split (s a b : string) :
  toLowerCase s = (a ++ b)%string ->
  exists a' b', s = (a' ++ b')%string /\ toLowerCase a' = a /\ toLowerCase b' = b.
Proof.
  revert s. induction a as [|c a IH]; intros s H; simpl in H.
  - exists EmptyString, s. auto.
  - destruct s as [|d s]; simpl in H; [discriminate|].
    injection H as Hc Hs. destruct (IH s Hs) as (a' & b' & E & Ha & Hb).
    exists (String d a'), b'. simpl. subst. auto.
Qed.

Lemma keywords_are_lowercase (kw : string) :
  In kw contentKeywords -> toLowerCase kw = kw.
Proof.
  unfold contentKeywords. simpl.
  intros H. repeat (destruct H as [<-|H]; [reflexivity|]). contradiction.
Qed.

(** [includes] on the lowered string is occurrence with case disregarded. *)
Lemma includes_lowered_iff (s kw : string) :
  toLowerCase kw = kw ->
  (includes (toLowerCase s) kw = true <-> occurs_ignoring_case kw s).
Proof.
  intros Hkw. rewrite includes_iff. unfold occurs_ignoring_case. split.
  - intros (pre & post & E).
    apply toLowerCase_split in E as (pre' & rest & E & Hpre & Hrest).
    apply toLowerCase_split in Hrest as (mid & post' & E' & Hmid & Hpost).
    exists pre', mid, post'. subst. now rewrite Hkw.
  - intros (pre & mid & post & E & Hmid).
    exists (toLowerCase pre), (toLowerCase post).
    subst s. rewrite !toLowerCase_app, Hmid, Hkw. reflexivity.
Qed.

Lemma existsb_keyword_iff (jobRole : string) :
  existsb (fun kw => includes (toLowerCase jobRole) kw) contentKeywords = true
  <-> names_content_domain jobRole.
Proof.
  rewrite existsb_exists. unfold names_content_domain.
  split; intros (kw & Hin & H); exists kw; split; auto;
    now apply (includes_lowered_iff jobRole kw (keywords_are_lowercase kw Hin)).
Qed.

(** C2. [getRoleCategory] is a function of the job-role string alone, and it
    answers [content] exactly for the strings in which one of the content
    keywords occurs as a substring with letter case disregarded, and [tech]
    exactly for all the others (the empty string among them). *)
Theorem getRoleCategory_by_keyword (jobRole : string) :
  (getRoleCategory jobRole = content <-> names_content_domain jobRole) /\
  (getRoleCategory jobRole = tech <-> ~ names_content_domain jobRole).
Proof.
  unfold getRoleCategory. rewrite <- existsb_keyword_iff.
  destruct (existsb _ contentKeywords); split; split; intros H;
    try reflexivity; try discriminate; congruence.
Qed.

Lemma getRoleCategory_by_keyword_witness :
  names_content_domain "Senior Content WRITER" /\
  getRoleCategory "Senior Content WRITER" = content /\
  ~ names_content_domain "React Developer" /\
  getRoleCategory "React Developer" = tech.
Proof.
  pose proof (getRoleCategory_by_keyword "Senior Content WRITER") as [[H1 _] _].
  pose proof (getRoleCategory_by_keyword "React Developer") as [_ [H2 _]].
  split; [apply H1; reflexivity|].
  split; [reflexivity|].
  split; [apply H2; reflexivity | reflexivity].
Defined.

(** ** The error classifier *)

Lemma includes_literal_iff (message kw : string) :
  toLowerCase kw = kw ->
  (includes (toLowerCase message) kw = false <-> ~ occurs_ignoring_case kw message).
Proof.
  intros Hkw. rewrite <- (includes_lowered_iff message kw Hkw).
  destruct (includes (toLowerCase message) kw); split; intros H;
    try reflexivity; try discriminate; try congruence.
Qed.

Ltac classify_cases :=
  repeat match goal with
         | |- context [if ?b then _ else _] => destruct b eqn:?
         end.

(** C4. [handleApiError] is a total function that returns an [Error] with a
    non-empty message, which is one of six fixed sentences or, in the
    catch-all category, the words "Unexpected error: " before the original
    message.  With the first matching rule winning and letter case
    disregarded: a message in which "quota" or "429" occurs, and "api key
    not valid" does not, gets the quota sentence; a message in which
    "safety" occurs, and no pattern of an earlier rule does, gets the
    safety sentence; an error with no message gets the sentence of the
    unavailable service. *)
Theorem handleApiError_classifies (error : Thrown) (context : string) :
  (exists sentence,
      handleApiError error context = JsError sentence /\ sentence <> EmptyString) /\
  (In (handleApiError_message error) fixed_sentences \/
   handleApiError_message error = msg_unexpected (message_of error)) /\
  (~ occurs_ignoring_case "api key not valid" (message_of error) ->
   occurs_ignoring_case "quota" (message_of error) \/
   occurs_ignoring_case "429" (message_of error) ->
   handleApiError error context = JsError msg_quota) /\
  (~ occurs_ignoring_case "api key not valid" (message_of error) ->
   ~ occurs_ignoring_case "quota" (message_of error) ->
   ~ occurs_ignoring_case "429" (message_of error) ->
   ~ occurs_ignoring_case "400" (message_of error) ->
   ~ occurs_ignoring_case "500" (message_of error) ->
   ~ occurs_ignoring_case "503" (message_of error) ->
   occurs_ignoring_case "safety" (message_of error) ->
   handleApiError error context = JsError msg_safety) /\
  (message_of error = EmptyString ->
   handleApiError error context = JsError msg_unavailable).
Proof.
  unfold handleApiError.
  split; [|split; [|split; [|split]]].
  - eexists; split; [reflexivity|].
    destruct error as [m| |]; simpl; classify_cases; discriminate.
  - destruct error as [m| |]; simpl; classify_cases;
      unfold fixed_sentences; simpl; tauto.
  - intros Hkey Hq.
    assert (Hq' : includes (toLowerCase (message_of error)) "quota" = true \/
                  includes (toLowerCase (message_of error)) "429" = true).
    { destruct Hq as [H|H]; [left|right];
        now apply includes_lowered_iff. }
    apply includes_literal_iff in Hkey; [|reflexivity].
    destruct error as [m| |]; simpl in *;
      try (destruct Hq' as [H|H]; discriminate H).
    destruct m as [|c m]; [destruct Hq' as [H|H]; discriminate H|].
    cbn [truthy_string]. rewrite Hkey.
    destruct Hq' as [H|H]; rewrite H; [reflexivity|].
    now rewrite orb_true_r.
  - intros Hkey Hquota H429 H400 H500 H503 Hs.
    apply includes_lowered_iff in Hs; [|reflexivity].
    apply includes_literal_iff in Hkey, Hquota, H429, H400, H500, H503;
      try reflexivity.
    destruct error as [m| |]; simpl in *; try discriminate Hs.
    destruct m as [|c m]; [discriminate Hs|].
    cbn [truthy_string].
    now rewrite Hkey, Hquota, H429, H400, H500, H503, Hs.
  - intros Hm. destruct error as [m| |]; simpl in *; try reflexivity.
    now subst m.
Qed.

Lemma handleApiError_classifies_witness :
  handleApiError (JsError "Got status 429 Too Many Requests") "generateAndParse"
    = JsError msg_quota /\
  handleApiError (JsError "Blocked: Safety") "generateAndParse"
    = JsError msg_safety /\
  handleApiError (JsError EmptyString) "generateAndParse"
    = JsError msg_unavailable.
Proof.
  split; [|split].
  - apply (handleApiError_classifies
             (JsError "Got status 429 Too Many Requests") "generateAndParse").
    + apply includes_literal_iff; reflexivity.
    + right. apply includes_lowered_iff; reflexivity.
  - apply (handleApiError_classifies (JsError "Blocked: Safety") "generateAndParse");
      try (apply includes_literal_iff; reflexivity).
    apply includes_lowered_iff; reflexivity.
  - apply (handleApiError_classifies (JsError EmptyString) "generateAndParse").
    reflexivity.
Defined.

(** ** The parse step *)

Lemma trim_allWhiteSpace (s : string) :
  allWhiteSpace s = true -> trim s = EmptyString.
Proof.
  unfold trim. induction s as [|c s IH]; simpl; [reflexivity|].
  rewrite andb_true_iff. intros [Hc Hs]. rewrite Hc. auto.
Qed.

Lemma added_same (evs : list Event) : added evs evs = [].
Proof. unfold added. apply skipn_all. Qed.

Lemma added_app (before evs : list Event) : added before (before ++ evs) = evs.
Proof.
  unfold added. induction before as [|ev before IH]; simpl; auto.
Qed.

(** The prefix test: a text that is not empty and, trimmed, begins with
    neither a brace nor a bracket is refused before [JSON.parse]. *)
Lemma parseResponse_prefix_test (W : World) (response : Response) (raw : string)
    (st : State) :
  text response = Some raw ->
  raw <> EmptyString ->
  startsWith (trim raw) "{" = false ->
  startsWith (trim raw) "[" = false ->
  parseResponse W response st = (Throw (JsError "Invalid JSON response format"), st).
Proof.
  intros Htext Hraw Hbrace Hbracket.
  unfold parseResponse. rewrite Htext.
  destruct raw as [|c raw]; [congruence|].
  cbn [truthy_string negb]. rewrite Hbrace, Hbracket. reflexivity.
Qed.

(** C5, as the code has it.  For every non-empty raw response text whose
    trimmed form begins with neither an opening brace nor an opening
    bracket (a text of white space only among them), the parse step throws
    the malformed-format error and leaves the state as it was: [JSON.parse]
    is not called, whatever the engine.  The empty text is taken by the
    guard before it and gets the empty-response error. *)
Theorem parseResponse_malformed (W : World) (response : Response) (raw : string)
    (st : State) :
  text response = Some raw ->
  raw <> EmptyString ->
  startsWith (trim raw) "{" = false ->
  startsWith (trim raw) "[" = false ->
  parseResponse W response st = (Throw (JsError "Invalid JSON response format"), st) /\
  parsed (added (trace st) (trace (snd (parseResponse W response st)))) = [].
Proof.
  intros Htext Hraw Hbrace Hbracket.
  rewrite (parseResponse_prefix_test W response raw st Htext Hraw Hbrace Hbracket).
  split; [reflexivity|]. cbn [snd]. now rewrite added_same.
Qed.

Lemma parseResponse_malformed_witness :
  parseResponse (scripted (Some "key") [] overloaded)
    {| text := Some "Here is your JSON: {}"; groundingChunks := [] |} initial
  = (Throw (JsError "Invalid JSON response format"), initial).
Proof.
  apply (parseResponse_malformed (scripted (Some "key") [] overloaded)
           {| text := Some "Here is your JSON: {}"; groundingChunks := [] |}
           "Here is your JSON: {}" initial);
    [reflexivity | discriminate | reflexivity | reflexivity].
Defined.

(** C5 as stated fails at the empty text: trimmed, it begins with neither
    character, and the parse step throws the empty-response error. *)
Lemma parseResponse_empty_text_is_not_malformed :
  startsWith (trim EmptyString) "{" = false /\
  startsWith (trim EmptyString) "[" = false /\
  fst (parseResponse (scripted (Some "key") [] overloaded)
         {| text := Some EmptyString; groundingChunks := [] |} initial)
  = Throw (JsError "Empty response from AI service") /\
  fst (parseResponse (scripted (Some "key") [] overloaded)
         {| text := Some EmptyString; groundingChunks := [] |} initial)
  <> Throw (JsError "Invalid JSON response format").
Proof.
  repeat split; try reflexivity. discriminate.
Qed.

(** C6, as the code has it.  A response with no text, or with the empty
    text, makes the parse step throw the empty-response error; a non-empty
    text of white space only passes that guard, trims to the empty string
    and gets the malformed-format error.  Either way the state is left as
    it was. *)
Theorem parseResponse_empty_or_blank (W : World) (response : Response) (st : State) :
  (text response = None \/ text response = Some EmptyString ->
   parseResponse W response st
   = (Throw (JsError "Empty response from AI service"), st)) /\
  (forall raw,
      text response = Some raw -> raw <> EmptyString -> allWhiteSpace raw = true ->
      parseResponse W response st
      = (Throw (JsError "Invalid JSON response format"), st)).
Proof.
  split.
  - intros [H|H]; unfold parseResponse; rewrite H; reflexivity.
  - intros raw Htext Hraw Hws.
    apply (parseResponse_prefix_test W response raw st Htext Hraw);
      rewrite (trim_allWhiteSpace raw Hws); reflexivity.
Qed.

Lemma parseResponse_empty_or_blank_witness :
  parseResponse (scripted (Some "key") [] overloaded)
    {| text := Some EmptyString; groundingChunks := [] |} initial
  = (Throw (JsError "Empty response from AI service"), initial) /\
  parseResponse (scripted (Some "key") [] overloaded)
    {| text := Some "   "; groundingChunks := [] |} initial
  = (Throw (JsError "Invalid JSON response format"), initial).
Proof.
  split.
  - apply (parseResponse_empty_or_blank (scripted (Some "key") [] overloaded)
             {| text := Some EmptyString; groundingChunks := [] |} initial).
    right. reflexivity.
  - apply (proj2 (parseResponse_empty_or_blank (scripted (Some "key") [] overloaded)
                    {| text := Some "   "; groundingChunks := [] |} initial) "   ");
      [reflexivity | discriminate | reflexivity].
Defined.

(** C6 as stated fails at a text of one space: it consists of white space
    only, and the parse step throws the malformed-format error, not the
    empty-response error. *)
Lemma parseResponse_blank_text_is_not_empty :
  allWhiteSpace " " = true /\
  fst (parseResponse (scripted (Some "key") [] overloaded)
         {| text := Some " "; groundingChunks := [] |} initial)
  = Throw (JsError "Invalid JSON response format") /\
  fst (parseResponse (scripted (Some "key") [] overloaded)
         {| text := Some " "; groundingChunks := [] |} initial)
  <> Throw (JsError "Empty response from AI service").
Proof.
  repeat split; try reflexivity. discriminate.
Qed.

(** ** Running the monad *)

Lemma bind_normal {A B} (c : M A) (k : A -> M B) (st st' : State) (a : A) :
  c st = (Normal a, st') -> bind c k st = k a st'.
Proof. unfold bind. now intros ->. Qed.

Lemma bind_throw {A B} (c : M A) (k : A -> M B) (st st' : State) (e : Thrown) :
  c st = (Throw e, st') -> bind c k st = (Throw e, st').
Proof. unfold bind. now intros ->. Qed.

Lemma tryCatch_normal {A} (c : M A) (h : Thrown -> M A) (st st' : State) (a : A) :
  c st = (Normal a, st') -> tryCatch c h st = (Normal a, st').
Proof. unfold tryCatch. now intros ->. Qed.

Lemma tryCatch_throw {A} (c : M A) (h : Thrown -> M A) (st st' : State) (e : Thrown) :
  c st = (Throw e, st') -> tryCatch c h st = h e st'.
Proof. unfold tryCatch. now intros ->. Qed.

Lemma sleep_run (ms : Q) (st : State) : sleep ms st = (Normal tt, slept ms st).
Proof. reflexivity. Qed.

Lemma warn_run (attempt : nat) (e : Thrown) (st : State) :
  emit (ConsoleWarn attempt e) st = (Normal tt, warned attempt e st).
Proof. reflexivity. Qed.


Lemma trace_warned (attempt : nat) (e : Thrown) (st : State) :
  trace (warned attempt e st) = trace st ++ [ConsoleWarn attempt e].
Proof. reflexivity. Qed.


Lemma trace_backedOff (W : World) (attempt : nat) (st : State) :
  trace (backedOff W attempt st)
  = trace st ++ [SetTimeout (backoff attempt (Math_random W (draws st)))].
Proof. reflexivity. Qed.

Lemma warnings_app (a b : list Event) : warnings (a ++ b) = warnings a ++ warnings b.
Proof. apply flat_map_app. Qed.

Lemma timeouts_app (a b : list Event) : timeouts (a ++ b) = timeouts a ++ timeouts b.
Proof. apply flat_map_app. Qed.


(** ** One attempt *)

Lemma getAiClient_trace (W : World) (st : State) :
  trace (snd (getAiClient W st)) = trace st.
Proof.
  unfold getAiClient.
  destruct (ai st); [reflexivity|].
  destruct (API_KEY W) as [key|]; [|reflexivity].
  destruct (negb (truthy_string key)); reflexivity.
Qed.

Lemma parseResponse_trace (W : World) (response : Response) (st : State) :
  exists evs,
    trace (snd (parseResponse W response st)) = trace st ++ evs /\
    warnings evs = [] /\ timeouts evs = [].
Proof.
  unfold parseResponse, parse, bind, emit, lift, throw.
  destruct (text response) as [raw|];
    [|exists []; rewrite app_nil_r; now auto].
  destruct (negb (truthy_string raw));
    [exists []; rewrite app_nil_r; now auto|].
  destruct (negb (startsWith (trim raw) "{") && negb (startsWith (trim raw) "["));
    [exists []; rewrite app_nil_r; now auto|].
  eexists [_]. cbn [snd trace]. now auto.
Qed.

(** An attempt sends at most one request and parses at most one text; it
    writes no warning and sets no timer. *)
Lemma attemptOnce_trace (W : World) (prompt : Prompt) (schema : Schema) (st : State) :
  exists evs,
    trace (snd (attemptOnce W prompt schema st)) = trace st ++ evs /\
    warnings evs = [] /\ timeouts evs = [].
Proof.
  unfold attemptOnce.
  pose proof (getAiClient_trace W st) as Ht.
  unfold bind at 1.
  destruct (getAiClient W st) as [[client|e] s1]; cbn [snd] in Ht;
    [|exists []; cbn [snd]; rewrite app_nil_r; now auto].
  unfold bind, random, generateContent. cbn [requests draws trace ai].
  destruct (service W (requests s1)) as [e|r].
  - eexists [_]. cbn [snd trace]. rewrite Ht. now auto.
  - match goal with
    | |- context [parseResponse W r ?s] =>
        destruct (parseResponse_trace W r s) as (evs & Hevs & Hw & Ht')
    end.
    eexists (_ :: evs). rewrite Hevs. cbn [trace]. rewrite Ht, <- app_assoc.
    split; [reflexivity | split; [exact Hw | exact Ht']].
Qed.

(** ** The retry loop *)

Section Retry.

Variable W : World.
Variables (prompt : Prompt) (schema : Schema) (maxRetries : nat).

Lemma retryLoop_success (attempt : nat) (later : list nat) (lastError : Thrown)
    (st st1 : State) (v : JsValue) :
  attemptOnce W prompt schema st = (Normal v, st1) ->
  retryLoop W prompt schema maxRetries (attempt :: later) lastError st
  = (Normal v, st1).
Proof. intros H. cbn [retryLoop]. now apply tryCatch_normal. Qed.

Lemma retryLoop_last_failure (later : list nat) (lastError : Thrown)
    (st st1 : State) (e : Thrown) :
  attemptOnce W prompt schema st = (Throw e, st1) ->
  retryLoop W prompt schema maxRetries (maxRetries :: later) lastError st
  = (Throw (handleApiError e "generateAndParse"), warned maxRetries e st1).
Proof.
  intros H. cbn [retryLoop]. rewrite (tryCatch_throw _ _ _ _ _ H).
  rewrite (bind_normal _ _ _ _ _ (warn_run maxRetries e st1)).
  now rewrite Nat.eqb_refl.
Qed.

Lemma retryLoop_failure (attempt : nat) (later : list nat) (lastError : Thrown)
    (st st1 : State) (e : Thrown) :
  attemptOnce W prompt schema st = (Throw e, st1) ->
  attempt <> maxRetries ->
  retryLoop W prompt schema maxRetries (attempt :: later) lastError st
  = retryLoop W prompt schema maxRetries later e
      (backedOff W attempt (warned attempt e st1)).
Proof.
  intros H Hne. cbn [retryLoop]. rewrite (tryCatch_throw _ _ _ _ _ H).
  rewrite (bind_normal _ _ _ _ _ (warn_run attempt e st1)).
  apply Nat.eqb_neq in Hne. rewrite Hne. reflexivity.
Qed.

End Retry.

Lemma backoff_bounds (k : nat) (r : Q) :
  (0 <= r)%Q -> (r < 1)%Q ->
  (inject_Z (1000 * Z.of_nat k) <= backoff k r)%Q /\
  (backoff k r < inject_Z (1000 * Z.of_nat k) + 1000)%Q.
Proof.
  intros H0 H1. unfold backoff.
  change (inject_Z 1000) with 1000%Q. split; lra.
Qed.

Lemma backoff_step (k : nat) :
  (inject_Z (1000 * Z.of_nat (S k)) == inject_Z (1000 * Z.of_nat k) + 1000)%Q.
Proof.
  rewrite Nat2Z.inj_succ, <- Z.add_1_r, Z.mul_add_distr_l, inject_Z_plus.
  reflexivity.
Qed.

Lemma backoff_monotone (k : nat) (r r' : Q) :
  (0 <= r)%Q -> (r < 1)%Q -> (0 <= r')%Q -> (r' < 1)%Q ->
  (backoff k r <= backoff (S k) r')%Q.
Proof.
  intros H0 H1 H0' H1'.
  destruct (backoff_bounds k r H0 H1) as [_ Hup].
  destruct (backoff_bounds (S k) r' H0' H1') as [Hlo _].
  rewrite backoff_step in Hlo. lra.
Qed.



Lemma scripted_random_in_unit (key : option string) (replies : list Reply)
    (fallback : Reply) :
  random_in_unit (scripted key replies fallback).
Proof. intros n. cbn. split; lra. Qed.


(** The same run, computed: two requests, two warnings, one wait of 1500 ms,
    and the sentence of the unavailable service. *)
Example generateAndParse_overloaded_run :
  let run := generateAndParse (scripted (Some "key") [] overloaded) aPrompt
               machineCodingSolutionSchema 2 (Some "solution") initial in
  fst run = Throw (JsError msg_service_unavailable) /\
  requests (snd run) = 2 /\
  warnings (trace (snd run)) = [1; 2] /\
  timeouts (trace (snd run)) = [backoff 1 (1 # 2)].
Proof. repeat split. Qed.

(** ** Building the prompts *)

Lemma fullPrepPrompts_run (W : World) (roleCategory : RoleCategory) (st : State) :
  exists questionsPrompt challengesPrompt machineCodingPrompt,
    fullPrepPrompts W roleCategory st
    = (Normal (questionsPrompt, challengesPrompt, machineCodingPrompt), drawn 8 st).
Proof. do 3 eexists. reflexivity. Qed.

Lemma randomizedPrompts_run (W : World) (roleCategory : RoleCategory) (st : State) :
  exists questionsPrompt systemDesignPrompt challengesPrompt machineCodingPrompt,
    randomizedPrompts W roleCategory st
    = (Normal (questionsPrompt, systemDesignPrompt, challengesPrompt,
               machineCodingPrompt), drawn 10 st).
Proof. do 4 eexists. reflexivity. Qed.

Lemma plainPrompt_after_markers_run {A} (W : World) (t : PromptTemplate)
    (k : Prompt -> M A) (st : State) :
  exists prompt,
    (generateUniqueMarkers W ;; prompt <- plainPrompt W t ;; k prompt) st
    = k prompt (drawn 3 st).
Proof. eexists. reflexivity. Qed.

(** ** A missing credential *)

Section MissingCredential.

Variable W : World.
Hypothesis absent : credential_absent W.

Lemma getAiClient_absent (st : State) :
  ai st = None -> getAiClient W st = (Throw (JsError msg_not_configured), st).
Proof.
  intros Hai. unfold getAiClient. rewrite Hai.
  unfold credential_absent in absent.
  destruct (API_KEY W) as [key|]; [|reflexivity].
  cbn in absent. now rewrite absent.
Qed.

Lemma attemptOnce_absent (prompt : Prompt) (schema : Schema) (st : State) :
  ai st = None ->
  attemptOnce W prompt schema st = (Throw (JsError msg_not_configured), st).
Proof.
  intros Hai. unfold attemptOnce.
  now rewrite (bind_throw _ _ _ _ _ (getAiClient_absent st Hai)).
Qed.

(** Without a credential [generateAndParse] sends nothing and throws the
    catch-all sentence around the configuration error. *)
Lemma generateAndParse_absent (prompt : Prompt) (schema : Schema)
    (contextId : option string) (st : State) :
  ai st = None ->
  exists st' evs,
    generateAndParse W prompt schema 2 contextId st
    = (Throw (JsError (msg_unexpected msg_not_configured)), st') /\
    ai st' = None /\ requests st' = requests st /\
    trace st' = trace st ++ evs /\ network evs = [].
Proof.
  intros Hai. unfold generateAndParse. cbn [seq].
  rewrite (retryLoop_failure W prompt schema 2 1 [2] JsNull st st _
             (attemptOnce_absent prompt schema st Hai)) by discriminate.
  rewrite (retryLoop_last_failure W prompt schema 2 [] _ _ _ _
             (attemptOnce_absent prompt schema
                (backedOff W 1 (warned 1 (JsError msg_not_configured) st)) Hai)).
  do 2 eexists. split; [reflexivity|].
  split; [exact Hai|]. split; [reflexivity|].
  cbn [trace warned backedOff emit sleep bind random snd draws].
  rewrite <- !app_assoc. split; reflexivity.
Qed.

End MissingCredential.

Lemma fails_unsent_intro {A} (run : Completion A * State) (st st' : State)
    (sentence : string) (evs : list Event) :
  run = (Throw (JsError sentence), st') ->
  requests st' = requests st ->
  trace st' = trace st ++ evs ->
  network evs = [] ->
  fails_unsent run st sentence.
Proof.
  intros -> Hreq Htrace Hnet. unfold fails_unsent. cbn [fst snd].
  rewrite Htrace, added_app. auto.
Qed.

(** C9, as the code has it.  With no credential configured and no client
    built yet, each generation function called with the inputs it requires
    fails with a classified error of the catch-all category whose message
    carries the text of the configuration error, and no request is sent to
    the service.  The functions built on [generateAndParse] classify twice
    (once in [generateAndParse], once in their own [catch]);
    [generateCompanyInsights] classifies once; [createChat] throws the
    configuration error as it is. *)
Theorem missing_credential_fails_unsent (W : World) (st : State) :
  credential_absent W ->
  ai st = None ->
  (forall jobRole jobDescription resume,
      blank jobRole = false ->
      fails_unsent (generateFullInterviewPrep W jobRole jobDescription resume st) st
        (msg_unexpected (msg_unexpected msg_not_configured))) /\
  (forall jobRole difficulty jobDescription resume,
      blank jobRole = false ->
      fails_unsent
        (generateRandomizedPrepSet W jobRole difficulty jobDescription resume st) st
        (msg_unexpected (msg_unexpected msg_not_configured))) /\
  (forall problemTitle problemDescription,
      blank problemTitle = false -> blank problemDescription = false ->
      fails_unsent (generateMachineCodingSolution W problemTitle problemDescription st)
        st (msg_unexpected (msg_unexpected msg_not_configured))) /\
  (forall resume jobDescription,
      blank resume = false -> blank jobDescription = false ->
      fails_unsent (analyzeResume W resume jobDescription st) st
        (msg_unexpected (msg_unexpected msg_not_configured))) /\
  (forall companyName,
      blank companyName = false ->
      fails_unsent (generateCompanyInsights W companyName st) st
        (msg_unexpected msg_not_configured)) /\
  (forall chatModel systemInstruction,
      createChat W chatModel systemInstruction st
      = (Throw (JsError msg_not_configured), st)).
Proof.
  intros Habsent Hai.
  split; [|split; [|split; [|split; [|split]]]].
  - intros jobRole jd resume Hblank. unfold generateFullInterviewPrep.
    rewrite Hblank.
    destruct (fullPrepPrompts_run W (getRoleCategory jobRole) st)
      as (q & c & m & Hp).
    rewrite (bind_normal _ _ _ _ _ Hp). cbv beta iota zeta.
    destruct (generateAndParse_absent W Habsent q questionsSchema
                (Some "questions") (drawn 8 st) Hai)
      as (st' & evs & Hrun & _ & Hreq & Htrace & Hnet).
    rewrite (tryCatch_throw _ _ _ _ _ (bind_throw _ _ _ _ _ Hrun)).
    now apply (fails_unsent_intro _ st st' _ evs).
  - intros jobRole difficulty jd resume Hblank. unfold generateRandomizedPrepSet.
    rewrite Hblank.
    destruct (randomizedPrompts_run W (getRoleCategory jobRole) st)
      as (q & d & c & m & Hp).
    rewrite (bind_normal _ _ _ _ _ Hp). cbv beta iota zeta.
    destruct (generateAndParse_absent W Habsent q questionsSchema
                (Some "random-questions") (drawn 10 st) Hai)
      as (st' & evs & Hrun & _ & Hreq & Htrace & Hnet).
    rewrite (tryCatch_throw _ _ _ _ _ (bind_throw _ _ _ _ _ Hrun)).
    now apply (fails_unsent_intro _ st st' _ evs).
  - intros title description Ht Hd. unfold generateMachineCodingSolution.
    rewrite Ht, Hd. cbn [orb].
    match goal with
    | |- fails_unsent ((_ ;; p <- plainPrompt W ?t ;; @?k p) st) _ _ =>
        destruct (plainPrompt_after_markers_run W t k st) as (prompt & ->)
    end.
    destruct (generateAndParse_absent W Habsent prompt machineCodingSolutionSchema
                (Some "solution") (drawn 3 st) Hai)
      as (st' & evs & Hrun & _ & Hreq & Htrace & Hnet).
    rewrite (tryCatch_throw _ _ _ _ _ Hrun).
    now apply (fails_unsent_intro _ st st' _ evs).
  - intros resume jd Hr Hj. unfold analyzeResume.
    rewrite Hr, Hj. cbn [orb].
    match goal with
    | |- fails_unsent ((_ ;; p <- plainPrompt W ?t ;; @?k p) st) _ _ =>
        destruct (plainPrompt_after_markers_run W t k st) as (prompt & ->)
    end.
    destruct (generateAndParse_absent W Habsent prompt resumeAnalysisSchema
                (Some "resume-analysis") (drawn 3 st) Hai)
      as (st' & evs & Hrun & _ & Hreq & Htrace & Hnet).
    rewrite (tryCatch_throw _ _ _ _ _ Hrun).
    now apply (fails_unsent_intro _ st st' _ evs).
  - intros companyName Hc. unfold generateCompanyInsights. rewrite Hc.
    match goal with
    | |- fails_unsent ((_ ;; p <- plainPrompt W ?t ;; @?k p) st) _ _ =>
        destruct (plainPrompt_after_markers_run W t k st) as (prompt & ->)
    end.
    rewrite (tryCatch_throw _ _ _ _ _
               (bind_throw _ _ _ _ _ (getAiClient_absent W Habsent (drawn 3 st) Hai))).
    apply (fails_unsent_intro _ st (drawn 3 st) _ []); try reflexivity.
    cbn [trace drawn]. now rewrite app_nil_r.
  - intros chatModel systemInstruction. unfold createChat.
    now rewrite (bind_throw _ _ _ _ _ (getAiClient_absent W Habsent st Hai)).
Qed.

Lemma missing_credential_fails_unsent_witness :
  fails_unsent
    (generateMachineCodingSolution (scripted None [] overloaded)
       "URL shortener" "Design and build a URL shortener." initial)
    initial (msg_unexpected (msg_unexpected msg_not_configured)) /\
  fails_unsent
    (generateCompanyInsights (scripted None [] overloaded) "Acme" initial)
    initial (msg_unexpected msg_not_configured).
Proof.
  pose proof (missing_credential_fails_unsent (scripted None [] overloaded) initial
                eq_refl eq_refl) as (_ & _ & Hsolution & _ & Hinsights & _).
  split.
  - apply Hsolution; reflexivity.
  - apply Hinsights; reflexivity.
Defined.

(** C9 as stated fails in the functions built on [generateAndParse]: with no
    credential, the configuration error is raised inside the retry loop.
    The call below writes the warnings of two failed attempts and waits
    1500 ms between them before it throws, and what it throws is not the
    sentence of the invalid-credential category. *)
Lemma missing_credential_enters_retry_loop :
  let run := generateMachineCodingSolution (scripted None [] overloaded)
               "URL shortener" "Design and build a URL shortener." initial in
  credential_absent (scripted None [] overloaded) /\
  warnings (trace (snd run))  = [1; 2] /\
  timeouts (trace (snd run)) = [backoff 1 (1 # 2)] /\
  trace (snd run)
  = [ConsoleWarn 1 (JsError msg_not_configured);
     SetTimeout (backoff 1 (1 # 2));
     ConsoleWarn 2 (JsError msg_not_configured)] /\
  fst run <> Throw (JsError msg_invalid_key).
Proof.
  cbv zeta. repeat split. vm_compute. discriminate.
Qed.

(** ** The orchestrators *)

(** Whatever [generateAndParse] throws is an output of the classifier. *)
Lemma retryLoop_throws_classified (W : World) (prompt : Prompt) (schema : Schema)
    (maxRetries : nat) (attempts : list nat) :
  forall lastError st e st',
    retryLoop W prompt schema maxRetries attempts lastError st = (Throw e, st') ->
    exists e0, e = handleApiError e0 "generateAndParse".
Proof.
  induction attempts as [|attempt later IH]; intros lastError st e st' H.
  - injection H as <- _. now exists lastError.
  - cbn [retryLoop] in H. unfold tryCatch in H.
    destruct (attemptOnce W prompt schema st) as [[v|e1] s1]; [discriminate|].
    rewrite (bind_normal _ _ _ _ _ (warn_run attempt e1 s1)) in H.
    destruct (attempt =? maxRetries).
    + injection H as <- _. now exists e1.
    + exact (IH e1 (backedOff W attempt (warned attempt e1 s1)) e st' H).
Qed.

Lemma generateAndParse_throws_classified (W : World) (prompt : Prompt)
    (schema : Schema) (maxRetries : nat) (contextId : option string)
    (st st' : State) (e : Thrown) :
  generateAndParse W prompt schema maxRetries contextId st = (Throw e, st') ->
  exists e0, e = handleApiError e0 "generateAndParse".
Proof. apply retryLoop_throws_classified. Qed.

Ltac run_step H :=
  first [ rewrite (bind_normal _ _ _ _ _ H) | rewrite (bind_throw _ _ _ _ _ H) ].

(** C1.  In both orchestrators, when one of the sequential sub-calls throws
    (which it does only after its attempts are used up, and then it throws
    an output of the classifier), the whole operation throws the
    classifier's output for that error and returns no aggregate: the
    results of the sub-calls that succeeded before it are not part of what
    the caller receives. *)
Theorem orchestrators_fail_as_a_whole (W : World) (st s0 : State)
    (jobRole : string) (jobDescription resume : option string) :
  blank jobRole = false ->
  let call prompt schema contextId :=
    generateAndParse W prompt schema 2 (Some contextId) in
  (forall q c m,
      fullPrepPrompts W (getRoleCategory jobRole) st = (Normal (q, c, m), s0) ->
      let run := generateFullInterviewPrep W jobRole jobDescription resume st in
      (forall e s1,
          call q questionsSchema "questions" s0 = (Throw e, s1) ->
          run = (Throw (handleApiError e "generateFullInterviewPrep"), s1)) /\
      (forall v1 s1 e s2,
          call q questionsSchema "questions" s0 = (Normal v1, s1) ->
          call c codingChallengesSchema "challenges" (slept (inject_Z 2000) s1)
          = (Throw e, s2) ->
          run = (Throw (handleApiError e "generateFullInterviewPrep"), s2)) /\
      (forall v1 s1 v2 s2 e s3,
          call q questionsSchema "questions" s0 = (Normal v1, s1) ->
          call c codingChallengesSchema "challenges" (slept (inject_Z 2000) s1)
          = (Normal v2, s2) ->
          call m machineCodingSchema "machine" (slept (inject_Z 2000) s2)
          = (Throw e, s3) ->
          run = (Throw (handleApiError e "generateFullInterviewPrep"), s3))) /\
  (forall difficulty q d c m,
      randomizedPrompts W (getRoleCategory jobRole) st = (Normal (q, d, c, m), s0) ->
      let run :=
        generateRandomizedPrepSet W jobRole difficulty jobDescription resume st in
      (forall e s1,
          call q questionsSchema "random-questions" s0 = (Throw e, s1) ->
          run = (Throw (handleApiError e "generateRandomizedPrepSet"), s1)) /\
      (forall v1 s1 e s2,
          call q questionsSchema "random-questions" s0 = (Normal v1, s1) ->
          call d systemDesignQuestionsSchema "system-design" (slept (inject_Z 1500) s1)
          = (Throw e, s2) ->
          run = (Throw (handleApiError e "generateRandomizedPrepSet"), s2)) /\
      (forall v1 s1 v2 s2 e s3,
          call q questionsSchema "random-questions" s0 = (Normal v1, s1) ->
          call d systemDesignQuestionsSchema "system-design" (slept (inject_Z 1500) s1)
          = (Normal v2, s2) ->
          call c codingChallengesSchema "random-challenges" (slept (inject_Z 1500) s2)
          = (Throw e, s3) ->
          run = (Throw (handleApiError e "generateRandomizedPrepSet"), s3)) /\
      (forall v1 s1 v2 s2 v3 s3 e s4,
          call q questionsSchema "random-questions" s0 = (Normal v1, s1) ->
          call d systemDesignQuestionsSchema "system-design" (slept (inject_Z 1500) s1)
          = (Normal v2, s2) ->
          call c codingChallengesSchema "random-challenges" (slept (inject_Z 1500) s2)
          = (Normal v3, s3) ->
          call m machineCodingSchema "random-machine" (slept (inject_Z 1500) s3)
          = (Throw e, s4) ->
          run = (Throw (handleApiError e "generateRandomizedPrepSet"), s4))) /\
  (forall prompt schema contextId s e s',
      call prompt schema contextId s = (Throw e, s') ->
      exists e0, e = handleApiError e0 "generateAndParse").
Proof.
  intros Hblank call. subst call. cbv beta.
  split; [|split].
  - intros q c m Hp run. subst run. unfold generateFullInterviewPrep.
    rewrite Hblank. run_step Hp. cbv beta iota zeta. unfold tryCatch.
    split; [|split].
    + intros e s1 H1. now run_step H1.
    + intros v1 s1 e s2 H1 H2.
      run_step H1. run_step (sleep_run (inject_Z 2000) s1). now run_step H2.
    + intros v1 s1 v2 s2 e s3 H1 H2 H3.
      run_step H1. run_step (sleep_run (inject_Z 2000) s1).
      run_step H2. run_step (sleep_run (inject_Z 2000) s2). now run_step H3.
  - intros difficulty q d c m Hp run. subst run. unfold generateRandomizedPrepSet.
    rewrite Hblank. run_step Hp. cbv beta iota zeta. unfold tryCatch.
    split; [|split; [|split]].
    + intros e s1 H1. now run_step H1.
    + intros v1 s1 e s2 H1 H2.
      run_step H1. run_step (sleep_run (inject_Z 1500) s1). now run_step H2.
    + intros v1 s1 v2 s2 e s3 H1 H2 H3.
      run_step H1. run_step (sleep_run (inject_Z 1500) s1).
      run_step H2. run_step (sleep_run (inject_Z 1500) s2). now run_step H3.
    + intros v1 s1 v2 s2 v3 s3 e s4 H1 H2 H3 H4.
      run_step H1. run_step (sleep_run (inject_Z 1500) s1).
      run_step H2. run_step (sleep_run (inject_Z 1500) s2).
      run_step H3. run_step (sleep_run (inject_Z 1500) s3). now run_step H4.
  - intros prompt schema contextId s e s'.
    apply generateAndParse_throws_classified.
Qed.

Lemma orchestrators_fail_as_a_whole_witness :
  fst (generateAndParse (scripted (Some "key") [says "{}"] overloaded)
         (halfPrompt QuestionsPrompt) questionsSchema 2 (Some "questions")
         (drawn 8 initial))
  = Normal (JObject []) /\
  fst (generateFullInterviewPrep (scripted (Some "key") [says "{}"] overloaded)
         "Backend Engineer" None None initial)
  = Throw (JsError (msg_unexpected msg_service_unavailable)).
Proof.
  split; [vm_compute; reflexivity|].
  pose proof (orchestrators_fail_as_a_whole
                (scripted (Some "key") [says "{}"] overloaded)
                initial (drawn 8 initial) "Backend Engineer" None None eq_refl) as H.
  cbv zeta in H. destruct H as [H _].
  destruct (H (halfPrompt QuestionsPrompt) (halfPrompt ChallengesPrompt)
              (halfPrompt MachineCodingPrompt) eq_refl) as (_ & H2 & _).
  set (W := scripted (Some "key") [says "{}"] overloaded) in *.
  set (s1 := snd (generateAndParse W (halfPrompt QuestionsPrompt) questionsSchema 2
                    (Some "questions") (drawn 8 initial))).
  set (s2 := snd (generateAndParse W (halfPrompt ChallengesPrompt)
                    codingChallengesSchema 2 (Some "challenges")
                    (slept (inject_Z 2000) s1))).
  rewrite (H2 (JObject []) s1 (JsError msg_service_unavailable) s2).
  - vm_compute. reflexivity.
  - vm_compute. reflexivity.
  - vm_compute. reflexivity.
Defined.

(** ** What is checked of a response *)

Lemma getAiClient_requests (W : World) (st : State) :
  requests (snd (getAiClient W st)) = requests st.
Proof.
  unfold getAiClient.
  destruct (ai st); [reflexivity|].
  destruct (API_KEY W) as [key|]; [|reflexivity].
  destruct (negb (truthy_string key)); reflexivity.
Qed.

(** A text that is not empty, begins (trimmed) with a brace or a bracket and
    is accepted by [JSON.parse] is the result of the attempt, whatever the
    schema that was requested: the schema goes into the request and is
    not looked at again. *)
Lemma attemptOnce_accepts_json (W : World) (prompt : Prompt) (schema : Schema)
    (st st1 : State) (client : GoogleGenAI) (r : Response) (raw : string) (v : JsValue) :
  getAiClient W st = (Normal client, st1) ->
  service W (requests st) = Responds r ->
  text r = Some raw ->
  raw <> EmptyString ->
  startsWith (trim raw) "{" = true \/ startsWith (trim raw) "[" = true ->
  JSON_parse W (trim raw) = Normal v ->
  fst (attemptOnce W prompt schema st) = Normal v.
Proof.
  intros Hclient Hservice Htext Hraw Hstart Hparse.
  pose proof (getAiClient_requests W st) as Hreq.
  rewrite Hclient in Hreq. cbn [snd] in Hreq.
  unfold attemptOnce. run_step Hclient.
  unfold bind, random, generateContent. cbn [requests draws trace ai].
  rewrite Hreq, Hservice. unfold parseResponse. rewrite Htext.
  destruct raw as [|ch raw]; [congruence|]. cbn [truthy_string negb].
  assert (Hguard : negb (startsWith (trim (String ch raw)) "{")
                   && negb (startsWith (trim (String ch raw)) "[") = false).
  { destruct Hstart as [-> | ->]; [reflexivity | apply andb_false_r]. }
  rewrite Hguard. unfold parse, bind, emit, lift. now rewrite Hparse.
Qed.

Lemma lookup_prop_absent (key : string) (props : list (string * JsValue)) :
  (forall v, ~ In (key, v) props) -> lookup_prop key props = JUndefined.
Proof.
  induction props as [|[k v] props IH]; intros Hno; [reflexivity|].
  cbn [lookup_prop]. rewrite IH.
  - destruct (String.eqb_spec k key) as [->|]; [|reflexivity].
    elim (Hno v). now left.
  - intros v' Hin. apply (Hno v'). now right.
Qed.

(** C7, as the code has it.  The output of a generation task is what
    [JSON.parse] returns for a text that begins with a brace or a bracket:
    no attempt compares it with the schema descriptor it asked for.  When
    every sub-call of an orchestrator returns, the operation returns the
    aggregate: each of [generalQuestions] and [technicalQuestions] is the
    property of the parsed questions value or, when that is missing or
    falsy, the empty array; the other sub-results are passed on as parsed
    (a falsy one replaced by the empty array or the empty object). *)
Theorem orchestrators_return_unvalidated (W : World) (st s0 : State)
    (jobRole : string) (jobDescription resume : option string) :
  blank jobRole = false ->
  let call prompt schema contextId :=
    generateAndParse W prompt schema 2 (Some contextId) in
  (forall q c m v1 s1 v2 s2 v3 s3 general technical,
      fullPrepPrompts W (getRoleCategory jobRole) st = (Normal (q, c, m), s0) ->
      call q questionsSchema "questions" s0 = (Normal v1, s1) ->
      call c codingChallengesSchema "challenges" (slept (inject_Z 2000) s1)
      = (Normal v2, s2) ->
      call m machineCodingSchema "machine" (slept (inject_Z 2000) s2)
      = (Normal v3, s3) ->
      getProp v1 "generalQuestions" = Normal general ->
      getProp v1 "technicalQuestions" = Normal technical ->
      generateFullInterviewPrep W jobRole jobDescription resume st
      = (Normal {| fip_roleCategory := getRoleCategory jobRole;
                   fip_generalQuestions := js_or general (JArray []);
                   fip_technicalQuestions := js_or technical (JArray []);
                   fip_codingChallenges := js_or v2 (JArray []);
                   fip_machineCoding := js_or v3 (JObject []) |}, s3)) /\
  (forall difficulty q d c m v1 s1 v2 s2 v3 s3 v4 s4 general technical,
      randomizedPrompts W (getRoleCategory jobRole) st = (Normal (q, d, c, m), s0) ->
      call q questionsSchema "random-questions" s0 = (Normal v1, s1) ->
      call d systemDesignQuestionsSchema "system-design" (slept (inject_Z 1500) s1)
      = (Normal v2, s2) ->
      call c codingChallengesSchema "random-challenges" (slept (inject_Z 1500) s2)
      = (Normal v3, s3) ->
      call m machineCodingSchema "random-machine" (slept (inject_Z 1500) s3)
      = (Normal v4, s4) ->
      getProp v1 "generalQuestions" = Normal general ->
      getProp v1 "technicalQuestions" = Normal technical ->
      generateRandomizedPrepSet W jobRole difficulty jobDescription resume st
      = (Normal {| rps_roleCategory := getRoleCategory jobRole;
                   rps_generalQuestions := js_or general (JArray []);
                   rps_technicalQuestions := js_or technical (JArray []);
                   rps_systemDesignQuestions := js_or v2 (JArray []);
                   rps_codingChallenges := js_or v3 (JArray []);
                   rps_machineCoding := js_or v4 (JObject []) |}, s4)) /\
  (forall props key,
      (forall v, ~ In (key, v) props) ->
      getProp (JObject props) key = Normal JUndefined /\
      js_or JUndefined (JArray []) = JArray []) /\
  (forall prompt schema contextId s s1 client r raw v,
      getAiClient W s = (Normal client, s1) ->
      service W (requests s) = Responds r ->
      text r = Some raw ->
      raw <> EmptyString ->
      startsWith (trim raw) "{" = true \/ startsWith (trim raw) "[" = true ->
      JSON_parse W (trim raw) = Normal v ->
      fst (call prompt schema contextId s) = Normal v).
Proof.
  intros Hblank call. subst call. cbv beta.
  split; [|split; [|split]].
  - intros q c m v1 s1 v2 s2 v3 s3 general technical Hp H1 H2 H3 Hg Ht.
    unfold generateFullInterviewPrep.
    rewrite Hblank. run_step Hp. cbv beta iota zeta. unfold tryCatch.
    run_step H1. run_step (sleep_run (inject_Z 2000) s1).
    run_step H2. run_step (sleep_run (inject_Z 2000) s2).
    run_step H3. unfold bind, lift, ret. now rewrite Hg, Ht.
  - intros difficulty q d c m v1 s1 v2 s2 v3 s3 v4 s4 general technical
      Hp H1 H2 H3 H4 Hg Ht.
    unfold generateRandomizedPrepSet.
    rewrite Hblank. run_step Hp. cbv beta iota zeta. unfold tryCatch.
    run_step H1. run_step (sleep_run (inject_Z 1500) s1).
    run_step H2. run_step (sleep_run (inject_Z 1500) s2).
    run_step H3. run_step (sleep_run (inject_Z 1500) s3).
    run_step H4. unfold bind, lift, ret. now rewrite Hg, Ht.
  - intros props key Hno. split; [|reflexivity].
    cbn [getProp]. now rewrite lookup_prop_absent.
  - intros prompt schema contextId s s1 client r raw v Hc Hs Ht Hraw Hstart Hparse.
    pose proof (attemptOnce_accepts_json W prompt schema s s1 client r raw v
                  Hc Hs Ht Hraw Hstart Hparse) as Ha.
    destruct (attemptOnce W prompt schema s) as [res s2] eqn:E.
    cbn [fst] in Ha. subst res.
    unfold generateAndParse. cbn [seq].
    now rewrite (retryLoop_success W prompt schema 2 1 [2] JsNull s s2 v E).
Qed.

Lemma orchestrators_return_unvalidated_witness :
  fst (generateFullInterviewPrep
         (scripted (Some "key") [says "{}"; says "[]"; says "{}"] overloaded)
         "Backend Engineer" None None initial)
  = Normal {| fip_roleCategory := tech;
              fip_generalQuestions := JArray [];
              fip_technicalQuestions := JArray [];
              fip_codingChallenges := JArray [];
              fip_machineCoding := JObject [] |}.
Proof.
  pose proof (orchestrators_return_unvalidated
                (scripted (Some "key") [says "{}"; says "[]"; says "{}"] overloaded)
                initial (drawn 8 initial) "Backend Engineer" None None eq_refl) as H.
  cbv zeta in H. destruct H as [H _].
  set (W := scripted (Some "key") [says "{}"; says "[]"; says "{}"] overloaded) in *.
  set (s1 := snd (generateAndParse W (halfPrompt QuestionsPrompt) questionsSchema 2
                    (Some "questions") (drawn 8 initial))).
  set (s2 := snd (generateAndParse W (halfPrompt ChallengesPrompt)
                    codingChallengesSchema 2 (Some "challenges")
                    (slept (inject_Z 2000) s1))).
  set (s3 := snd (generateAndParse W (halfPrompt MachineCodingPrompt)
                    machineCodingSchema 2 (Some "machine")
                    (slept (inject_Z 2000) s2))).
  rewrite (H (halfPrompt QuestionsPrompt) (halfPrompt ChallengesPrompt)
             (halfPrompt MachineCodingPrompt)
             (JObject []) s1 (JArray []) s2 (JObject []) s3 JUndefined JUndefined).
  - reflexivity.
  - vm_compute. reflexivity.
  - vm_compute. reflexivity.
  - vm_compute. reflexivity.
  - vm_compute. reflexivity.
  - reflexivity.
  - reflexivity.
Defined.

(** C7 as stated fails when the service answers the questions request with
    an empty object.  That text passes the parse step, the value has
    neither of the two required keys of [questionsSchema], and the operation
    returns an aggregate in which both are empty arrays; the empty object
    given for the machine-coding problem, which lacks [title] and
    [problem], is returned as it is. *)
Lemma nonconforming_output_is_returned :
  let W := scripted (Some "key") [says "{}"; says "[]"; says "{}"] overloaded in
  fst (generateAndParse W (halfPrompt QuestionsPrompt) questionsSchema 2
         (Some "questions") (drawn 8 initial))
  = Normal (JObject []) /\
  conforms questionsSchema (JObject []) = false /\
  conforms machineCodingSchema (JObject []) = false /\
  fst (generateFullInterviewPrep W "Backend Engineer" None None initial)
  = Normal {| fip_roleCategory := tech;
              fip_generalQuestions := JArray [];
              fip_technicalQuestions := JArray [];
              fip_codingChallenges := JArray [];
              fip_machineCoding := JObject [] |}.
Proof.
  cbv zeta. split; [vm_compute; reflexivity|].
  split; [reflexivity|]. split; [reflexivity|].
  vm_compute. reflexivity.
Qed.

(** ** The chat transcripts *)

Module Transcripts.

Import ChatView.

Lemma last_index {A} (earlier : list A) (x : A) :
  length (earlier ++ [x]) - 1 = length earlier.
Proof. rewrite length_app. cbn. lia. Qed.

Lemma nth_error_last {A} (earlier : list A) (x : A) :
  nth_error (earlier ++ [x]) (length earlier) = Some x.
Proof. induction earlier as [|y earlier IH]; [reflexivity | exact IH]. Qed.

Lemma assign_last {A} (earlier : list A) (x y : A) :
  assign (length earlier) y (earlier ++ [x]) = earlier ++ [y].
Proof.
  induction earlier as [|z earlier IH]; [reflexivity|].
  cbn. now rewrite IH.
Qed.

Lemma plus_text_grows (s : string) (t : option string) :
  exists suffix, plus_text s t = (s ++ suffix)%string.
Proof. destruct t as [t|]; eexists; reflexivity. Qed.

Lemma append_assoc (a b c : string) : ((a ++ b) ++ c = a ++ b ++ c)%string.
Proof. induction a as [|ch a IH]; cbn; [reflexivity | now rewrite IH]. Qed.

Lemma streamedText_grows (chunks : list Chunk) (start : string) :
  exists suffix, streamedText start chunks = (start ++ suffix)%string.
Proof.
  unfold streamedText. revert start.
  induction chunks as [|chunk chunks IH]; intros start; cbn.
  - exists EmptyString. induction start as [|ch s IHs]; cbn; [reflexivity|].
    now rewrite <- IHs.
  - destruct (IH (plus_text start (chunk_text chunk))) as [suffix ->].
    destruct (plus_text_grows start (chunk_text chunk)) as [suffix' ->].
    exists (suffix' ++ suffix)%string. apply append_assoc.
Qed.

(** One chunk on a transcript that is not empty. *)
Lemma appendChunk_last (chunk : Chunk) (earlier : list ChatMessage)
    (lastMessage : ChatMessage) :
  appendChunk chunk (earlier ++ [lastMessage])
  = Normal (earlier ++
              [if streamable lastMessage
               then withText lastMessage
                      (plus_text (text lastMessage) (chunk_text chunk))
               else lastMessage]).
Proof.
  unfold appendChunk, streamable, withText.
  rewrite last_index, nth_error_last.
  destruct (is_model (role lastMessage) && negb (flag_set (isError lastMessage)));
    [now rewrite assign_last | reflexivity].
Qed.

(** On an empty transcript the updater throws. *)
Lemma appendChunk_empty (chunk : Chunk) :
  appendChunk chunk []
  = Throw (JsError "Cannot read properties of undefined (reading 'role')").
Proof. reflexivity. Qed.

Lemma streamable_withText (m : ChatMessage) (t : string) :
  streamable (withText m t) = streamable m.
Proof. reflexivity. Qed.

Lemma withText_withText (m : ChatMessage) (t t' : string) :
  withText (withText m t) t' = withText m t'.
Proof. reflexivity. Qed.

(** A whole stream on a transcript that is not empty. *)
Lemma streamInto_last (chunks : list Chunk) (earlier : list ChatMessage)
    (lastMessage : ChatMessage) :
  streamInto chunks (earlier ++ [lastMessage])
  = Normal (earlier ++
              [if streamable lastMessage
               then withText lastMessage (streamedText (text lastMessage) chunks)
               else lastMessage]).
Proof.
  revert lastMessage.
  induction chunks as [|chunk chunks IH]; intros lastMessage; cbn [streamInto].
  - destruct (streamable lastMessage); [|reflexivity].
    now destruct lastMessage.
  - rewrite appendChunk_last, IH.
    destruct (streamable lastMessage) eqn:E; [|now rewrite E].
    now rewrite streamable_withText, E, withText_withText.
Qed.

(** C10.  A chunk applied to a transcript that ends in [lastMessage] leaves
    every earlier message as it was and keeps the length.  When the last
    message has role [Model] and no error flag set, it becomes the same
    message with the chunk's text appended to its text, so that the old
    text is a prefix of the new one and its role, error flag and retry
    action are unchanged; otherwise the transcript is returned unchanged.
    The same holds of a whole stream of chunks. *)
Theorem appendChunk_frame (chunk : Chunk) (chunks : list Chunk)
    (earlier : list ChatMessage) (lastMessage : ChatMessage) :
  (exists lastMessage',
      appendChunk chunk (earlier ++ [lastMessage]) = Normal (earlier ++ [lastMessage']) /\
      role lastMessage' = role lastMessage /\
      isError lastMessage' = isError lastMessage /\
      onRetry lastMessage' = onRetry lastMessage /\
      (exists suffix, text lastMessage' = (text lastMessage ++ suffix)%string) /\
      (is_model (role lastMessage) && negb (flag_set (isError lastMessage)) = true ->
       text lastMessage' = plus_text (text lastMessage) (chunk_text chunk)) /\
      (is_model (role lastMessage) && negb (flag_set (isError lastMessage)) = false ->
       lastMessage' = lastMessage)) /\
  (exists lastMessage',
      streamInto chunks (earlier ++ [lastMessage]) = Normal (earlier ++ [lastMessage']) /\
      role lastMessage' = role lastMessage /\
      isError lastMessage' = isError lastMessage /\
      onRetry lastMessage' = onRetry lastMessage /\
      (exists suffix, text lastMessage' = (text lastMessage ++ suffix)%string) /\
      (is_model (role lastMessage) && negb (flag_set (isError lastMessage)) = false ->
       lastMessage' = lastMessage)).
Proof.
  split.
  - rewrite appendChunk_last. eexists. split; [reflexivity|].
    unfold streamable.
    destruct (is_model (role lastMessage) && negb (flag_set (isError lastMessage)));
      cbn [withText role isError onRetry text];
      repeat split; try reflexivity; try discriminate.
    + apply plus_text_grows.
    + exists EmptyString. symmetry.
      induction (text lastMessage) as [|ch s IH]; cbn; [reflexivity | now rewrite IH].
  - rewrite streamInto_last. eexists. split; [reflexivity|].
    unfold streamable.
    destruct (is_model (role lastMessage) && negb (flag_set (isError lastMessage)));
      cbn [withText role isError onRetry text];
      repeat split; try reflexivity; try discriminate.
    + apply streamedText_grows.
    + exists EmptyString. symmetry.
      induction (text lastMessage) as [|ch s IH]; cbn; [reflexivity | now rewrite IH].
Qed.

Lemma appendChunk_frame_witness :
  appendChunk (fragment "lo") [userSays "Hi"; modelSays "Hel"]
  = Normal [userSays "Hi"; modelSays "Hello"] /\
  appendChunk (fragment "lo") [modelSays "Hel"; userSays "Hi"]
  = Normal [modelSays "Hel"; userSays "Hi"].
Proof.
  split.
  - destruct (appendChunk_frame (fragment "lo") [] [userSays "Hi"] (modelSays "Hel"))
      as [(m & E & Hrole & Herr & Hretry & _ & Htext & _) _].
    cbn [app] in E. rewrite E.
    destruct m as [r t err retry]. cbn in Hrole, Herr, Hretry, Htext.
    rewrite Hrole, Herr, Hretry, (Htext eq_refl). reflexivity.
  - destruct (appendChunk_frame (fragment "lo") [] [modelSays "Hel"] (userSays "Hi"))
      as [(m & E & _ & _ & _ & _ & _ & Hsame) _].
    cbn [app] in E. rewrite E, (Hsame eq_refl). reflexivity.
Defined.

Lemma exchange_rejected (view question message : string) (e : Thrown)
    (prev : list ChatMessage) :
  exchange view question message (SendRejected e) prev
  = Normal (prev ++ [errorMessage view question e message]).
Proof. reflexivity. Qed.

Lemma exchange_streamed (view question message : string) (chunks : list Chunk)
    (prev : list ChatMessage) :
  exchange view question message (Streamed chunks None) prev
  = Normal (prev ++ [partialMessage chunks]).
Proof. unfold exchange. now rewrite streamInto_last. Qed.

Lemma exchange_failed (view question message : string) (chunks : list Chunk)
    (e : Thrown) (prev : list ChatMessage) :
  exchange view question message (Streamed chunks (Some e)) prev
  = Normal (prev ++ [partialMessage chunks; errorMessage view question e message]).
Proof.
  unfold exchange. rewrite streamInto_last. cbn [streamable emptyModelMessage
    role isError is_model flag_set negb andb].
  now rewrite <- app_assoc.
Qed.

(** The updaters of one exchange never throw: the model message is pushed
    before the first chunk arrives. *)
Lemma exchange_never_throws (view question message : string)
    (outcome : StreamOutcome) (prev : list ChatMessage) :
  exists messages', exchange view question message outcome prev = Normal messages'.
Proof.
  destruct outcome as [e|chunks [e|]]; eexists;
    [apply exchange_rejected | apply exchange_failed | apply exchange_streamed].
Qed.

(** C8, as the code has it.  In both views, when a send that is not
    suppressed gets a stream that yields [chunks] and then fails with [e],
    the transcript afterwards is the transcript before, then the model
    message holding the text of the chunks received, then one error
    message: the classified sentence followed by the view's question, the
    error flag set, and a retry action that resends the same [message].
    The retry removes the last message, which is that error message, and
    leaves the partial model message in place: after a retry whose stream
    yields [chunks'] and ends, the transcript is the transcript before, the
    partial message, and the new model message. *)
Theorem stream_failure_appends_error (message : string) (chunks chunks' : list Chunk)
    (e : Thrown) :
  (forall st c,
      MockInterview.chat st = Some c ->
      String.eqb message (MockInterview.lastProcessedMessage st) = false ->
      MockInterview.processingMessage st = false ->
      exists st' st'',
        MockInterview.processAIResponse message false (Streamed chunks (Some e)) st
        = Normal st' /\
        MockInterview.messages st'
        = MockInterview.messages st ++
            [partialMessage chunks;
             {| role := Model;
                text := (handleApiError_message e
                           ++ " Would you like to retry sending your last message?")%string;
                isError := Some true;
                onRetry := Some (Resend message) |}] /\
        MockInterview.retry (Resend message) (Streamed chunks' None) st' = Normal st'' /\
        MockInterview.messages st''
        = MockInterview.messages st ++ [partialMessage chunks; partialMessage chunks']) /\
  (forall st c,
      DoubtBuster.chat st = Some c ->
      String.eqb message (DoubtBuster.lastProcessedMessage st) = false ->
      exists st' st'',
        DoubtBuster.processAIResponse message false (Streamed chunks (Some e)) st
        = Normal st' /\
        DoubtBuster.messages st'
        = DoubtBuster.messages st ++
            [partialMessage chunks;
             {| role := Model;
                text := (handleApiError_message e
                           ++ " Would you like to try that again?")%string;
                isError := Some true;
                onRetry := Some (Resend message) |}] /\
        DoubtBuster.retry (Resend message) (Streamed chunks' None) st' = Normal st'' /\
        DoubtBuster.messages st''
        = DoubtBuster.messages st ++ [partialMessage chunks; partialMessage chunks']).
Proof.
  split.
  - intros st c Hchat Hnew Hidle.
    unfold MockInterview.retry, MockInterview.processAIResponse.
    rewrite Hchat, Hnew, Hidle. cbn [negb andb].
    rewrite exchange_failed. do 2 eexists.
    split; [reflexivity|]. split; [reflexivity|].
    cbn [MockInterview.chat MockInterview.messages].
    unfold dropLast.
    change [partialMessage chunks;
            errorMessage "MockInterview.processAIResponse" MockInterview.question e message]
      with ([partialMessage chunks]
              ++ [errorMessage "MockInterview.processAIResponse"
                    MockInterview.question e message]).
    rewrite app_assoc, removelast_last, exchange_streamed, <- app_assoc.
    split; reflexivity.
  - intros st c Hchat Hnew.
    unfold DoubtBuster.retry, DoubtBuster.processAIResponse.
    rewrite Hchat, Hnew. cbn [negb andb].
    rewrite exchange_failed. do 2 eexists.
    split; [reflexivity|]. split; [reflexivity|].
    cbn [DoubtBuster.chat DoubtBuster.messages].
    unfold dropLast.
    change [partialMessage chunks;
            errorMessage "DoubtBuster.processAIResponse" DoubtBuster.question e message]
      with ([partialMessage chunks]
              ++ [errorMessage "DoubtBuster.processAIResponse"
                    DoubtBuster.question e message]).
    rewrite app_assoc, removelast_last, exchange_streamed, <- app_assoc.
    split; reflexivity.
Qed.

Lemma stream_failure_appends_error_witness :
  (exists st' st'',
      MockInterview.processAIResponse "I build compilers." false
        (Streamed [fragment "That is "; fragment "gre"]
           (Some (JsError "503 Service Unavailable")))
        interviewInProgress
      = Normal st' /\
      MockInterview.messages st'
      = MockInterview.messages interviewInProgress ++
          [partialMessage [fragment "That is "; fragment "gre"];
           {| role := Model;
              text := (handleApiError_message (JsError "503 Service Unavailable")
                         ++ " Would you like to retry sending your last message?")%string;
              isError := Some true;
              onRetry := Some (Resend "I build compilers.") |}] /\
      MockInterview.retry (Resend "I build compilers.")
        (Streamed [fragment "That is great."] None) st'
      = Normal st'' /\
      MockInterview.messages st''
      = MockInterview.messages interviewInProgress ++
          [partialMessage [fragment "That is "; fragment "gre"];
           partialMessage [fragment "That is great."]]) /\
  (exists st' st'',
      DoubtBuster.processAIResponse "What is a monad?" false
        (Streamed [fragment "A monad "] (Some (JsError "fetch failed")))
        doubtInProgress
      = Normal st' /\
      DoubtBuster.messages st'
      = DoubtBuster.messages doubtInProgress ++
          [partialMessage [fragment "A monad "];
           {| role := Model;
              text := (handleApiError_message (JsError "fetch failed")
                         ++ " Would you like to try that again?")%string;
              isError := Some true;
              onRetry := Some (Resend "What is a monad?") |}] /\
      DoubtBuster.retry (Resend "What is a monad?")
        (Streamed [fragment "A monad is a pattern."] None) st'
      = Normal st'' /\
      DoubtBuster.messages st''
      = DoubtBuster.messages doubtInProgress ++
          [partialMessage [fragment "A monad "];
           partialMessage [fragment "A monad is a pattern."]]).
Proof.
  split.
  - apply (proj1 (stream_failure_appends_error "I build compilers."
                    [fragment "That is "; fragment "gre"]
                    [fragment "That is great."]
                    (JsError "503 Service Unavailable"))
             interviewInProgress aChat eq_refl eq_refl eq_refl).
  - apply (proj2 (stream_failure_appends_error "What is a monad?"
                    [fragment "A monad "] [fragment "A monad is a pattern."]
                    (JsError "fetch failed"))
             doubtInProgress aChat eq_refl eq_refl).
Defined.

(** C8 as stated fails in both views: after a stream that yields one
    fragment and then fails, the fragment's message is still in the
    transcript, before the error message, and it is still there after the
    retry. *)
Lemma partial_message_survives_failure :
  let failing := Streamed [fragment "That is "] (Some (JsError "503 Service Unavailable")) in
  let apology :=
    {| role := Model;
       text := "AI service temporarily unavailable. Please try again later. Would you like to retry sending your last message?";
       isError := Some true;
       onRetry := Some (Resend "I build compilers.") |} in
  exists st' st'',
    MockInterview.processAIResponse "I build compilers." false failing interviewInProgress
    = Normal st' /\
    MockInterview.messages st'
    = [modelSays "Tell me about yourself."; userSays "I build compilers.";
       modelSays "That is "; apology] /\
    MockInterview.messages st'
    <> [modelSays "Tell me about yourself."; userSays "I build compilers."; apology] /\
    MockInterview.retry (Resend "I build compilers.")
      (Streamed [fragment "That is great."] None) st'
    = Normal st'' /\
    MockInterview.messages st''
    = [modelSays "Tell me about yourself."; userSays "I build compilers.";
       modelSays "That is "; modelSays "That is great."].
Proof.
  cbv zeta. do 2 eexists.
  split; [reflexivity|]. split; [reflexivity|].
  split; [discriminate|]. split; reflexivity.
Qed.

End Transcripts.

(** ** Further properties of the retry loop *)

(** X1.  With [maxRetries = 3], attempts 1 and 2 failing and attempt 3
    returning [v], [generateAndParse] returns [v] with the state the third
    attempt left: three attempts, the warnings of attempts 1 and 2, and two
    waits of which the second is at least as long as the first. *)
Theorem generateAndParse_third_attempt (W : World) (prompt : Prompt) (schema : Schema)
    (contextId : option string) (st st1 st2 st3 : State) (e1 e2 : Thrown) (v : JsValue) :
  random_in_unit W ->
  attemptOnce W prompt schema st = (Throw e1, st1) ->
  attemptOnce W prompt schema (backedOff W 1 (warned 1 e1 st1)) = (Throw e2, st2) ->
  attemptOnce W prompt schema (backedOff W 2 (warned 2 e2 st2)) = (Normal v, st3) ->
  generateAndParse W prompt schema 3 contextId st = (Normal v, st3) /\
  warnings (added (trace st) (trace st3)) = [1; 2] /\
  timeouts (added (trace st) (trace st3))
  = [backoff 1 (Math_random W (draws st1)); backoff 2 (Math_random W (draws st2))] /\
  (backoff 1 (Math_random W (draws st1)) <= backoff 2 (Math_random W (draws st2)))%Q.
Proof.
  intros Hrand E1 E2 E3.
  split.
  { unfold generateAndParse. cbn [seq].
    rewrite (retryLoop_failure W prompt schema 3 1 [2; 3] JsNull st st1 e1 E1)
      by discriminate.
    rewrite (retryLoop_failure W prompt schema 3 2 [3] e1 _ st2 e2 E2)
      by discriminate.
    exact (retryLoop_success W prompt schema 3 3 [] e2 _ st3 v E3). }
  destruct (attemptOnce_trace W prompt schema st) as (evs1 & T1 & W1 & S1).
  destruct (attemptOnce_trace W prompt schema (backedOff W 1 (warned 1 e1 st1)))
    as (evs2 & T2 & W2 & S2).
  destruct (attemptOnce_trace W prompt schema (backedOff W 2 (warned 2 e2 st2)))
    as (evs3 & T3 & W3 & S3).
  rewrite E1 in T1. rewrite E2 in T2. rewrite E3 in T3. cbn [snd] in T1, T2, T3.
  assert (Htrace : added (trace st) (trace st3)
                   = evs1 ++ [ConsoleWarn 1 e1]
                       ++ [SetTimeout (backoff 1 (Math_random W (draws st1)))]
                       ++ evs2 ++ [ConsoleWarn 2 e2]
                       ++ [SetTimeout (backoff 2 (Math_random W (draws st2)))]
                       ++ evs3).
  { rewrite T3, trace_backedOff, trace_warned, T2, trace_backedOff, trace_warned, T1.
    cbn [draws warned emit snd].
    rewrite <- !app_assoc. apply added_app. }
  split; [rewrite Htrace, !warnings_app, W1, W2, W3; reflexivity|].
  split; [rewrite Htrace, !timeouts_app, S1, S2, S3; reflexivity|].
  destruct (Hrand (draws st1)) as [Hlo1 Hhi1].
  destruct (Hrand (draws st2)) as [Hlo2 Hhi2].
  now apply backoff_monotone.
Qed.

Lemma generateAndParse_third_attempt_witness :
  fst (generateAndParse
         (scripted (Some "key") [overloaded; overloaded; says "[]"] overloaded)
         aPrompt codingChallengesSchema 3 None initial)
  = Normal (JArray []).
Proof.
  set (W := scripted (Some "key") [overloaded; overloaded; says "[]"] overloaded).
  set (e := JsError "503 Service Unavailable").
  set (st1 := snd (attemptOnce W aPrompt codingChallengesSchema initial)).
  set (st2 := snd (attemptOnce W aPrompt codingChallengesSchema
                     (backedOff W 1 (warned 1 e st1)))).
  set (st3 := snd (attemptOnce W aPrompt codingChallengesSchema
                     (backedOff W 2 (warned 2 e st2)))).
  rewrite (proj1 (generateAndParse_third_attempt W aPrompt codingChallengesSchema None
                    initial st1 st2 st3 e e (JArray [])
                    (scripted_random_in_unit _ _ _) eq_refl eq_refl eq_refl)).
  reflexivity.
Defined.

Lemma attemptOnce_requests (W : World) (prompt : Prompt) (schema : Schema) (st : State) :
  requests (snd (attemptOnce W prompt schema st)) <= S (requests st).
Proof.
  unfold attemptOnce.
  pose proof (getAiClient_requests W st) as Hr.
  unfold bind at 1.
  destruct (getAiClient W st) as [[client|e] s1]; cbn [snd] in Hr |- *; [|lia].
  unfold bind, random, generateContent. cbn [requests draws trace ai].
  destruct (service W (requests s1)) as [e|r]; cbn [snd requests]; [lia|].
  unfold parseResponse, parse, bind, emit, lift, throw.
  destruct (text r) as [raw|]; cbn [snd requests]; [|lia].
  destruct (negb (truthy_string raw)); cbn [snd requests]; [lia|].
  destruct (negb (startsWith (trim raw) "{") && negb (startsWith (trim raw) "["));
    cbn [snd requests]; lia.
Qed.

Lemma retryLoop_requests (W : World) (prompt : Prompt) (schema : Schema)
    (maxRetries : nat) (attempts : list nat) :
  forall lastError st,
    requests (snd (retryLoop W prompt schema maxRetries attempts lastError st))
    <= requests st + length attempts.
Proof.
  induction attempts as [|attempt later IH]; intros lastError st.
  - cbn. lia.
  - cbn [retryLoop length]. unfold tryCatch.
    pose proof (attemptOnce_requests W prompt schema st) as Ha.
    destruct (attemptOnce W prompt schema st) as [[v|e] s1]; cbn [snd] in Ha |- *;
      [lia|].
    rewrite (bind_normal _ _ _ _ _ (warn_run attempt e s1)).
    destruct (attempt =? maxRetries).
    + cbn. lia.
    + pose proof (IH e (backedOff W attempt (warned attempt e s1))) as Hrec.
      cbn [requests backedOff warned emit sleep bind random snd] in Hrec.
      change (requests (snd (retryLoop W prompt schema maxRetries later e
                               (backedOff W attempt (warned attempt e s1))))
              <= requests st + S (length later)).
      cbn [requests backedOff warned emit sleep bind random snd]. lia.
Qed.

(** X2.  [generateAndParse] ends for every world and every [maxRetries]
    (it is a total function of the world and the state), and it sends at
    most [maxRetries] requests to the service. *)
Theorem generateAndParse_sends_at_most_maxRetries (W : World) (prompt : Prompt)
    (schema : Schema) (maxRetries : nat) (contextId : option string) (st : State) :
  requests (snd (generateAndParse W prompt schema maxRetries contextId st))
  <= requests st + maxRetries.
Proof.
  unfold generateAndParse.
  pose proof (retryLoop_requests W prompt schema maxRetries (seq 1 maxRetries)
                JsNull st) as H.
  now rewrite length_seq in H.
Qed.

(** ** Further properties of the exported functions *)

(** X3.  A blank required input is refused before anything else happens:
    the function throws its own [Error], unclassified, and the state is
    untouched (no random draw, no request, no event). *)
Theorem blank_input_is_refused_first (W : World) (st : State) :
  (forall jobRole jobDescription resume,
      blank jobRole = true ->
      generateFullInterviewPrep W jobRole jobDescription resume st
      = (Throw (JsError "Job role is required"), st)) /\
  (forall jobRole difficulty jobDescription resume,
      blank jobRole = true ->
      generateRandomizedPrepSet W jobRole difficulty jobDescription resume st
      = (Throw (JsError "Job role is required"), st)) /\
  (forall problemTitle problemDescription,
      blank problemTitle = true \/ blank problemDescription = true ->
      generateMachineCodingSolution W problemTitle problemDescription st
      = (Throw (JsError "Both problem title and description are required"), st)) /\
  (forall companyName,
      blank companyName = true ->
      generateCompanyInsights W companyName st
      = (Throw (JsError "Company name is required"), st)) /\
  (forall resume jobDescription,
      blank resume = true \/ blank jobDescription = true ->
      analyzeResume W resume jobDescription st
      = (Throw (JsError "Both resume and job description are required"), st)).
Proof.
  split; [|split; [|split; [|split]]].
  - intros jobRole jd resume H. unfold generateFullInterviewPrep. now rewrite H.
  - intros jobRole difficulty jd resume H. unfold generateRandomizedPrepSet.
    now rewrite H.
  - intros title description H. unfold generateMachineCodingSolution.
    assert (E : blank title || blank description = true)
      by (apply orb_true_iff; exact H).
    now rewrite E.
  - intros companyName H. unfold generateCompanyInsights. now rewrite H.
  - intros resume jd H. unfold analyzeResume.
    assert (E : blank resume || blank jd = true) by (apply orb_true_iff; exact H).
    now rewrite E.
Qed.

Lemma blank_input_is_refused_first_witness :
  generateFullInterviewPrep (scripted (Some "key") [] overloaded) "   " None None initial
  = (Throw (JsError "Job role is required"), initial) /\
  analyzeResume (scripted (Some "key") [] overloaded) "Ten years of Rocq." " " initial
  = (Throw (JsError "Both resume and job description are required"), initial).
Proof.
  pose proof (blank_input_is_refused_first (scripted (Some "key") [] overloaded) initial)
    as (Hfull & _ & _ & _ & Hresume).
  split.
  - apply Hfull. reflexivity.
  - apply Hresume. right. reflexivity.
Defined.

(** X4.  What [generateCompanyInsights] returns has a non-empty content,
    and its sources are the grounding chunks that have both a uri and a
    title, in their order: no source with an empty uri or an empty title is
    returned. *)
Theorem generateCompanyInsights_sources (W : World) (companyName : string)
    (st st' : State) (insights : CompanyInsights) :
  generateCompanyInsights W companyName st = (Normal insights, st') ->
  ci_content insights <> EmptyString /\
  Forall (fun source => uri source <> EmptyString /\ title source <> EmptyString)
    (ci_sources insights) /\
  requests st' = S (requests st).
Proof.
  unfold generateCompanyInsights.
  destruct (blank companyName); [discriminate|].
  match goal with
  | |- (_ ;; p <- plainPrompt W ?t ;; @?k p) st = _ -> _ =>
      destruct (plainPrompt_after_markers_run W t k st) as (prompt & ->)
  end.
  unfold tryCatch, bind at 1.
  pose proof (getAiClient_requests W (drawn 3 st)) as Hreq.
  destruct (getAiClient W (drawn 3 st)) as [[client|e] s1]; [|discriminate].
  cbn [snd drawn requests] in Hreq.
  unfold bind, generateContent.
  destruct (service W (requests s1)) as [e|r]; [discriminate|].
  destruct (text r) as [content_text|]; [|discriminate].
  destruct content_text as [|ch content_text]; [discriminate|].
  cbn [truthy_string negb]. unfold ret. intros H. injection H as <- <-.
  cbn [ci_content ci_sources requests].
  split; [discriminate|]. split; [|now rewrite Hreq].
  apply Forall_forall. intros source Hin.
  apply filter_In in Hin as [_ Hboth]. apply andb_true_iff in Hboth as [Hu Ht].
  split; intros E; [rewrite E in Hu | rewrite E in Ht]; discriminate.
Qed.

Lemma generateCompanyInsights_sources_witness :
  fst (generateCompanyInsights (scripted (Some "key") [groundedAnswer] overloaded)
         "Acme" initial)
  = Normal {| ci_content := "Acme builds rockets.";
              ci_sources := [ {| uri := "https://acme.example/about";
                                 title := "About Acme" |} ] |} /\
  Forall (fun source => uri source <> EmptyString /\ title source <> EmptyString)
    [ {| uri := "https://acme.example/about"; title := "About Acme" |} ].
Proof.
  split; [vm_compute; reflexivity|].
  apply (generateCompanyInsights_sources
           (scripted (Some "key") [groundedAnswer] overloaded) "Acme" initial
           (snd (generateCompanyInsights
                   (scripted (Some "key") [groundedAnswer] overloaded) "Acme" initial))
           {| ci_content := "Acme builds rockets.";
              ci_sources := [ {| uri := "https://acme.example/about";
                                 title := "About Acme" |} ] |}).
  vm_compute. reflexivity.
Defined.

(** X5.  The client is built once: after a call of [getAiClient] that
    returned, the module-level [ai] holds the client, and every later call
    returns that client and changes nothing, whatever the configuration
    has become. *)
Theorem getAiClient_is_memoised (W W' : World) (st st1 : State) (client : GoogleGenAI) :
  getAiClient W st = (Normal client, st1) ->
  ai st1 = Some client /\
  getAiClient W' st1 = (Normal client, st1).
Proof.
  unfold getAiClient. intros H.
  assert (Hai : ai st1 = Some client).
  { destruct (ai st) as [c|] eqn:E.
    - injection H as <- <-. exact E.
    - destruct (API_KEY W) as [key|]; [|discriminate].
      destruct (negb (truthy_string key)); [discriminate|].
      injection H as <- <-. reflexivity. }
  split; [exact Hai|]. now rewrite Hai.
Qed.

Lemma getAiClient_is_memoised_witness :
  getAiClient (scripted None [] overloaded)
    (snd (getAiClient (scripted (Some "key") [] overloaded) initial))
  = (Normal {| apiKey := "key" |},
     snd (getAiClient (scripted (Some "key") [] overloaded) initial)).
Proof.
  apply (getAiClient_is_memoised (scripted (Some "key") [] overloaded)
           (scripted None [] overloaded) initial).
  reflexivity.
Defined.

(** ** Further properties of the chat views *)

Module Sends.

Import ChatView.

(** X6.  A send that is not a retry is dropped, the state left as it was,
    when its message is the one last dispatched, and in the mock interview
    also while another send is being processed.  A retry is not subject to
    either test, and no send ever fails inside a state updater: with a chat
    session present, a retry always yields the transcript of the exchange
    on the messages before the last one. *)
Theorem duplicate_send_is_dropped (message : string) (outcome : StreamOutcome) :
  (forall st,
      MockInterview.lastProcessedMessage st = message \/
      MockInterview.processingMessage st = true ->
      MockInterview.processAIResponse message false outcome st = Normal st) /\
  (forall st,
      DoubtBuster.lastProcessedMessage st = message ->
      DoubtBuster.processAIResponse message false outcome st = Normal st) /\
  (forall st c,
      MockInterview.chat st = Some c ->
      exists st',
        MockInterview.processAIResponse message true outcome st = Normal st' /\
        exchange "MockInterview.processAIResponse" MockInterview.question message
          outcome (dropLast (MockInterview.messages st))
        = Normal (MockInterview.messages st') /\
        MockInterview.isThinking st' = false) /\
  (forall st c,
      DoubtBuster.chat st = Some c ->
      exists st',
        DoubtBuster.processAIResponse message true outcome st = Normal st' /\
        exchange "DoubtBuster.processAIResponse" DoubtBuster.question message
          outcome (dropLast (DoubtBuster.messages st))
        = Normal (DoubtBuster.messages st') /\
        DoubtBuster.isThinking st' = false).
Proof.
  split; [|split; [|split]].
  - intros st H. unfold MockInterview.processAIResponse.
    destruct (MockInterview.chat st); [|reflexivity]. cbn [negb andb].
    destruct H as [<- | ->].
    + now rewrite String.eqb_refl.
    + now destruct (String.eqb message (MockInterview.lastProcessedMessage st)).
  - intros st <-. unfold DoubtBuster.processAIResponse.
    destruct (DoubtBuster.chat st); [|reflexivity]. cbn [negb andb].
    now rewrite String.eqb_refl.
  - intros st c Hchat. unfold MockInterview.processAIResponse.
    rewrite Hchat. cbn [negb andb].
    destruct (Transcripts.exchange_never_throws "MockInterview.processAIResponse"
                MockInterview.question message outcome
                (dropLast (MockInterview.messages st))) as [messages' ->].
    eexists. split; [reflexivity|]. split; reflexivity.
  - intros st c Hchat. unfold DoubtBuster.processAIResponse.
    rewrite Hchat. cbn [negb andb].
    destruct (Transcripts.exchange_never_throws "DoubtBuster.processAIResponse"
                DoubtBuster.question message outcome
                (dropLast (DoubtBuster.messages st))) as [messages' ->].
    eexists. split; [reflexivity|]. split; reflexivity.
Qed.

Lemma duplicate_send_is_dropped_witness :
  MockInterview.processAIResponse EmptyString false
    (Streamed [fragment "Hello"] None) interviewInProgress
  = Normal interviewInProgress /\
  DoubtBuster.processAIResponse EmptyString false
    (Streamed [fragment "Hello"] None) doubtInProgress
  = Normal doubtInProgress.
Proof.
  pose proof (duplicate_send_is_dropped EmptyString (Streamed [fragment "Hello"] None))
    as (Hmock & Hdoubt & _).
  split.
  - apply Hmock. left. reflexivity.
  - apply Hdoubt. reflexivity.
Defined.

End Sends.

(** ** Trimming and the blank test *)

Lemma trimStart_empty_iff (s : string) :
  trimStart s = EmptyString <-> allWhiteSpace s = true.
Proof.
  induction s as [|c s IH]; cbn [trimStart allWhiteSpace]; [tauto|].
  destruct (isWhiteSpace c); cbn [andb]; [exact IH|].
  split; discriminate.
Qed.

Lemma trimEnd_empty_iff (s : string) :
  trimEnd s = EmptyString <-> allWhiteSpace s = true.
Proof.
  induction s as [|c s IH]; cbn [trimEnd allWhiteSpace]; [tauto|].
  destruct (trimEnd s) as [|d t].
  - destruct (isWhiteSpace c); cbn [andb].
    + split; intros _; [now apply IH | reflexivity].
    + split; discriminate.
  - split; [discriminate|]. intros H. apply andb_true_iff in H as [_ H].
    apply IH in H. discriminate.
Qed.

(** What [trimStart] returns is empty or begins with a code unit that is
    not white space. *)
Lemma trimStart_head (s : string) :
  match trimStart s with
  | EmptyString => True
  | String c _ => isWhiteSpace c = false
  end.
Proof.
  induction s as [|c s IH]; cbn [trimStart]; [exact I|].
  destruct (isWhiteSpace c) eqn:E; [exact IH | exact E].
Qed.

Lemma allWhiteSpace_trimStart (s : string) :
  allWhiteSpace (trimStart s) = allWhiteSpace s.
Proof.
  induction s as [|c s IH]; cbn [trimStart allWhiteSpace]; [reflexivity|].
  destruct (isWhiteSpace c) eqn:E; cbn [andb]; [exact IH|].
  cbn [allWhiteSpace]. now rewrite E.
Qed.

Lemma trim_empty_iff (s : string) :
  trim s = EmptyString <-> allWhiteSpace s = true.
Proof.
  unfold trim. now rewrite trimEnd_empty_iff, allWhiteSpace_trimStart.
Qed.

Lemma trimEnd_idempotent (s : string) : trimEnd (trimEnd s) = trimEnd s.
Proof.
  induction s as [|c s IH]; cbn [trimEnd]; [reflexivity|].
  destruct (trimEnd s) as [|d t] eqn:E.
  - destruct (isWhiteSpace c) eqn:Ec; [reflexivity|].
    cbn [trimEnd]. now rewrite Ec.
  - cbn [trimEnd] in IH |- *.
    destruct (trimEnd t) as [|d' t'] eqn:Et.
    + destruct (isWhiteSpace d) eqn:Ed; [discriminate IH|].
      injection IH as <-. reflexivity.
    + rewrite IH. reflexivity.
Qed.

(** [trimEnd] keeps a first code unit that is not white space. *)
Lemma trimEnd_head (c : ascii) (s : string) :
  isWhiteSpace c = false -> exists t, trimEnd (String c s) = String c t.
Proof.
  intros Hc. cbn [trimEnd]. destruct (trimEnd s) as [|d t].
  - rewrite Hc. now eexists.
  - now eexists.
Qed.

Lemma trimStart_fixed (s : string) :
  match s with
  | EmptyString => True
  | String c _ => isWhiteSpace c = false
  end ->
  trimStart s = s.
Proof. destruct s as [|c s]; cbn [trimStart]; [reflexivity | now intros ->]. Qed.

Lemma trim_idempotent (s : string) : trim (trim s) = trim s.
Proof.
  unfold trim.
  assert (H : trimStart (trimEnd (trimStart s)) = trimEnd (trimStart s)).
  { pose proof (trimStart_head s) as Hh.
    destruct (trimStart s) as [|c t]; [reflexivity|].
    destruct (trimEnd_head c t Hh) as [u ->].
    apply trimStart_fixed. exact Hh. }
  rewrite H. apply trimEnd_idempotent.
Qed.

Lemma blank_iff (s : string) : blank s = true <-> allWhiteSpace s = true.
Proof.
  unfold blank. rewrite <- trim_empty_iff.
  destruct (trim s); cbn; split; congruence.
Qed.

(** ** What the exported functions throw *)

(** Every sentence of the classifier begins with one of five capitals. *)
Lemma classified_first_unit (e : Thrown) :
  In (String.get 0 (handleApiError_message e))
    [Some "T"%char; Some "I"%char; Some "A"%char; Some "R"%char; Some "U"%char].
Proof.
  destruct e as [m| |]; cbn [handleApiError_message]; classify_cases; cbn; tauto.
Qed.

Lemma classified_is_not (e : Thrown) (context sentence : string) :
  ~ In (String.get 0 sentence)
      [Some "T"%char; Some "I"%char; Some "A"%char; Some "R"%char; Some "U"%char] ->
  handleApiError e context <> JsError sentence.
Proof.
  intros Hno E. injection E as E. apply Hno. rewrite <- E.
  apply classified_first_unit.
Qed.

(** An exported function whose input passes the blank test throws nothing
    but outputs of the classifier: its whole body is inside a [try] whose
    [catch] rethrows [handleApiError error]. *)
Lemma guarded_body_throws_classified {A} (body : M A) (context : string)
    (st st' : State) (e : Thrown) :
  tryCatch body (fun error => throw (handleApiError error context)) st = (Throw e, st') ->
  exists e0 s, body st = (Throw e0, s) /\ e = handleApiError e0 context /\ st' = s.
Proof.
  unfold tryCatch, throw. destruct (body st) as [[a|e0] s]; [discriminate|].
  intros H. injection H as <- <-. now exists e0, s.
Qed.

Lemma generateFullInterviewPrep_throws (W : World) (jobRole : string)
    (jobDescription resume : option string) (st st' : State) (e : Thrown) :
  generateFullInterviewPrep W jobRole jobDescription resume st = (Throw e, st') ->
  (blank jobRole = true /\ e = JsError "Job role is required" /\ st' = st) \/
  (blank jobRole = false /\ exists e0, e = handleApiError e0 "generateFullInterviewPrep").
Proof.
  unfold generateFullInterviewPrep. destruct (blank jobRole).
  - intros H. injection H as <- <-. left. auto.
  - destruct (fullPrepPrompts_run W (getRoleCategory jobRole) st) as (q & c & m & Hp).
    run_step Hp. cbv beta iota zeta. intros H. right. split; [reflexivity|].
    apply guarded_body_throws_classified in H as (e0 & s & _ & -> & _).
    now exists e0.
Qed.

Lemma generateRandomizedPrepSet_throws (W : World) (jobRole : string)
    (difficulty : DifficultyLevel) (jobDescription resume : option string)
    (st st' : State) (e : Thrown) :
  generateRandomizedPrepSet W jobRole difficulty jobDescription resume st
  = (Throw e, st') ->
  (blank jobRole = true /\ e = JsError "Job role is required" /\ st' = st) \/
  (blank jobRole = false /\ exists e0, e = handleApiError e0 "generateRandomizedPrepSet").
Proof.
  unfold generateRandomizedPrepSet. destruct (blank jobRole).
  - intros H. injection H as <- <-. left. auto.
  - destruct (randomizedPrompts_run W (getRoleCategory jobRole) st)
      as (q & d & c & m & Hp).
    run_step Hp. cbv beta iota zeta. intros H. right. split; [reflexivity|].
    apply guarded_body_throws_classified in H as (e0 & s & _ & -> & _).
    now exists e0.
Qed.

Lemma generateMachineCodingSolution_throws (W : World)
    (problemTitle problemDescription : string) (st st' : State) (e : Thrown) :
  generateMachineCodingSolution W problemTitle problemDescription st = (Throw e, st') ->
  (blank problemTitle || blank problemDescription = true /\
   e = JsError "Both problem title and description are required" /\ st' = st) \/
  (blank problemTitle || blank problemDescription = false /\
   exists e0, e = handleApiError e0 "generateMachineCodingSolution").
Proof.
  unfold generateMachineCodingSolution.
  destruct (blank problemTitle || blank problemDescription).
  - intros H. injection H as <- <-. left. auto.
  - match goal with
    | |- (_ ;; p <- plainPrompt W ?t ;; @?k p) st = _ -> _ =>
        destruct (plainPrompt_after_markers_run W t k st) as (prompt & ->)
    end.
    intros H. right. split; [reflexivity|].
    apply guarded_body_throws_classified in H as (e0 & s & _ & -> & _).
    now exists e0.
Qed.

Lemma analyzeResume_throws (W : World) (resume jobDescription : string)
    (st st' : State) (e : Thrown) :
  analyzeResume W resume jobDescription st = (Throw e, st') ->
  (blank resume || blank jobDescription = true /\
   e = JsError "Both resume and job description are required" /\ st' = st) \/
  (blank resume || blank jobDescription = false /\
   exists e0, e = handleApiError e0 "analyzeResume").
Proof.
  unfold analyzeResume. destruct (blank resume || blank jobDescription).
  - intros H. injection H as <- <-. left. auto.
  - match goal with
    | |- (_ ;; p <- plainPrompt W ?t ;; @?k p) st = _ -> _ =>
        destruct (plainPrompt_after_markers_run W t k st) as (prompt & ->)
    end.
    intros H. right. split; [reflexivity|].
    apply guarded_body_throws_classified in H as (e0 & s & _ & -> & _).
    now exists e0.
Qed.

Lemma generateCompanyInsights_throws (W : World) (companyName : string)
    (st st' : State) (e : Thrown) :
  generateCompanyInsights W companyName st = (Throw e, st') ->
  (blank companyName = true /\ e = JsError "Company name is required" /\ st' = st) \/
  (blank companyName = false /\
   exists e0, e = handleApiError e0 "generateCompanyInsights").
Proof.
  unfold generateCompanyInsights. destruct (blank companyName).
  - intros H. injection H as <- <-. left. auto.
  - match goal with
    | |- (_ ;; p <- plainPrompt W ?t ;; @?k p) st = _ -> _ =>
        destruct (plainPrompt_after_markers_run W t k st) as (prompt & ->)
    end.
    intros H. right. split; [reflexivity|].
    apply guarded_body_throws_classified in H as (e0 & s & _ & -> & _).
    now exists e0.
Qed.

(** X7.  Each exported generation function throws its own validation error
    exactly for the inputs that consist of white space only (the empty
    string among them): for the two orchestrators and the company
    insights, when the one required string is such; for the solution guide
    and the resume analysis, when one of the two is. *)
Theorem validation_error_iff_white_space (W : World) (st : State) :
  (forall jobRole jobDescription resume,
      fst (generateFullInterviewPrep W jobRole jobDescription resume st)
      = Throw (JsError "Job role is required")
      <-> allWhiteSpace jobRole = true) /\
  (forall jobRole difficulty jobDescription resume,
      fst (generateRandomizedPrepSet W jobRole difficulty jobDescription resume st)
      = Throw (JsError "Job role is required")
      <-> allWhiteSpace jobRole = true) /\
  (forall problemTitle problemDescription,
      fst (generateMachineCodingSolution W problemTitle problemDescription st)
      = Throw (JsError "Both problem title and description are required")
      <-> allWhiteSpace problemTitle = true \/ allWhiteSpace problemDescription = true) /\
  (forall companyName,
      fst (generateCompanyInsights W companyName st)
      = Throw (JsError "Company name is required")
      <-> allWhiteSpace companyName = true) /\
  (forall resume jobDescription,
      fst (analyzeResume W resume jobDescription st)
      = Throw (JsError "Both resume and job description are required")
      <-> allWhiteSpace resume = true \/ allWhiteSpace jobDescription = true).
Proof.
  assert (Hhead : forall sentence e0 context,
             In sentence ["Job role is required";
                          "Both problem title and description are required";
                          "Company name is required";
                          "Both resume and job description are required"] ->
             handleApiError e0 context <> JsError sentence).
  { intros sentence e0 context Hin. apply classified_is_not.
    cbn in Hin. repeat (destruct Hin as [<-|Hin]; [cbn; intuition discriminate|]).
    contradiction. }
  split; [|split; [|split; [|split]]].
  - intros jobRole jd resume. rewrite <- blank_iff. split.
    + destruct (generateFullInterviewPrep W jobRole jd resume st) as [r st'] eqn:E.
      cbn [fst]. intros ->.
      apply generateFullInterviewPrep_throws in E
        as [(Hb & _) | (_ & e0 & He)]; [exact Hb|].
      symmetry in He. apply Hhead in He; [contradiction | cbn; tauto].
    + intros Hb. unfold generateFullInterviewPrep. now rewrite Hb.
  - intros jobRole difficulty jd resume. rewrite <- blank_iff. split.
    + destruct (generateRandomizedPrepSet W jobRole difficulty jd resume st)
        as [r st'] eqn:E.
      cbn [fst]. intros ->.
      apply generateRandomizedPrepSet_throws in E
        as [(Hb & _) | (_ & e0 & He)]; [exact Hb|].
      symmetry in He. apply Hhead in He; [contradiction | cbn; tauto].
    + intros Hb. unfold generateRandomizedPrepSet. now rewrite Hb.
  - intros title description. rewrite <- !blank_iff, <- orb_true_iff. split.
    + destruct (generateMachineCodingSolution W title description st)
        as [r st'] eqn:E.
      cbn [fst]. intros ->.
      apply generateMachineCodingSolution_throws in E
        as [(Hb & _) | (_ & e0 & He)]; [exact Hb|].
      symmetry in He. apply Hhead in He; [contradiction | cbn; tauto].
    + intros Hb. unfold generateMachineCodingSolution. now rewrite Hb.
  - intros companyName. rewrite <- blank_iff. split.
    + destruct (generateCompanyInsights W companyName st) as [r st'] eqn:E.
      cbn [fst]. intros ->.
      apply generateCompanyInsights_throws in E
        as [(Hb & _) | (_ & e0 & He)]; [exact Hb|].
      symmetry in He. apply Hhead in He; [contradiction | cbn; tauto].
    + intros Hb. unfold generateCompanyInsights. now rewrite Hb.
  - intros resume jd. rewrite <- !blank_iff, <- orb_true_iff. split.
    + destruct (analyzeResume W resume jd st) as [r st'] eqn:E.
      cbn [fst]. intros ->.
      apply analyzeResume_throws in E
        as [(Hb & _) | (_ & e0 & He)]; [exact Hb|].
      symmetry in He. apply Hhead in He; [contradiction | cbn; tauto].
    + intros Hb. unfold analyzeResume. now rewrite Hb.
Qed.

Lemma validation_error_iff_white_space_witness :
  fst (generateFullInterviewPrep (scripted (Some "key") [] overloaded)
         "Data Engineer" None None initial)
  <> Throw (JsError "Job role is required") /\
  fst (generateCompanyInsights (scripted (Some "key") [] overloaded) "   " initial)
  = Throw (JsError "Company name is required").
Proof.
  pose proof (validation_error_iff_white_space
                (scripted (Some "key") [] overloaded) initial)
    as (Hfull & _ & _ & Hinsights & _).
  split.
  - intros H. apply Hfull in H. discriminate H.
  - apply Hinsights. reflexivity.
Defined.

(** ** Classifying twice *)

Lemma lowered_unexpected (m : string) :
  toLowerCase (msg_unexpected m) = ("unexpected error: " ++ toLowerCase m)%string.
Proof. unfold msg_unexpected. now rewrite toLowerCase_app. Qed.

(** None of the classifier's patterns begins inside the words
    "unexpected error: ". *)
Lemma includes_after_unexpected (m p : string) :
  In p ["api key not valid"; "quota"; "429"; "400"; "500"; "503"; "safety"] ->
  includes (toLowerCase (msg_unexpected m)) p = includes (toLowerCase m) p.
Proof.
  intros Hin. rewrite lowered_unexpected. cbn in Hin.
  repeat (destruct Hin as [<-|Hin]; [reflexivity|]). contradiction.
Qed.

Lemma classified_twice (e : Thrown) :
  (handleApiError_message e = msg_quota /\
   handleApiError_message (JsError (handleApiError_message e)) = msg_quota) \/
  (handleApiError_message e = msg_safety /\
   handleApiError_message (JsError (handleApiError_message e)) = msg_safety) \/
  (handleApiError_message e <> msg_quota /\
   handleApiError_message e <> msg_safety /\
   handleApiError_message (JsError (handleApiError_message e))
   = msg_unexpected (handleApiError_message e)).
Proof.
  assert (Hfixed : forall sentence,
             In sentence [msg_unavailable; msg_invalid_key; msg_invalid_request;
                          msg_service_unavailable] ->
             sentence <> msg_quota /\ sentence <> msg_safety /\
             handleApiError_message (JsError sentence) = msg_unexpected sentence).
  { intros sentence Hin. cbn in Hin.
    repeat (destruct Hin as [<-|Hin];
            [split; [discriminate|split; [discriminate|reflexivity]]|]).
    contradiction. }
  destruct e as [m| |]; cbn [handleApiError_message];
    try (right; right; apply Hfixed; cbn; tauto).
  destruct (truthy_string m); [|right; right; apply Hfixed; cbn; tauto].
  cbv zeta.
  destruct (includes (toLowerCase m) "api key not valid") eqn:Ekey;
    [right; right; apply Hfixed; cbn; tauto|].
  destruct (includes (toLowerCase m) "quota") eqn:Equota; [left; now split|].
  destruct (includes (toLowerCase m) "429") eqn:E429; [left; now split|].
  cbn [orb].
  destruct (includes (toLowerCase m) "400") eqn:E400;
    [right; right; apply Hfixed; cbn; tauto|].
  destruct (includes (toLowerCase m) "500") eqn:E500;
    [right; right; apply Hfixed; cbn; tauto|].
  destruct (includes (toLowerCase m) "503") eqn:E503;
    [right; right; apply Hfixed; cbn; tauto|].
  cbn [orb].
  destruct (includes (toLowerCase m) "safety") eqn:Esafety;
    [right; left; now split|].
  right; right. split; [discriminate|split; [discriminate|]].
  cbn [handleApiError_message].
  replace (truthy_string (msg_unexpected m)) with true by reflexivity.
  cbv zeta.
  rewrite !includes_after_unexpected by (cbn; tauto).
  now rewrite Ekey, Equota, E429, E400, E500, E503, Esafety.
Qed.

(** X8.  Classifying an output of the classifier again keeps the quota
    sentence and the safety sentence and puts "Unexpected error: " before
    every other sentence, the catch-all one included. *)
Theorem classifying_twice (e : Thrown) (context context' : string) :
  (handleApiError e context = JsError msg_quota \/
   handleApiError e context = JsError msg_safety ->
   handleApiError (handleApiError e context) context' = handleApiError e context) /\
  (handleApiError e context <> JsError msg_quota ->
   handleApiError e context <> JsError msg_safety ->
   handleApiError (handleApiError e context) context'
   = JsError (msg_unexpected (handleApiError_message e))).
Proof.
  unfold handleApiError. split.
  - intros [H|H]; injection H as ->; reflexivity.
  - intros Hq Hs.
    destruct (classified_twice e) as [[H _]|[[H _]|(_ & _ & ->)]];
      [elim Hq | elim Hs | ]; congruence.
Qed.

Lemma classifying_twice_witness :
  handleApiError (handleApiError (JsError "API key not valid. Please pass a valid API key.")
                    "generateAndParse") "analyzeResume"
  = JsError (msg_unexpected msg_invalid_key) /\
  handleApiError (handleApiError (JsError "429 Too Many Requests") "generateAndParse")
    "analyzeResume"
  = JsError msg_quota.
Proof.
  split.
  - apply (classifying_twice (JsError "API key not valid. Please pass a valid API key.")
             "generateAndParse" "analyzeResume"); discriminate.
  - apply (classifying_twice (JsError "429 Too Many Requests")
             "generateAndParse" "analyzeResume").
    left. reflexivity.
Defined.

(** ** What reaches the caller *)

Lemma bind_throws {A B} (c : M A) (k : A -> M B) (st st' : State) (e : Thrown) :
  (x <- c ;; k x) st = (Throw e, st') ->
  c st = (Throw e, st') \/ exists a s, c st = (Normal a, s) /\ k a s = (Throw e, st').
Proof.
  unfold bind. destruct (c st) as [[a|e0] s]; intros H.
  - right. now exists a, s.
  - left. injection H as <- <-. reflexivity.
Qed.

Lemma lift_throws {A} (r : Completion A) (st st' : State) (e : Thrown) :
  lift r st = (Throw e, st') -> r = Throw e.
Proof. unfold lift. congruence. Qed.

(** The errors of the two property reads of an orchestrator, classified. *)
Lemma getProp_throws_unexpected (v : JsValue) (key : string) (e : Thrown) :
  In key ["generalQuestions"; "technicalQuestions"] ->
  getProp v key = Throw e ->
  handleApiError_message e = msg_unexpected (message_of e).
Proof.
  intros Hin H. cbn in Hin.
  destruct Hin as [<-|[<-|[]]]; destruct v; try discriminate H;
    injection H as <-; reflexivity.
Qed.

Ltac body_throws H :=
  repeat (apply bind_throws in H as [H|(? & ? & _ & H)];
          [first [ apply generateAndParse_throws_classified in H; now left
                 | apply lift_throws in H; right; eauto 6 using in_eq, in_cons
                 | discriminate H ]|]);
  try discriminate H.

(** X9.  Of the classifier's six fixed sentences only the quota sentence and
    the safety sentence reach a caller of the four functions that go through
    [generateAndParse]: what the retry loop throws is classified a second
    time by the function's own [catch], so every other failure, the invalid
    key and the unavailable service among them, arrives with
    "Unexpected error: " in front. *)
Theorem only_quota_and_safety_pass_unchanged (W : World) (st st' : State)
    (e : Thrown) :
  (exists jobRole jobDescription resume,
      blank jobRole = false /\
      generateFullInterviewPrep W jobRole jobDescription resume st = (Throw e, st')) \/
  (exists jobRole difficulty jobDescription resume,
      blank jobRole = false /\
      generateRandomizedPrepSet W jobRole difficulty jobDescription resume st
      = (Throw e, st')) \/
  (exists problemTitle problemDescription,
      blank problemTitle || blank problemDescription = false /\
      generateMachineCodingSolution W problemTitle problemDescription st
      = (Throw e, st')) \/
  (exists resume jobDescription,
      blank resume || blank jobDescription = false /\
      analyzeResume W resume jobDescription st = (Throw e, st')) ->
  exists sentence,
    e = JsError sentence /\
    (sentence = msg_quota \/ sentence = msg_safety \/
     startsWith sentence "Unexpected error: " = true) /\
    ~ In sentence [msg_unavailable; msg_invalid_key; msg_invalid_request;
                   msg_service_unavailable].
Proof.
  intros Hrun.
  assert (Hbody : exists e0,
             e = handleApiError e0 "" /\
             ((exists e1, e0 = handleApiError e1 "generateAndParse") \/
              (exists v key, In key ["generalQuestions"; "technicalQuestions"] /\
                             getProp v key = Throw e0))).
  { destruct Hrun as [(jobRole & jd & cv & Hb & H)|[(jobRole & d & jd & cv & Hb & H)
                     |[(t & d & Hb & H)|(cv & jd & Hb & H)]]].
    - unfold generateFullInterviewPrep in H. rewrite Hb in H.
      destruct (fullPrepPrompts_run W (getRoleCategory jobRole) st) as (q & c & m & Hp).
      rewrite (bind_normal _ _ _ _ _ Hp) in H. cbv beta iota zeta in H.
      apply guarded_body_throws_classified in H as (e0 & s & H & -> & _).
      exists e0. split; [reflexivity|]. body_throws H.
    - unfold generateRandomizedPrepSet in H. rewrite Hb in H.
      destruct (randomizedPrompts_run W (getRoleCategory jobRole) st)
        as (q & sd & c & m & Hp).
      rewrite (bind_normal _ _ _ _ _ Hp) in H. cbv beta iota zeta in H.
      apply guarded_body_throws_classified in H as (e0 & s & H & -> & _).
      exists e0. split; [reflexivity|]. body_throws H.
    - unfold generateMachineCodingSolution in H. rewrite Hb in H.
      match type of H with
      | (_ ;; p <- plainPrompt W ?t ;; @?k p) st = _ =>
          destruct (plainPrompt_after_markers_run W t k st) as (prompt & Hp)
      end.
      rewrite Hp in H.
      apply guarded_body_throws_classified in H as (e0 & s & H & -> & _).
      exists e0. split; [reflexivity|].
      left. exact (generateAndParse_throws_classified _ _ _ _ _ _ _ _ H).
    - unfold analyzeResume in H. rewrite Hb in H.
      match type of H with
      | (_ ;; p <- plainPrompt W ?t ;; @?k p) st = _ =>
          destruct (plainPrompt_after_markers_run W t k st) as (prompt & Hp)
      end.
      rewrite Hp in H.
      apply guarded_body_throws_classified in H as (e0 & s & H & -> & _).
      exists e0. split; [reflexivity|].
      left. exact (generateAndParse_throws_classified _ _ _ _ _ _ _ _ H). }
  destruct Hbody as (e0 & -> & [(e1 & ->)|(v & key & Hkey & Hget)]).
  - exists (handleApiError_message (JsError (handleApiError_message e1))).
    split; [reflexivity|].
    destruct (classified_twice e1) as [[_ ->]|[[_ ->]|(_ & _ & ->)]].
    + split; [now left|]. cbn. intros [H|[H|[H|[H|[]]]]]; discriminate H.
    + split; [now right; left|]. cbn. intros [H|[H|[H|[H|[]]]]]; discriminate H.
    + split; [right; right; apply startsWith_iff; eexists; reflexivity|].
      cbn. intros [H|[H|[H|[H|[]]]]]; discriminate H.
  - exists (handleApiError_message e0). split; [reflexivity|].
    rewrite (getProp_throws_unexpected v key e0 Hkey Hget).
    split; [right; right; apply startsWith_iff; eexists; reflexivity|].
    cbn. intros [H|[H|[H|[H|[]]]]]; discriminate H.
Qed.

Lemma only_quota_and_safety_pass_unchanged_witness :
  exists sentence,
    JsError (msg_unexpected msg_service_unavailable) = JsError sentence /\
    (sentence = msg_quota \/ sentence = msg_safety \/
     startsWith sentence "Unexpected error: " = true) /\
    ~ In sentence [msg_unavailable; msg_invalid_key; msg_invalid_request;
                   msg_service_unavailable].
Proof.
  set (W := scripted (Some "key") [] overloaded).
  apply (only_quota_and_safety_pass_unchanged W initial
           (snd (analyzeResume W "my resume" "the job" initial))).
  right; right; right. exists "my resume", "the job".
  split; [reflexivity|]. vm_compute. reflexivity.
Defined.

(** ** How the company insights fail *)

(** X10.  [generateCompanyInsights] does not retry: with a name that is not
    blank and a client at hand, a rejected request makes it throw the
    classifier's output for the rejection, and a response without text
    makes it throw the classifier's output for
    "Unable to generate insights for <name>", in both cases after exactly
    one request, with no warning written and no timer set.  The second
    sentence contains the company name, so the name takes part in the
    classification. *)
Theorem generateCompanyInsights_fails_at_once (W : World) (companyName : string)
    (st s1 : State) (client : GoogleGenAI) :
  blank companyName = false ->
  getAiClient W (drawn 3 st) = (Normal client, s1) ->
  let failure :=
    match service W (requests st) with
    | Rejects e => Some e
    | Responds r =>
        match text r with
        | None | Some EmptyString => Some (JsError (msg_no_insights companyName))
        | Some _ => None
        end
    end in
  forall e, failure = Some e ->
    exists st',
      generateCompanyInsights W companyName st
      = (Throw (handleApiError e "generateCompanyInsights"), st') /\
      requests st' = S (requests st) /\
      length (network (added (trace st) (trace st'))) = 1 /\
      warnings (added (trace st) (trace st')) = [] /\
      timeouts (added (trace st) (trace st')) = [].
Proof.
  intros Hblank Hclient failure e Hfail. subst failure.
  pose proof (getAiClient_requests W (drawn 3 st)) as Hreq.
  pose proof (getAiClient_trace W (drawn 3 st)) as Htr.
  rewrite Hclient in Hreq, Htr. cbn [snd drawn requests trace] in Hreq, Htr.
  unfold generateCompanyInsights. rewrite Hblank.
  match goal with
  | |- exists _, (_ ;; p <- plainPrompt W ?t ;; @?k p) st = _ /\ _ =>
      destruct (plainPrompt_after_markers_run W t k st) as (prompt & ->)
  end.
  unfold tryCatch. rewrite (bind_normal _ _ _ _ _ Hclient).
  unfold bind, generateContent. rewrite Hreq.
  destruct (service W (requests st)) as [e0|r].
  - injection Hfail as <-. eexists. split; [reflexivity|].
    cbn [requests trace]. rewrite Htr, added_app. now auto.
  - destruct (text r) as [[|ch content_text]|]; try discriminate Hfail;
      injection Hfail as <-; cbn [truthy_string negb];
      (eexists; split; [reflexivity|]);
      cbn [requests trace]; rewrite Htr, added_app; now auto.
Qed.

Lemma generateCompanyInsights_fails_at_once_witness :
  exists st',
    generateCompanyInsights (scripted (Some "key") [says EmptyString] overloaded)
      "500 Startups" initial
    = (Throw (JsError msg_service_unavailable), st') /\
    requests st' = 1 /\
    length (network (added (trace initial) (trace st'))) = 1 /\
    warnings (added (trace initial) (trace st')) = [] /\
    timeouts (added (trace initial) (trace st')) = [].
Proof.
  exact (generateCompanyInsights_fails_at_once
           (scripted (Some "key") [says EmptyString] overloaded) "500 Startups"
           initial _ {| apiKey := "key" |} eq_refl eq_refl
           (JsError (msg_no_insights "500 Startups")) eq_refl).
Defined.

(** ** The retry loop for every number of attempts *)




(** ** Where a returned value comes from *)

Lemma attemptOnce_returns (W : World) (prompt : Prompt) (schema : Schema)
    (st s1 : State) (v : JsValue) :
  attemptOnce W prompt schema st = (Normal v, s1) ->
  exists r raw evs,
    service W (requests st) = Responds r /\
    text r = Some raw /\ raw <> EmptyString /\
    (startsWith (trim raw) "{" = true \/ startsWith (trim raw) "[" = true) /\
    JSON_parse W (trim raw) = Normal v /\
    requests s1 = S (requests st) /\
    trace s1 = trace st ++ evs ++ [JsonParse (trim raw)].
Proof.
  unfold attemptOnce.
  pose proof (getAiClient_requests W st) as Hreq.
  pose proof (getAiClient_trace W st) as Htr.
  unfold bind at 1.
  destruct (getAiClient W st) as [[client|e] s0]; [|discriminate].
  cbn [snd] in Hreq, Htr.
  unfold bind, random, generateContent. cbn [requests draws trace ai].
  rewrite Hreq.
  destruct (service W (requests st)) as [e|r] eqn:Hservice; [discriminate|].
  unfold parseResponse, parse, bind, emit, lift, throw.
  destruct (text r) as [raw|] eqn:Htext; [|discriminate].
  destruct raw as [|ch raw]; [discriminate|]. cbn [truthy_string negb].
  destruct (startsWith (trim (String ch raw)) "{") eqn:Hbrace;
    destruct (startsWith (trim (String ch raw)) "[") eqn:Hbracket;
    cbn [negb andb]; try discriminate;
    (destruct (JSON_parse W (trim (String ch raw))) as [v'|e] eqn:Hparse;
     [|discriminate]);
    intros H; injection H as <- <-;
    exists r, (String ch raw); eexists [_];
    cbn [requests trace]; rewrite Htr, <- app_assoc;
    (split; [first [reflexivity|assumption]|]);
    (split; [first [reflexivity|assumption]|]); (split; [discriminate|]);
    (split; [tauto|]); (split; [first [reflexivity|assumption]|]);
    split; reflexivity.
Qed.

Lemma attemptOnce_requests_grow (W : World) (prompt : Prompt) (schema : Schema)
    (st : State) :
  requests st <= requests (snd (attemptOnce W prompt schema st)).
Proof.
  unfold attemptOnce.
  pose proof (getAiClient_requests W st) as Hr.
  unfold bind at 1.
  destruct (getAiClient W st) as [[client|e] s1]; cbn [snd] in Hr |- *; [|lia].
  unfold bind, random, generateContent. cbn [requests draws trace ai].
  destruct (service W (requests s1)) as [e|r]; cbn [snd requests]; [lia|].
  unfold parseResponse, parse, bind, emit, lift, throw.
  destruct (text r) as [raw|]; cbn [snd requests]; [|lia].
  destruct (negb (truthy_string raw)); cbn [snd requests]; [lia|].
  destruct (negb (startsWith (trim raw) "{") && negb (startsWith (trim raw) "["));
    cbn [snd requests]; [lia|].
  destruct (JSON_parse W (trim raw)); cbn [snd requests]; lia.
Qed.

Lemma retryLoop_returns (W : World) (prompt : Prompt) (schema : Schema)
    (maxRetries : nat) (attempts : list nat) :
  forall lastError st st' v,
    retryLoop W prompt schema maxRetries attempts lastError st = (Normal v, st') ->
    exists n r raw evs,
      requests st <= n /\ requests st' = S n /\
      service W n = Responds r /\
      text r = Some raw /\ raw <> EmptyString /\
      (startsWith (trim raw) "{" = true \/ startsWith (trim raw) "[" = true) /\
      JSON_parse W (trim raw) = Normal v /\
      trace st' = trace st ++ evs ++ [JsonParse (trim raw)].
Proof.
  induction attempts as [|attempt later IH]; intros lastError st st' v H.
  - discriminate H.
  - cbn [retryLoop] in H. unfold tryCatch in H.
    pose proof (attemptOnce_requests_grow W prompt schema st) as Hgrow.
    destruct (attemptOnce_trace W prompt schema st) as (evs1 & Hevs1 & _).
    destruct (attemptOnce W prompt schema st) as [[v1|e1] s1] eqn:Hrun;
      cbn [snd] in Hgrow, Hevs1.
    + injection H as <- <-.
      destruct (attemptOnce_returns W prompt schema st s1 v1 Hrun)
        as (r & raw & evs & Hs & Ht & Hraw & Hstart & Hparse & Hreq & Htrace).
      exists (requests st), r, raw, evs. repeat (split; [auto; lia|]). exact Htrace.
    + rewrite (bind_normal _ _ _ _ _ (warn_run attempt e1 s1)) in H.
      destruct (attempt =? maxRetries); [discriminate H|].
      destruct (IH e1 (backedOff W attempt (warned attempt e1 s1)) st' v H)
        as (n & r & raw & evs & Hn & Hreq & Hs & Ht & Hraw & Hstart & Hparse & Htrace).
      exists n, r, raw.
      eexists (evs1 ++ [_; _] ++ evs).
      cbn [requests backedOff warned emit sleep bind random snd] in Hn.
      split; [lia|]. do 5 (split; [assumption|]).
      rewrite Htrace, trace_backedOff, trace_warned, Hevs1.
      now rewrite <- !app_assoc.
Qed.

(** X12.  A value that [generateAndParse] returns is what [JSON.parse] made
    of the trimmed text of the response to the last request of the run:
    that text was not empty and began, trimmed, with a brace or a bracket,
    parsing it is the last thing the run did, and no result is made up
    after failures. *)
Theorem generateAndParse_returns_last_response (W : World) (prompt : Prompt)
    (schema : Schema) (maxRetries : nat) (contextId : option string)
    (st st' : State) (v : JsValue) :
  generateAndParse W prompt schema maxRetries contextId st = (Normal v, st') ->
  exists n r raw evs,
    requests st <= n /\ requests st' = S n /\
    service W n = Responds r /\
    text r = Some raw /\ raw <> EmptyString /\
    (startsWith (trim raw) "{" = true \/ startsWith (trim raw) "[" = true) /\
    JSON_parse W (trim raw) = Normal v /\
    added (trace st) (trace st') = evs ++ [JsonParse (trim raw)].
Proof.
  intros H. apply retryLoop_returns in H
    as (n & r & raw & evs & Hn & Hreq & Hs & Ht & Hraw & Hstart & Hparse & Htrace).
  exists n, r, raw, evs. do 7 (split; [assumption|]).
  now rewrite Htrace, added_app.
Qed.

Lemma generateAndParse_returns_last_response_witness :
  exists n r raw evs,
    0 <= n /\ 2 = S n /\
    service (scripted (Some "key") [overloaded; says "  [1, 2]  "] overloaded) n
    = Responds r /\
    text r = Some raw /\ raw <> EmptyString /\
    (startsWith (trim raw) "{" = true \/ startsWith (trim raw) "[" = true) /\
    reference_JSON_parse (trim raw)
    = Normal (JArray [JNumber (inject_Z 1); JNumber (inject_Z 2)]) /\
    added []
      (trace (snd (generateAndParse
                     (scripted (Some "key") [overloaded; says "  [1, 2]  "] overloaded)
                     aPrompt machineCodingSolutionSchema 2 None initial)))
    = evs ++ [JsonParse (trim raw)].
Proof.
  set (W := scripted (Some "key") [overloaded; says "  [1, 2]  "] overloaded).
  set (s1 := snd (generateAndParse W aPrompt machineCodingSolutionSchema 2 None initial)).
  assert (Hrun : generateAndParse W aPrompt machineCodingSolutionSchema 2 None initial
                 = (Normal (JArray [JNumber (inject_Z 1); JNumber (inject_Z 2)]), s1)).
  { vm_compute. reflexivity. }
  exact (generateAndParse_returns_last_response W aPrompt machineCodingSolutionSchema
           2 None initial s1 _ Hrun).
Defined.

(** ** What a returned aggregate has cost *)

Lemma bind_returns {A B} (c : M A) (k : A -> M B) (st st' : State) (b : B) :
  (x <- c ;; k x) st = (Normal b, st') ->
  exists a s, c st = (Normal a, s) /\ k a s = (Normal b, st').
Proof.
  unfold bind. destruct (c st) as [[a|e] s]; intros H; [|discriminate H].
  now exists a, s.
Qed.

Lemma guarded_body_returns {A} (body : M A) (context : string)
    (st st' : State) (a : A) :
  tryCatch body (fun error => throw (handleApiError error context)) st = (Normal a, st') ->
  body st = (Normal a, st').
Proof.
  unfold tryCatch, throw. destruct (body st) as [[a0|e0] s]; [|discriminate].
  intros H. now injection H as <- <-.
Qed.

Lemma waited_app (a b : list Event) : (waited (a ++ b) == waited a + waited b)%Q.
Proof.
  unfold waited. rewrite timeouts_app.
  induction (timeouts a) as [|ms l IH]; cbn [app fold_right]; [ring|].
  rewrite IH. ring.
Qed.

Lemma retryLoop_waits (W : World) (prompt : Prompt) (schema : Schema)
    (maxRetries : nat) (attempts : list nat) :
  random_in_unit W ->
  forall lastError st,
    exists evs,
      trace (snd (retryLoop W prompt schema maxRetries attempts lastError st))
      = trace st ++ evs /\
      (0 <= waited evs)%Q.
Proof.
  intros Hunit.
  induction attempts as [|attempt later IH]; intros lastError st.
  - exists []. cbn. rewrite app_nil_r. split; [reflexivity|]. unfold waited. cbn. lra.
  - cbn [retryLoop]. unfold tryCatch.
    destruct (attemptOnce_trace W prompt schema st) as (evs1 & Hevs1 & _ & Ht1).
    destruct (attemptOnce W prompt schema st) as [[v|e] s1]; cbn [snd] in Hevs1 |- *.
    + exists evs1. split; [exact Hevs1|]. unfold waited. rewrite Ht1. cbn. lra.
    + rewrite (bind_normal _ _ _ _ _ (warn_run attempt e s1)).
      destruct (attempt =? maxRetries).
      * exists (evs1 ++ [ConsoleWarn attempt e]).
        cbn [throw snd]. rewrite trace_warned, Hevs1, <- app_assoc.
        split; [reflexivity|]. unfold waited. rewrite timeouts_app, Ht1. cbn. lra.
      * destruct (IH e (backedOff W attempt (warned attempt e s1))) as (evs & Hevs & Hw).
        exists (evs1 ++ [ConsoleWarn attempt e;
                         SetTimeout (backoff attempt
                                       (Math_random W (draws (warned attempt e s1))))]
                  ++ evs).
        change (trace (snd (retryLoop W prompt schema maxRetries later e
                              (backedOff W attempt (warned attempt e s1))))
                = trace st ++ evs1 ++ [ConsoleWarn attempt e;
                         SetTimeout (backoff attempt
                                       (Math_random W (draws (warned attempt e s1))))]
                  ++ evs /\
                (0 <= waited (evs1 ++ [ConsoleWarn attempt e;
                         SetTimeout (backoff attempt
                                       (Math_random W (draws (warned attempt e s1))))]
                  ++ evs))%Q).
        rewrite Hevs, trace_backedOff, trace_warned, Hevs1, <- !app_assoc.
        split; [reflexivity|].
        rewrite !waited_app. unfold waited at 1 2. rewrite Ht1.
        cbn [timeouts flat_map app fold_right].
        destruct (backoff_bounds attempt (Math_random W (draws (warned attempt e s1))))
          as [Hlo _]; try apply Hunit.
        assert (0 <= inject_Z (1000 * Z.of_nat attempt))%Q.
        { change 0%Q with (inject_Z 0). rewrite <- Zle_Qle. lia. }
        lra.
Qed.

(** One sub-call that returns: at least one request and at most two, and
    timers that add up to no less than nothing. *)
Lemma generateAndParse_cost (W : World) (prompt : Prompt) (schema : Schema)
    (contextId : option string) (st st' : State) (v : JsValue) :
  random_in_unit W ->
  generateAndParse W prompt schema 2 contextId st = (Normal v, st') ->
  S (requests st) <= requests st' <= requests st + 2 /\
  exists evs, trace st' = trace st ++ evs /\ (0 <= waited evs)%Q.
Proof.
  intros Hunit H. unfold generateAndParse in H.
  pose proof (retryLoop_requests W prompt schema 2 (seq 1 2) JsNull st) as Hup.
  destruct (retryLoop_waits W prompt schema 2 (seq 1 2) Hunit JsNull st)
    as (evs & Hevs & Hw).
  destruct (retryLoop_returns W prompt schema 2 (seq 1 2) JsNull st st' v H)
    as (n & _ & _ & _ & Hn & Hreq & _).
  rewrite H in Hup, Hevs. cbn [snd length seq] in Hup, Hevs.
  split; [lia|]. now exists evs.
Qed.

Lemma lift_returns {A} (r : Completion A) (st s : State) (a : A) :
  lift r st = (Normal a, s) -> r = Normal a /\ s = st.
Proof. unfold lift. intros H. injection H as -> <-. now split. Qed.

Lemma truthy_js_or (a b : JsValue) : truthy b = true -> truthy (js_or a b) = true.
Proof. unfold js_or. intros Hb. destruct (truthy a) eqn:E; assumption. Qed.

Ltac fixed_wait H :=
  let s := fresh "s" in
  let Hs := fresh "Hs" in
  apply bind_returns in H as ([] & s & Hs & H);
  rewrite sleep_run in Hs; injection Hs as <-.
Ltac property_read H :=
  let g := fresh "g" in
  let s := fresh "s" in
  let Hg := fresh "Hg" in
  apply bind_returns in H as (g & s & Hg & H);
  apply lift_returns in Hg as [_ ->].

(** X13.  What an orchestrator has done when it returns an aggregate.  The
    role category of the aggregate is the one [getRoleCategory] gives the
    job role, and no field of it is [null], [undefined] or another falsy
    value.  The full kit has taken at least three requests and at most six,
    and timers of at least 4000 ms in all (two fixed waits of 2000 ms
    between its three sub-calls, besides the back-off waits); the
    randomized set at least four requests and at most eight, and timers of
    at least 4500 ms (three fixed waits of 1500 ms). *)
Theorem orchestrators_cost (W : World) (jobRole : string)
    (jobDescription resume : option string) (st st' : State) :
  random_in_unit W ->
  (forall prep,
      generateFullInterviewPrep W jobRole jobDescription resume st = (Normal prep, st') ->
      fip_roleCategory prep = getRoleCategory jobRole /\
      truthy (fip_generalQuestions prep) = true /\
      truthy (fip_technicalQuestions prep) = true /\
      truthy (fip_codingChallenges prep) = true /\
      truthy (fip_machineCoding prep) = true /\
      requests st + 3 <= requests st' <= requests st + 6 /\
      (4000 <= waited (added (trace st) (trace st')))%Q) /\
  (forall difficulty set,
      generateRandomizedPrepSet W jobRole difficulty jobDescription resume st
      = (Normal set, st') ->
      rps_roleCategory set = getRoleCategory jobRole /\
      truthy (rps_generalQuestions set) = true /\
      truthy (rps_technicalQuestions set) = true /\
      truthy (rps_systemDesignQuestions set) = true /\
      truthy (rps_codingChallenges set) = true /\
      truthy (rps_machineCoding set) = true /\
      requests st + 4 <= requests st' <= requests st + 8 /\
      (4500 <= waited (added (trace st) (trace st')))%Q).
Proof.
  intros Hunit. split.
  - intros prep H. unfold generateFullInterviewPrep in H.
    destruct (blank jobRole); [discriminate H|].
    destruct (fullPrepPrompts_run W (getRoleCategory jobRole) st) as (q & c & m & Hp).
    rewrite (bind_normal _ _ _ _ _ Hp) in H. cbv beta iota zeta in H.
    apply guarded_body_returns in H.
    apply bind_returns in H as (v1 & s1 & H1 & H). fixed_wait H.
    apply bind_returns in H as (v2 & s2 & H2 & H). fixed_wait H.
    apply bind_returns in H as (v3 & s3 & H3 & H).
    property_read H. property_read H.
    injection H as <- <-.
    apply (generateAndParse_cost W _ _ _ _ _ _ Hunit) in H1 as (Hr1 & evs1 & Ht1 & Hw1).
    apply (generateAndParse_cost W _ _ _ _ _ _ Hunit) in H2 as (Hr2 & evs2 & Ht2 & Hw2).
    apply (generateAndParse_cost W _ _ _ _ _ _ Hunit) in H3 as (Hr3 & evs3 & Ht3 & Hw3).
    cbn [fip_roleCategory fip_generalQuestions fip_technicalQuestions
         fip_codingChallenges fip_machineCoding].
    split; [reflexivity|].
    do 4 (split; [now apply truthy_js_or|]).
    cbn [slept sleep emit snd requests trace drawn] in *.
    split; [lia|].
    rewrite Ht3, Ht2, Ht1, <- !app_assoc, added_app, !waited_app.
    unfold waited at 2 4. cbn [timeouts flat_map app fold_right].
    change (inject_Z 2000) with 2000%Q. lra.
  - intros difficulty set H. unfold generateRandomizedPrepSet in H.
    destruct (blank jobRole); [discriminate H|].
    destruct (randomizedPrompts_run W (getRoleCategory jobRole) st)
      as (q & d & c & m & Hp).
    rewrite (bind_normal _ _ _ _ _ Hp) in H. cbv beta iota zeta in H.
    apply guarded_body_returns in H.
    apply bind_returns in H as (v1 & s1 & H1 & H). fixed_wait H.
    apply bind_returns in H as (v2 & s2 & H2 & H). fixed_wait H.
    apply bind_returns in H as (v3 & s3 & H3 & H). fixed_wait H.
    apply bind_returns in H as (v4 & s4 & H4 & H).
    property_read H. property_read H.
    injection H as <- <-.
    apply (generateAndParse_cost W _ _ _ _ _ _ Hunit) in H1 as (Hr1 & evs1 & Ht1 & Hw1).
    apply (generateAndParse_cost W _ _ _ _ _ _ Hunit) in H2 as (Hr2 & evs2 & Ht2 & Hw2).
    apply (generateAndParse_cost W _ _ _ _ _ _ Hunit) in H3 as (Hr3 & evs3 & Ht3 & Hw3).
    apply (generateAndParse_cost W _ _ _ _ _ _ Hunit) in H4 as (Hr4 & evs4 & Ht4 & Hw4).
    cbn [rps_roleCategory rps_generalQuestions rps_technicalQuestions
         rps_systemDesignQuestions rps_codingChallenges rps_machineCoding].
    split; [reflexivity|].
    do 5 (split; [now apply truthy_js_or|]).
    cbn [slept sleep emit snd requests trace drawn] in *.
    split; [lia|].
    rewrite Ht4, Ht3, Ht2, Ht1, <- !app_assoc, added_app, !waited_app.
    unfold waited at 2 4 6. cbn [timeouts flat_map app fold_right].
    change (inject_Z 1500) with 1500%Q. lra.
Qed.

Lemma orchestrators_cost_witness :
  let W := scripted (Some "key") [overloaded; says "{}"; says "[]"; says "{}"] overloaded in
  let st' := snd (generateFullInterviewPrep W "Backend Engineer" None None initial) in
  requests st' = 4 /\
  (4000 <= waited (added (trace initial) (trace st')))%Q.
Proof.
  cbv zeta.
  set (W := scripted (Some "key") [overloaded; says "{}"; says "[]"; says "{}"] overloaded).
  set (st' := snd (generateFullInterviewPrep W "Backend Engineer" None None initial)).
  assert (Hrun : generateFullInterviewPrep W "Backend Engineer" None None initial
                 = (Normal {| fip_roleCategory := tech;
                              fip_generalQuestions := JArray [];
                              fip_technicalQuestions := JArray [];
                              fip_codingChallenges := JArray [];
                              fip_machineCoding := JObject [] |}, st')).
  { vm_compute. reflexivity. }
  split; [vm_compute; reflexivity|].
  exact (proj2 (proj2 (proj2 (proj2 (proj2 (proj2
           (proj1 (orchestrators_cost W "Backend Engineer" None None initial st'
                     (scripted_random_in_unit _ _ _)) _ Hrun))))))).
Defined.

(** ** The company name in a job role *)

Lemma includes_cons_false (c : ascii) (s p : string) :
  includes (String c s) p = false -> includes s p = false.
Proof. cbn [includes]. intros H. now apply orb_false_iff in H as [_ H]. Qed.

Lemma includes_at_head (c : ascii) (s : string) :
  includes (String c s) "@" = false -> Ascii.eqb c "@" = false.
Proof.
  cbn [includes]. intros H. apply orb_false_iff in H as [H _].
  unfold startsWith in H. cbn [prefix] in H.
  destruct (Ascii.eqb_spec c "@"%char) as [->|]; [|reflexivity].
  cbn in H. now destruct s.
Qed.

Lemma split_without (s : string) :
  includes s "@" = false -> split "@" s = [s].
Proof.
  induction s as [|c s IH]; intros H; [reflexivity|].
  cbn [split]. rewrite (includes_at_head c s H), IH; [reflexivity|].
  exact (includes_cons_false c s "@" H).
Qed.

Lemma split_at (a b : string) :
  includes a "@" = false ->
  split "@" (a ++ String "@" b) = a :: split "@" b.
Proof.
  induction a as [|c a IH]; intros H; [reflexivity|].
  cbn [append split]. rewrite (includes_at_head c a H), IH; [reflexivity|].
  exact (includes_cons_false c a "@" H).
Qed.

Lemma truthy_string_middle (a b : string) (c : ascii) :
  truthy_string (a ++ String c b) = true.
Proof. now destruct a. Qed.

(** No sentence of the classifier is a validation sentence of the service,
    a sentence of a view's own input check or a fallback of a view's
    [catch]. *)
Lemma classified_is_no_view_sentence (e : Thrown) (sentence : string) :
  In sentence
    ["Job role is required"; "Both problem title and description are required";
     "Company name is required"; "Both resume and job description are required";
     "Please enter a job role.";
     "Please enter a job role to generate a practice set.";
     "Please paste both your resume and the job description.";
     "An unknown error occurred."; "An unknown error occurred while refreshing.";
     "An unknown error occurred while generating challenges.";
     "An unknown error occurred while analyzing.";
     "An unknown error occurred while fetching company insights."] ->
  handleApiError_message e <> sentence.
Proof.
  intros Hin E. cbn [In] in Hin.
  assert (Hcase : In (handleApiError_message e) fixed_sentences \/
                  exists m, handleApiError_message e = msg_unexpected m).
  { destruct e as [m| |]; cbn [handleApiError_message]; classify_cases;
      unfold fixed_sentences; cbn [In]; eauto 10. }
  rewrite E in Hcase. destruct Hcase as [Hfixed|[m Hm]].
  - unfold fixed_sentences in Hfixed. cbn [In] in Hfixed.
    repeat (destruct Hin as [<-|Hin];
            [repeat (destruct Hfixed as [Hfixed|Hfixed];
                     [discriminate Hfixed|]); contradiction|]).
    contradiction.
  - repeat (destruct Hin as [<-|Hin]; [discriminate Hm|]). contradiction.
Qed.

Module Insights.

Import CompanyInsightsView.

Lemma extractCompanyName_trimmed (role : string) :
  trim (extractCompanyName role) = extractCompanyName role.
Proof.
  unfold extractCompanyName.
  destruct (negb (truthy_string role)); [reflexivity|].
  destruct (1 <? length (split "@" role)); [|reflexivity].
  destruct (nth_error (split "@" role) 1); [apply trim_idempotent | reflexivity].
Qed.

(** A name that was extracted and is not empty passes the blank test of the
    service. *)
Lemma extractCompanyName_not_blank (role : string) :
  truthy_string (extractCompanyName role) = true ->
  blank (extractCompanyName role) = false.
Proof.
  intros H. unfold blank. now rewrite extractCompanyName_trimmed, H.
Qed.

(** X14.  [extractCompanyName] returns the text between the first and the
    second '@' of the job role (to the end when there is one '@' only),
    trimmed, and the empty string when the role has no '@'.  Its result has
    no white space at either end, so a result that is not empty is never
    blank. *)
Theorem extractCompanyName_between_signs :
  (forall role, includes role "@" = false -> extractCompanyName role = EmptyString) /\
  (forall title company,
      includes title "@" = false -> includes company "@" = false ->
      extractCompanyName (title ++ "@" ++ company) = trim company) /\
  (forall title company rest,
      includes title "@" = false -> includes company "@" = false ->
      extractCompanyName (title ++ "@" ++ company ++ "@" ++ rest) = trim company) /\
  (forall role, trim (extractCompanyName role) = extractCompanyName role) /\
  (forall role,
      extractCompanyName role <> EmptyString ->
      blank (extractCompanyName role) = false).
Proof.
  split; [|split; [|split; [|split]]].
  - intros role H. unfold extractCompanyName.
    destruct (negb (truthy_string role)); [reflexivity|].
    now rewrite (split_without role H).
  - intros title company Ht Hc. unfold extractCompanyName.
    change (title ++ "@" ++ company)%string with (title ++ String "@" company)%string.
    rewrite truthy_string_middle, (split_at title company Ht), (split_without company Hc).
    reflexivity.
  - intros title company rest Ht Hc. unfold extractCompanyName.
    change (title ++ "@" ++ company ++ "@" ++ rest)%string
      with (title ++ String "@" (company ++ String "@" rest))%string.
    rewrite truthy_string_middle, (split_at title _ Ht), (split_at company rest Hc).
    reflexivity.
  - apply extractCompanyName_trimmed.
  - intros role H. apply extractCompanyName_not_blank.
    now destruct (extractCompanyName role).
Qed.

Lemma extractCompanyName_between_signs_witness :
  extractCompanyName "Software Engineer @ Google" = "Google" /\
  extractCompanyName "SRE @ Acme Corp @ Berlin" = "Acme Corp" /\
  extractCompanyName "Data Engineer" = EmptyString.
Proof.
  destruct extractCompanyName_between_signs as (Hnone & Hone & Htwo & _).
  split; [|split].
  - exact (Hone "Software Engineer " " Google" eq_refl eq_refl).
  - exact (Htwo "SRE " " Acme Corp " " Berlin" eq_refl eq_refl).
  - exact (Hnone "Data Engineer" eq_refl).
Defined.

(** X15.  The effect that follows the job role puts the extracted name in
    the search box and, when it is not empty, fetches the insights for it:
    afterwards the view is not loading and shows either the insights or a
    sentence of the classifier, never "Company name is required", because an
    extracted name is trimmed.  With no name to extract the view is cleared
    and nothing is sent.  A manual search is not trimmed by the view: a
    search term of white space passes its test, and the service's validation
    sentence is shown without a request having been sent. *)
Theorem jobRoleChanged_never_asks_for_a_name (W : World) (v : View) (st : State) :
  (forall jobRole,
      let name := extractCompanyName jobRole in
      let after := jobRoleChanged W jobRole v st in
      searchTerm (fst after) = name /\
      isLoading (fst after) = false /\
      (name = EmptyString ->
       after = ({| insights := None; isLoading := false; error := None;
                   searchTerm := EmptyString; searchedCompany := EmptyString |}, st)) /\
      (name <> EmptyString ->
       searchedCompany (fst after) = name /\
       snd after = snd (generateCompanyInsights W name st) /\
       ((exists result,
            fst (generateCompanyInsights W name st) = Normal result /\
            insights (fst after) = Some result /\ error (fst after) = None) \/
        (exists e0,
            insights (fst after) = None /\
            error (fst after) = Some (handleApiError_message e0) /\
            error (fst after) <> Some "Company name is required")))) /\
  (allWhiteSpace (searchTerm v) = true ->
   searchTerm v <> EmptyString ->
   handleSearch W v st
   = ({| insights := None; isLoading := false;
         error := Some "Company name is required";
         searchTerm := searchTerm v; searchedCompany := searchTerm v |}, st)).
Proof.
  split.
  - intros jobRole name after. subst after. unfold jobRoleChanged. fold name.
    destruct (truthy_string name) eqn:Hname.
    + pose proof (extractCompanyName_not_blank jobRole Hname) as Hblank. fold name in Hblank.
      unfold fetchInsights. rewrite Hname. cbn [negb fst snd].
      destruct (generateCompanyInsights W name st) as [[result|e] s'] eqn:Hrun;
        cbn [fst snd searchTerm isLoading searchedCompany insights error].
      * split; [reflexivity|]. split; [reflexivity|].
        split; [intros E; rewrite E in Hname; discriminate Hname|].
        intros _. split; [reflexivity|]. split; [reflexivity|].
        left. now exists result.
      * split; [reflexivity|]. split; [reflexivity|].
        split; [intros E; rewrite E in Hname; discriminate Hname|].
        intros _. split; [reflexivity|]. split; [reflexivity|].
        right.
        apply generateCompanyInsights_throws in Hrun as [(Hb & _)|(_ & e0 & ->)];
          [congruence|].
        exists e0. split; [reflexivity|]. split; [reflexivity|].
        cbn [errorText handleApiError]. intros E. injection E as E.
        apply (classified_is_no_view_sentence e0 _) in E; [exact E|].
        cbn [In]. tauto.
    + cbn [fst snd searchTerm isLoading].
      assert (name = EmptyString) as -> by (now destruct name).
      split; [reflexivity|]. split; [reflexivity|].
      split; [reflexivity|]. intros H. now elim H.
  - intros Hws Hne. unfold handleSearch, fetchInsights.
    destruct (searchTerm v) as [|c term] eqn:Hterm; [now elim Hne|].
    cbn [truthy_string negb].
    apply blank_iff in Hws. unfold generateCompanyInsights. rewrite Hws.
    reflexivity.
Qed.

Lemma jobRoleChanged_never_asks_for_a_name_witness :
  handleSearch (scripted (Some "key") [] overloaded)
    {| insights := None; isLoading := false; error := None;
       searchTerm := "  "; searchedCompany := EmptyString |} initial
  = ({| insights := None; isLoading := false;
        error := Some "Company name is required";
        searchTerm := "  "; searchedCompany := "  " |}, initial).
Proof.
  exact (proj2 (jobRoleChanged_never_asks_for_a_name
                  (scripted (Some "key") [] overloaded)
                  {| insights := None; isLoading := false; error := None;
                     searchTerm := "  "; searchedCompany := EmptyString |} initial)
           eq_refl ltac:(discriminate)).
Defined.

End Insights.

(** ** The root component *)

Lemma classified_not_empty (e : Thrown) :
  truthy_string (handleApiError_message e) = true.
Proof.
  destruct e as [m| |]; cbn [handleApiError_message]; classify_cases; reflexivity.
Qed.

Module Root.

Import App.

(** X16.  [handleGenerate] with a job role that is not blank.  Afterwards
    the view is not loading and the inputs are as they were.  Either the
    service returned a kit: it is stored, no error is left, both content
    keys have gone up by one and the Q&A tab is open on the kit's questions.
    Or the service threw: no kit is stored, the tab and the keys are as they
    were, and the error is a sentence of the classifier (the fallback
    "An unknown error occurred." is never used and the service's
    "Job role is required" never shown), which a data tab displays as the
    error message.  With a blank job role nothing is sent and only the error
    changes. *)
Theorem handleGenerate_outcomes (W : World) (a : View) (st : State) :
  let call := generateFullInterviewPrep W (jobRole a) (Some (jobDescription a))
                (Some (resume a)) st in
  let after := fst (handleGenerate W a st) in
  (blank (jobRole a) = true ->
   handleGenerate W a st = (setError (Some "Please enter a job role.") a, st)) /\
  (blank (jobRole a) = false ->
   snd (handleGenerate W a st) = snd call /\
   isLoading after = false /\
   isRefreshing after = isRefreshing a /\
   (jobRole after, jobDescription after, resume after)
   = (jobRole a, jobDescription a, resume a) /\
   ((exists data,
        fst call = Normal data /\
        prepData after = Some data /\ error after = None /\
        activeTab after = TabQA /\
        qaKey after = qaKey a + 1 /\ codingKey after = codingKey a + 1 /\
        renderContent after
        = InterviewPrepDisplay (fip_generalQuestions data) (fip_technicalQuestions data)
            (qaKey a + 1) (isRefreshing a)) \/
    (exists e0,
        fst call = Throw (handleApiError e0 "generateFullInterviewPrep") /\
        prepData after = None /\
        error after = Some (handleApiError_message e0) /\
        error after <> Some "An unknown error occurred." /\
        error after <> Some "Job role is required" /\
        activeTab after = activeTab a /\
        qaKey after = qaKey a /\ codingKey after = codingKey a /\
        (activeTab a = TabQA \/ activeTab a = TabPracticalChallenges ->
         renderContent after = ErrorMessage (handleApiError_message e0))))).
Proof.
  cbv zeta. unfold handleGenerate. split.
  - intros ->. reflexivity.
  - intros Hblank. rewrite Hblank. cbn [fst snd].
    destruct (generateFullInterviewPrep W (jobRole a) (Some (jobDescription a))
                (Some (resume a)) st) as [[data|e] s'] eqn:Hrun; cbn [fst snd].
    + do 4 (split; [reflexivity|]). left. exists data.
      repeat (split; [reflexivity|]). reflexivity.
    + do 4 (split; [reflexivity|]). right.
      apply generateFullInterviewPrep_throws in Hrun as [(Hb & _)|(_ & e0 & ->)];
        [congruence|].
      exists e0. do 3 (split; [reflexivity|]).
      cbn [handleGenerate_settled setIsLoading setError setPrepData error errorText
           handleApiError].
      split; [|split].
      * intros E. injection E as E.
        apply (classified_is_no_view_sentence e0 _) in E; [exact E|]. cbn [In]. tauto.
      * intros E. injection E as E.
        apply (classified_is_no_view_sentence e0 _) in E; [exact E|]. cbn [In]. tauto.
      * do 3 (split; [reflexivity|]).
        intros Htab. unfold renderContent.
        cbn [handleGenerate_settled setIsLoading setError setPrepData
             activeTab isLoading prepData error].
        destruct Htab as [-> | ->]; cbn [errorText handleApiError];
          now rewrite (classified_not_empty e0).
Qed.

Lemma handleGenerate_outcomes_witness :
  let W := scripted (Some "key") [] overloaded in
  let a := {| jobRole := "Backend Engineer"; jobDescription := EmptyString;
              resume := EmptyString; prepData := None; isLoading := false;
              isRefreshing := false; error := None; activeTab := TabHome;
              qaKey := 0; codingKey := 0 |} in
  isLoading (fst (handleGenerate W a initial)) = false /\
  error (fst (handleGenerate W a initial))
  = Some (msg_unexpected msg_service_unavailable).
Proof.
  cbv zeta.
  set (W := scripted (Some "key") [] overloaded).
  set (a := {| jobRole := "Backend Engineer"; jobDescription := EmptyString;
               resume := EmptyString; prepData := None; isLoading := false;
               isRefreshing := false; error := None; activeTab := TabHome;
               qaKey := 0; codingKey := 0 |}).
  destruct (proj2 (handleGenerate_outcomes W a initial) eq_refl) as (_ & Hl & _).
  split; [exact Hl|]. vm_compute. reflexivity.
Defined.

(** X17.  A refresh that fails is not shown on the tabs that offer it.  From
    a view that holds a kit and has the Q&A or the Practical Challenges tab
    open, [handleRefresh] with a throwing service keeps the kit, stores the
    classifier's sentence as the error and ends the refreshing state; what
    [renderContent] puts on the page is what it was before, the kit, with no
    error message.  With a blank job role [handleRefresh] does nothing. *)
Theorem failed_refresh_is_not_shown (W : World) (a : View) (st : State)
    (data : FullInterviewPrep) (e : Thrown) :
  blank (jobRole a) = false ->
  prepData a = Some data ->
  isLoading a = false ->
  isRefreshing a = false ->
  activeTab a = TabQA \/ activeTab a = TabPracticalChallenges ->
  fst (generateFullInterviewPrep W (jobRole a) (Some (jobDescription a))
         (Some (resume a)) st) = Throw e ->
  let after := fst (handleRefresh W a st) in
  prepData after = Some data /\
  (exists e0, e = handleApiError e0 "generateFullInterviewPrep" /\
              error after = Some (handleApiError_message e0)) /\
  isRefreshing after = false /\
  renderContent after = renderContent a /\
  (forall message, renderContent after <> ErrorMessage message).
Proof.
  intros Hblank Hdata Hload Hrefresh Htab Hthrow after. subst after.
  unfold handleRefresh. rewrite Hblank. cbn [fst].
  destruct (generateFullInterviewPrep W (jobRole a) (Some (jobDescription a))
              (Some (resume a)) st) as [[d|e'] s'] eqn:Hrun; [discriminate Hthrow|].
  cbn [fst] in Hthrow. injection Hthrow as ->.
  apply generateFullInterviewPrep_throws in Hrun as [(Hb & _)|(_ & e0 & ->)];
    [congruence|].
  cbn [fst handleRefresh_settled setIsRefreshing setError prepData error isRefreshing
       errorText handleApiError].
  split; [exact Hdata|]. split; [now exists e0|]. split; [reflexivity|].
  unfold renderContent.
  cbn [handleRefresh_settled setIsRefreshing setError
       activeTab isLoading prepData qaKey codingKey isRefreshing].
  rewrite Hdata, Hload, Hrefresh.
  destruct Htab as [-> | ->]; split; try reflexivity; intros message; discriminate.
Qed.

Lemma failed_refresh_is_not_shown_witness :
  let W := scripted (Some "key") [] overloaded in
  let kit := {| fip_roleCategory := tech; fip_generalQuestions := JArray [];
                fip_technicalQuestions := JArray []; fip_codingChallenges := JArray [];
                fip_machineCoding := JObject [] |} in
  let a := {| jobRole := "Backend Engineer"; jobDescription := EmptyString;
              resume := EmptyString; prepData := Some kit; isLoading := false;
              isRefreshing := false; error := None; activeTab := TabQA;
              qaKey := 1; codingKey := 1 |} in
  renderContent (fst (handleRefresh W a initial)) = renderContent a /\
  error (fst (handleRefresh W a initial)) = Some (msg_unexpected msg_service_unavailable).
Proof.
  cbv zeta.
  set (W := scripted (Some "key") [] overloaded).
  set (kit := {| fip_roleCategory := tech; fip_generalQuestions := JArray [];
                 fip_technicalQuestions := JArray []; fip_codingChallenges := JArray [];
                 fip_machineCoding := JObject [] |}).
  set (a := {| jobRole := "Backend Engineer"; jobDescription := EmptyString;
               resume := EmptyString; prepData := Some kit; isLoading := false;
               isRefreshing := false; error := None; activeTab := TabQA;
               qaKey := 1; codingKey := 1 |}).
  assert (Hthrow : fst (generateFullInterviewPrep W (jobRole a) (Some (jobDescription a))
                          (Some (resume a)) initial)
                   = Throw (JsError (msg_unexpected msg_service_unavailable))).
  { vm_compute. reflexivity. }
  destruct (failed_refresh_is_not_shown W a initial kit _ eq_refl eq_refl eq_refl
              eq_refl (or_introl eq_refl) Hthrow) as (_ & _ & _ & Hsame & _).
  split; [exact Hsame|]. vm_compute. reflexivity.
Defined.

(** X18.  The sidebar and the page agree.  With the [disabled] prop that
    [App] computes, the button of a tab is disabled exactly when opening the
    tab would show an empty page or the error message: a tab that can be
    opened always has something of its own to show. *)
Theorem disabled_tabs_have_no_page (a : View) (name : Tab) :
  isDisabled (disabled a) name = true <->
  renderContent (setActiveTab name a) = Nothing \/
  exists message, renderContent (setActiveTab name a) = ErrorMessage message.
Proof.
  unfold isDisabled, disabled, renderContent.
  cbn [setActiveTab activeTab isLoading prepData error qaKey codingKey isRefreshing
       jobRole].
  destruct name; cbn [ALWAYS_ENABLED_TABS existsb Tab_eqb orb negb andb];
    rewrite ?andb_false_r, ?andb_true_r;
    try (split; [discriminate | intros [H|[m H]]; discriminate H]);
    destruct (isLoading a); destruct (prepData a) as [data|]; cbn [isSome negb andb];
    try (split; [discriminate | intros [H|[m H]]; discriminate H]);
    (split; [intros _|reflexivity]);
    destruct (error a) as [message|]; [|now left| |now left];
    (destruct (truthy_string message); [right; now exists message | now left]).
Qed.

End Root.

(** ** The randomized practice view *)

Lemma generateRandomizedPrepSet_category (W : World) (jobRole : string)
    (difficulty : DifficultyLevel) (jobDescription resume : option string)
    (st st' : State) (set : RandomizedPrepSet) :
  generateRandomizedPrepSet W jobRole difficulty jobDescription resume st
  = (Normal set, st') ->
  blank jobRole = false /\ rps_roleCategory set = getRoleCategory jobRole.
Proof.
  unfold generateRandomizedPrepSet. intros H.
  destruct (blank jobRole); [discriminate H|]. split; [reflexivity|].
  destruct (randomizedPrompts_run W (getRoleCategory jobRole) st)
    as (q & d & c & m & Hp).
  rewrite (bind_normal _ _ _ _ _ Hp) in H. cbv beta iota zeta in H.
  apply guarded_body_returns in H.
  do 7 (apply bind_returns in H as (? & ? & _ & H)).
  apply bind_returns in H as (? & ? & _ & H).
  apply bind_returns in H as (? & ? & _ & H).
  now injection H as <- _.
Qed.

Module Practice.

Import DreamCompanyView.

Lemma generateSet_consistent (W : World) (role : string) (diff : DifficultyLevel)
    (v : View) (st : State) :
  consistent v -> consistent (fst (generateSet W role diff v st)).
Proof.
  intros (Hload & Hdata & Hparams & Hnone & Herror). unfold generateSet.
  destruct (blank role) eqn:Hblank.
  - cbn [fst]. unfold consistent.
    cbn [isLoading data lastGeneratedParams generatedFor contentKey error].
    split; [exact Hload|]. split; [exact Hdata|]. split; [exact Hparams|].
    split; [exact Hnone|]. intros message E. injection E as <-. now left.
  - cbn [fst].
    destruct (generateRandomizedPrepSet W role diff None None st) as [[set|e] s'] eqn:Hrun;
      cbn [fst]; unfold consistent;
      cbn [isLoading data lastGeneratedParams generatedFor contentKey error].
    + apply generateRandomizedPrepSet_category in Hrun as [_ Hcat].
      split; [reflexivity|]. split; [|split; [|split]].
      * intros set' E. injection E as <-. now exists role, diff.
      * intros role' diff' E. injection E as <- <-. now split.
      * discriminate.
      * discriminate.
    + apply generateRandomizedPrepSet_throws in Hrun as [(Hb & _)|(_ & e0 & ->)];
        [congruence|].
      split; [reflexivity|]. split; [discriminate|]. split; [exact Hparams|].
      split; [exact Hnone|].
      intros message E. injection E as <-. right. now exists e0.
Qed.

Lemma step_consistent (W : World) (action : Action) (v : View) (st : State) :
  consistent v -> consistent (fst (step W action v st)).
Proof.
  intros Hv. destruct action as [value|level| | |]; cbn [step].
  - exact Hv.
  - exact Hv.
  - now apply generateSet_consistent.
  - now apply generateSet_consistent.
  - unfold handleRefresh. destruct (lastGeneratedParams v) as [[role diff]|];
      [now apply generateSet_consistent | exact Hv].
Qed.

Lemma session_consistent (W : World) (actions : list Action) :
  forall v st, consistent v -> consistent (fst (session W actions v st)).
Proof.
  induction actions as [|action later IH]; intros v st Hv; [exact Hv|].
  cbn [session]. apply IH. now apply step_consistent.
Qed.

(** X19.  Whatever the user does in the randomized practice view, in any
    order and whatever the service answers, between two actions: the view
    is not loading; a set on screen was generated for the remembered role,
    which is not blank, and has that role's category; the heading names the
    remembered role and difficulty, not what is in the input box now; an
    error is the view's own sentence or a sentence of the classifier.
    Hence the refresh button, which uses the remembered role, never produces
    the "Please enter a job role" error. *)
Theorem session_keeps_the_view_consistent (W : World) (actions : list Action)
    (st : State) :
  let v := fst (session W actions initialView st) in
  consistent v /\
  (forall st',
      error (fst (handleRefresh W v st'))
      = Some "Please enter a job role to generate a practice set." ->
      handleRefresh W v st' = (v, st')).
Proof.
  cbv zeta.
  assert (Hv : consistent (fst (session W actions initialView st))).
  { apply session_consistent. unfold consistent, initialView.
    cbn [isLoading data lastGeneratedParams generatedFor contentKey error].
    repeat split; try discriminate; reflexivity || auto. }
  split; [exact Hv|].
  set (v := fst (session W actions initialView st)) in *.
  intros st'. unfold handleRefresh.
  destruct Hv as (_ & _ & Hparams & _).
  destruct (lastGeneratedParams v) as [[role diff]|]; [|reflexivity].
  destruct (Hparams role diff eq_refl) as [Hblank _].
  unfold generateSet. rewrite Hblank. cbn [fst].
  destruct (generateRandomizedPrepSet W role diff None None st') as [[set|e] s'] eqn:Hrun;
    cbn [fst error]; [discriminate|].
  apply generateRandomizedPrepSet_throws in Hrun as [(Hb & _)|(_ & e0 & ->)];
    [congruence|].
  cbn [errorText handleApiError]. intros E. injection E as E.
  apply (classified_is_no_view_sentence e0 _) in E; [contradiction|].
  cbn [In]. tauto.
Qed.

End Practice.

(** ** The resume analyzer *)

Lemma analyzeResume_throws_twice_classified (W : World) (resume jobDescription : string)
    (st st' : State) (e : Thrown) :
  blank resume || blank jobDescription = false ->
  analyzeResume W resume jobDescription st = (Throw e, st') ->
  exists e1,
    e = handleApiError (handleApiError e1 "generateAndParse") "analyzeResume".
Proof.
  intros Hblank H. unfold analyzeResume in H. rewrite Hblank in H.
  match type of H with
  | (_ ;; p <- plainPrompt W ?t ;; @?k p) st = _ =>
      destruct (plainPrompt_after_markers_run W t k st) as (prompt & Hp)
  end.
  rewrite Hp in H.
  apply guarded_body_throws_classified in H as (e0 & s & H & -> & _).
  apply generateAndParse_throws_classified in H as (e1 & ->).
  now exists e1.
Qed.

Module Analyzer.

Import ResumeAnalyzerView.

(** X20.  [handleAnalyze].  When the resume or the job description is blank
    the view shows its own sentence and sends nothing; its test is the one
    of the service, whose validation sentence is therefore never shown.
    Otherwise the view ends not loading, with the inputs as they were, and
    holds either the analysis and no error, or no analysis and an error that
    is the quota sentence, the safety sentence, or "Unexpected error: "
    before another sentence of the classifier: the fallback of the [catch]
    is never used. *)
Theorem handleAnalyze_outcomes (W : World) (v : View) (st : State) :
  let call := analyzeResume W (resume v) (jobDescription v) st in
  let after := fst (handleAnalyze W v st) in
  (blank (resume v) || blank (jobDescription v) = true ->
   handleAnalyze W v st
   = ({| resume := resume v; jobDescription := jobDescription v;
         analysis := analysis v; isLoading := isLoading v;
         error := Some "Please paste both your resume and the job description." |},
      st)) /\
  (blank (resume v) || blank (jobDescription v) = false ->
   snd (handleAnalyze W v st) = snd call /\
   isLoading after = false /\
   (resume after, jobDescription after) = (resume v, jobDescription v) /\
   ((exists result,
        fst call = Normal result /\ analysis after = Some result /\ error after = None) \/
    (exists e1,
        analysis after = None /\
        error after = Some (handleApiError_message (JsError (handleApiError_message e1))) /\
        (error after = Some msg_quota \/ error after = Some msg_safety \/
         error after = Some (msg_unexpected (handleApiError_message e1)))))).
Proof.
  cbv zeta. unfold handleAnalyze. split.
  - intros ->. reflexivity.
  - intros Hblank. rewrite Hblank. cbn [fst snd].
    destruct (analyzeResume W (resume v) (jobDescription v) st) as [[result|e] s']
      eqn:Hrun; cbn [fst snd resume jobDescription isLoading analysis error].
    + do 3 (split; [reflexivity|]). left. now exists result.
    + do 3 (split; [reflexivity|]). right.
      apply (analyzeResume_throws_twice_classified W _ _ _ _ _ Hblank) in Hrun
        as (e1 & ->).
      exists e1. split; [reflexivity|]. cbn [errorText handleApiError].
      split; [reflexivity|].
      unfold handleApiError.
      destruct (classified_twice e1) as [[_ ->]|[[_ ->]|(_ & _ & ->)]]; auto.
Qed.

Lemma handleAnalyze_outcomes_witness :
  let W := scripted (Some "key")
             [Rejects (JsError "API key not valid. Please pass a valid API key.")]
             (Rejects (JsError "API key not valid. Please pass a valid API key.")) in
  let v := {| resume := "my resume"; jobDescription := "the job"; analysis := None;
              isLoading := false; error := None |} in
  isLoading (fst (handleAnalyze W v initial)) = false /\
  error (fst (handleAnalyze W v initial)) = Some (msg_unexpected msg_invalid_key).
Proof.
  cbv zeta.
  set (W := scripted (Some "key")
              [Rejects (JsError "API key not valid. Please pass a valid API key.")]
              (Rejects (JsError "API key not valid. Please pass a valid API key."))).
  set (v := {| resume := "my resume"; jobDescription := "the job"; analysis := None;
               isLoading := false; error := None |}).
  destruct (proj2 (handleAnalyze_outcomes W v initial) eq_refl) as (_ & Hl & _).
  split; [exact Hl|]. vm_compute. reflexivity.
Defined.

End Analyzer.

(** ** The message forms *)

Module Forms.

Import ChatView.

Lemma exchange_appends (view question message : string) (outcome : StreamOutcome)
    (prev : list ChatMessage) :
  exchange view question message outcome prev
  = Normal (prev ++
              match outcome with
              | SendRejected e => [errorMessage view question e message]
              | Streamed chunks None => [partialMessage chunks]
              | Streamed chunks (Some e) =>
                  [partialMessage chunks; errorMessage view question e message]
              end).
Proof.
  destruct outcome as [e|chunks [e|]];
    [apply Transcripts.exchange_rejected | apply Transcripts.exchange_failed
    | apply Transcripts.exchange_streamed].
Qed.

(** X21.  Sending from the message form, in both chat views, when the form
    accepts the text (it is not blank, the view is not thinking, a session
    exists and, in the mock interview, nothing is being processed).  The
    user's message is appended and the box is emptied in every case.  When
    the text differs from the last one processed, the exchange follows: the
    model's message, with an error message after it when the stream fails,
    or the error message alone when the call is rejected.  When the text is
    the last one processed again, nothing follows: the message is shown
    but not sent, so it gets no reply and no error.  The same holds of the
    "Explain This" prompt of the doubt buster. *)
Theorem repeated_text_gets_no_reply (userInput : string) (outcome : StreamOutcome) :
  let reply view question :=
    match outcome with
    | SendRejected e => [errorMessage view question e userInput]
    | Streamed chunks None => [partialMessage chunks]
    | Streamed chunks (Some e) =>
        [partialMessage chunks; errorMessage view question e userInput]
    end in
  (forall st c,
      blank userInput = false ->
      MockInterview.isThinking st = false ->
      MockInterview.chat st = Some c ->
      MockInterview.processingMessage st = false ->
      exists st',
        ChatForm.MockInterview.handleSendMessage userInput outcome st
        = Normal (st', EmptyString) /\
        MockInterview.messages st'
        = MockInterview.messages st ++
            ChatForm.userMessage userInput ::
            (if String.eqb userInput (MockInterview.lastProcessedMessage st) then []
             else reply "MockInterview.processAIResponse" MockInterview.question) /\
        MockInterview.lastProcessedMessage st' = userInput) /\
  (forall st c,
      blank userInput = false ->
      DoubtBuster.isThinking st = false ->
      DoubtBuster.chat st = Some c ->
      exists st',
        ChatForm.DoubtBuster.handleSendMessage userInput outcome st
        = Normal (st', EmptyString) /\
        DoubtBuster.messages st'
        = DoubtBuster.messages st ++
            ChatForm.userMessage userInput ::
            (if String.eqb userInput (DoubtBuster.lastProcessedMessage st) then []
             else reply "DoubtBuster.processAIResponse" DoubtBuster.question) /\
        DoubtBuster.lastProcessedMessage st' = userInput) /\
  (forall st c textToExplain,
      textToExplain <> EmptyString ->
      DoubtBuster.chat st = Some c ->
      DoubtBuster.lastProcessedMessage st
      = ChatForm.DoubtBuster.explainPrompt textToExplain ->
      exists st',
        ChatForm.DoubtBuster.explainThis (Some textToExplain) outcome st
        = Normal (st', None) /\
        DoubtBuster.messages st'
        = DoubtBuster.messages st ++
            [ChatForm.userMessage (ChatForm.DoubtBuster.explainPrompt textToExplain)]).
Proof.
  cbv zeta. split; [|split].
  - intros st c Hblank Hthink Hchat Hidle.
    unfold ChatForm.MockInterview.handleSendMessage.
    rewrite Hblank, Hthink, Hchat, Hidle. cbn [isSome negb orb].
    unfold MockInterview.processAIResponse.
    cbn [MockInterview.chat MockInterview.lastProcessedMessage
         MockInterview.processingMessage MockInterview.messages MockInterview.isThinking].
    rewrite ?Hchat, ?Hidle. cbn [negb andb].
    destruct (String.eqb_spec userInput (MockInterview.lastProcessedMessage st))
      as [Hsame|Hnew].
    + eexists. split; [reflexivity|].
      cbn [MockInterview.messages MockInterview.lastProcessedMessage].
      split; [reflexivity | now symmetry].
    + rewrite exchange_appends. eexists. split; [reflexivity|].
      cbn [MockInterview.messages MockInterview.lastProcessedMessage].
      split; [|reflexivity]. now rewrite <- app_assoc.
  - intros st c Hblank Hthink Hchat.
    unfold ChatForm.DoubtBuster.handleSendMessage.
    rewrite Hblank, Hthink, Hchat. cbn [isSome negb orb].
    unfold DoubtBuster.processAIResponse.
    cbn [DoubtBuster.chat DoubtBuster.lastProcessedMessage DoubtBuster.messages
         DoubtBuster.isThinking ChatForm.userMessage text].
    rewrite ?Hchat. cbn [negb andb].
    destruct (String.eqb_spec userInput (DoubtBuster.lastProcessedMessage st))
      as [Hsame|Hnew].
    + eexists. split; [reflexivity|].
      cbn [DoubtBuster.messages DoubtBuster.lastProcessedMessage].
      split; [reflexivity | now symmetry].
    + rewrite exchange_appends. eexists. split; [reflexivity|].
      cbn [DoubtBuster.messages DoubtBuster.lastProcessedMessage].
      split; [|reflexivity]. now rewrite <- app_assoc.
  - intros st c textToExplain Hne Hchat Hlast.
    unfold ChatForm.DoubtBuster.explainThis.
    destruct textToExplain as [|ch t]; [now elim Hne|].
    rewrite Hchat. cbn [truthy_string isSome andb].
    unfold DoubtBuster.processAIResponse.
    cbn [DoubtBuster.chat DoubtBuster.lastProcessedMessage DoubtBuster.messages
         DoubtBuster.isThinking].
    rewrite ?Hchat, Hlast, String.eqb_refl. cbn [negb andb].
    eexists. split; reflexivity.
Qed.

Lemma repeated_text_gets_no_reply_witness :
  let st := {| MockInterview.chat := Some aChat;
               MockInterview.messages :=
                 [modelSays "Do you know Rust?"; userSays "yes";
                  modelSays "And have you used it at work?"];
               MockInterview.isThinking := false;
               MockInterview.processingMessage := false;
               MockInterview.lastProcessedMessage := "yes" |} in
  exists st',
    ChatForm.MockInterview.handleSendMessage "yes"
      (Streamed [fragment "Good."] None) st
    = Normal (st', EmptyString) /\
    MockInterview.messages st'
    = [modelSays "Do you know Rust?"; userSays "yes";
       modelSays "And have you used it at work?"; userSays "yes"].
Proof.
  cbv zeta.
  destruct (proj1 (repeated_text_gets_no_reply "yes" (Streamed [fragment "Good."] None))
              {| MockInterview.chat := Some aChat;
                 MockInterview.messages :=
                   [modelSays "Do you know Rust?"; userSays "yes";
                    modelSays "And have you used it at work?"];
                 MockInterview.isThinking := false;
                 MockInterview.processingMessage := false;
                 MockInterview.lastProcessedMessage := "yes" |}
              aChat eq_refl eq_refl eq_refl eq_refl) as (st' & Hrun & Hmessages & _).
  exists st'. split; [exact Hrun|exact Hmessages].
Defined.

End Forms.

(** ** What is sent *)








(** ** The machine coding round *)

Lemma generateMachineCodingSolution_throws_twice_classified (W : World)
    (problemTitle problemDescription : string) (st st' : State) (e : Thrown) :
  blank problemTitle || blank problemDescription = false ->
  generateMachineCodingSolution W problemTitle problemDescription st = (Throw e, st') ->
  exists e1,
    e = handleApiError (handleApiError e1 "generateAndParse")
          "generateMachineCodingSolution".
Proof.
  intros Hblank H. unfold generateMachineCodingSolution in H. rewrite Hblank in H.
  match type of H with
  | (_ ;; p <- plainPrompt W ?t ;; @?k p) st = _ =>
      destruct (plainPrompt_after_markers_run W t k st) as (prompt & Hp)
  end.
  rewrite Hp in H.
  apply guarded_body_throws_classified in H as (e0 & s & H & -> & _).
  apply generateAndParse_throws_classified in H as (e1 & ->).
  now exists e1.
Qed.

Module Solutions.

Import MachineCodingRound.

Lemma blank_trim (s : string) : blank s = negb (truthy_string (trim s)).
Proof. reflexivity. Qed.

(** X23.  "View Solution Guide" on a problem statement that was never
    compared with its schema.  When its [title] is missing, [null] or
    blank, or its [title] is a string and its [problem] is missing, [null]
    or blank, the click sends nothing and shows the service's validation
    sentence, which this view, unlike the others, does not forestall.  When
    both are strings that are not blank, the view ends not fetching and
    holds either the guide and no error, or the guide it had and an error
    that is the quota sentence, the safety sentence or "Unexpected error: "
    before another sentence of the classifier. *)
Theorem handleShowSolution_outcomes (W : World) (machineCoding : JsValue)
    (v : View) (st : State) :
  (forall title problem,
      getProp machineCoding "title" = Normal title ->
      getProp machineCoding "problem" = Normal problem ->
      blankValue title = true \/
      ((exists s, title = JString s) /\ blankValue problem = true) ->
      handleShowSolution W machineCoding v st
      = ({| solution := solution v; isFetching := false;
            error := Some "Both problem title and description are required" |}, st)) /\
  (forall title problem,
      getProp machineCoding "title" = Normal (JString title) ->
      getProp machineCoding "problem" = Normal (JString problem) ->
      blank title || blank problem = false ->
      let call := generateMachineCodingSolution W title problem st in
      let after := fst (handleShowSolution W machineCoding v st) in
      snd (handleShowSolution W machineCoding v st) = snd call /\
      isFetching after = false /\
      ((exists result,
           fst call = Normal result /\ solution after = Some result /\
           error after = None) \/
       (exists e1,
           solution after = solution v /\
           error after
           = Some (handleApiError_message (JsError (handleApiError_message e1))) /\
           (error after = Some msg_quota \/ error after = Some msg_safety \/
            error after = Some (msg_unexpected (handleApiError_message e1)))))).
Proof.
  split.
  - intros title problem Htitle Hproblem Hblank.
    unfold handleShowSolution. rewrite Htitle, Hproblem.
    unfold generateMachineCodingSolution_of, bind, lift, throw. cbn [fst snd].
    destruct Hblank as [Ht|[[s ->] Hp]].
    + destruct title as [| | | |s| |]; try discriminate Ht;
        cbn [optionalTrim truthy_opt negb fst snd]; try reflexivity.
      cbn [blankValue] in Ht. rewrite blank_trim in Ht. now rewrite Ht.
    + cbn [optionalTrim truthy_opt].
      destruct (negb (truthy_string (trim s))); [reflexivity|].
      destruct problem as [| | | |p| |]; try discriminate Hp;
        cbn [optionalTrim truthy_opt negb fst snd]; try reflexivity.
      cbn [blankValue] in Hp. rewrite blank_trim in Hp. now rewrite Hp.
  - intros title problem Htitle Hproblem Hblank. cbv zeta.
    apply orb_false_iff in Hblank as Hboth. destruct Hboth as [Ht Hp].
    rewrite blank_trim in Ht, Hp.
    unfold handleShowSolution. rewrite Htitle, Hproblem.
    unfold generateMachineCodingSolution_of, bind, lift.
    cbn [optionalTrim truthy_opt]. rewrite Ht, Hp.
    destruct (generateMachineCodingSolution W title problem st) as [[result|e] s']
      eqn:Hrun; cbn [fst snd solution isFetching error].
    + do 2 (split; [reflexivity|]). left. now exists result.
    + do 2 (split; [reflexivity|]). right.
      apply (generateMachineCodingSolution_throws_twice_classified W _ _ _ _ _ Hblank)
        in Hrun as (e1 & ->).
      exists e1. split; [reflexivity|]. cbn [errorText handleApiError].
      split; [reflexivity|]. unfold handleApiError.
      destruct (classified_twice e1) as [[_ ->]|[[_ ->]|(_ & _ & ->)]]; auto.
Qed.

Lemma handleShowSolution_outcomes_witness :
  handleShowSolution (scripted (Some "key") [] overloaded) (JObject [])
    {| solution := None; isFetching := false; error := None |} initial
  = ({| solution := None; isFetching := false;
        error := Some "Both problem title and description are required" |}, initial).
Proof.
  exact (proj1 (handleShowSolution_outcomes (scripted (Some "key") [] overloaded)
                  (JObject []) {| solution := None; isFetching := false; error := None |}
                  initial)
           JUndefined JUndefined eq_refl eq_refl (or_introl eq_refl)).
Defined.

End Solutions.
